(** * LeadMiner: the enrichment and scoring pipeline

    A shallow embedding of [src/enricher.js] (class [LeadEnricher]) and of
    [src/scorer.js] (class [LeadScorer]), with the part of
    [src/review-scraper.js] that derives the sentiment label of a review.

    - JavaScript numbers are IEEE 754 binary64 values: they are embedded as
      Rocq's primitive floats, whose operations are the same correctly
      rounded operations.  Array lengths and counts are natural numbers.
    - The [date] of a review is the time value of [new Date(r.date)], an
      integer number of milliseconds; [Date.now()] is a parameter.
    - An optional field of an object is an [option]; [None] stands for a
      field that is absent ([undefined]), and for an absent array also
      [null].
    - Strings are sequences of characters with code points below 256.
    - A call returns ([Ok]) or throws ([Throw]).  [scoreAllLeads] sorts an
      array in place, so it runs on a store of arrays and objects.
    - What the methods print with [console.log] is left out. *)

From Stdlib Require Import ZArith Floats Strings.String Strings.Ascii List Lia Bool.
From Stdlib Require Import Sorting.Sorted Sorting.Permutation DecimalString.
From stdpp Require Import base list.

Set Warnings "-inexact-float".

Local Open Scope Z_scope.

(** ** The JavaScript runtime: numbers *)

Module JS.

(** The Number that an integer converts to (the nearest binary64). *)
Definition num (z : Z) : float := SF2Prim (binary_normalize prec emax z 0 false).

Definition of_nat (n : nat) : float := num (Z.of_nat n).

(** [ToBoolean] on a Number: [0], [-0] and [NaN] are falsy. *)
Definition truthy (x : float) : bool := negb (is_zero x || is_nan x).

(** [x || d] on Numbers, where the field holding [x] may be absent. *)
Definition num_or (x : option float) (d : float) : float :=
  match x with
  | Some v => if truthy v then v else d
  | None => d
  end.

(** [a >= b] and [a > b] on Numbers. *)
Definition geb (a b : float) : bool := (b <=? a)%float.
Definition gtb (a b : float) : bool := (b <? a)%float.

(** [Math.min(a, b)]: [NaN] when one argument is, and [-0] below [+0]. *)
Definition Math_min (a b : float) : float :=
  if is_nan a then a
  else if is_nan b then b
  else if (a <? b)%float then a
  else if (b <? a)%float then b
  else if get_sign a then a else b.

(** The integer [floor (k * v + 1/2)], where [v = m * 2^e] is the exact value
    of a finite binary64 with integer mantissa [m] (signed) and exponent [e]. *)
Definition round_half_up (k m e : Z) : Z :=
  if 0 <=? e then k * m * 2 ^ e
  else (2 * k * m + 2 ^ (- e)) / 2 ^ (1 - e).

(** [Math.round(x)]: the integral Number closest to [x], the larger one of
    two that are equally close; a zero result keeps the sign of [x]. *)
Definition Math_round (x : float) : float :=
  match Prim2SF x with
  | S754_finite s m e =>
      let z := round_half_up 1 (if s then Z.neg m else Z.pos m) e in
      if z =? 0 then (if s then neg_zero else PrimFloat.zero) else num z
  | _ => x
  end.

(** [parseFloat(x.toFixed(2))].  [toFixed(2)] prints [n / 100] for the integer
    [n] with [n / 100] closest to the exact value of [|x|] (the larger [n] of
    two), with the sign of [x] in front when [x < 0]; [parseFloat] reads the
    nearest binary64 back.  From [2^46] on, binary64 values are further apart
    than [1/100], so that nearest value is [x] itself; below, [n < 2^53]
    converts exactly and the division is the correctly rounded quotient.
    [NaN] and the infinities print and read back as themselves. *)
Definition toFixed2 (x : float) : float :=
  if (abs x <? 0x1p46)%float then
    match Prim2SF x with
    | S754_finite s m e =>
        let q := (num (round_half_up 100 (Z.pos m) e) / 100)%float in
        if s then (- q)%float else q
    | _ => PrimFloat.zero
    end
  else x.

(** The integer value of an integral Number (for printing). *)
Definition to_Z (x : float) : Z :=
  match Prim2SF x with
  | S754_finite s m e =>
      let v := if 0 <=? e then Z.pos m * 2 ^ e else Z.pos m / 2 ^ (- e) in
      if s then - v else v
  | _ => 0
  end.

(** [String(x)] for an integral Number below [10^21]: its decimal digits. *)
Definition String_of_integral (x : float) : string :=
  NilZero.string_of_int (Z.to_int (to_Z x)).

End JS.

(** ** The JavaScript runtime: strings

    A string is a sequence of characters with code points below 256. *)

Module JSString.

Local Open Scope nat_scope.

Definition code (c : ascii) : nat := nat_of_ascii c.

(** [toLowerCase]: [A]-[Z], and the capital letters of Latin-1 ([U+00C0] to
    [U+00DE], the multiplication sign apart), move up by 32. *)
Definition lower_char (c : ascii) : ascii :=
  let n := code c in
  if ((65 <=? n) && (n <=? 90)) || ((192 <=? n) && (n <=? 222) && negb (n =? 215))
  then ascii_of_nat (n + 32) else c.

Fixpoint toLowerCase (s : string) : string :=
  match s with
  | EmptyString => EmptyString
  | String c s' => String (lower_char c) (toLowerCase s')
  end.

(** [s.includes(k)]: [k] occurs in [s] at some position. *)
Fixpoint includes (s k : string) : bool :=
  String.prefix k s ||
  match s with
  | EmptyString => false
  | String _ s' => includes s' k
  end.

(** [ToBoolean] on a string: only the empty string is falsy. *)
Definition truthy (s : string) : bool := negb (s =? EmptyString)%string.

(** [x || null] for a field [x] that may be absent. *)
Definition or_null (x : option string) : option string :=
  match x with
  | Some s => if truthy s then Some s else None
  | None => None
  end.

(** [!!x] for a value that is a string or [null]. *)
Definition present (x : option string) : bool :=
  match x with
  | Some s => truthy s
  | None => false
  end.

(** [s.replace(/^p/, '')] for a literal [p]: drops [p] from the front. *)
Fixpoint strip_prefix (p s : string) : option string :=
  match p, s with
  | EmptyString, _ => Some s
  | String a p', String b s' => if Ascii.eqb a b then strip_prefix p' s' else None
  | String _ _, EmptyString => None
  end.

(** [s.split('/')[0]]: the characters before the first [/]. *)
Fixpoint before_slash (s : string) : string :=
  match s with
  | EmptyString => EmptyString
  | String c s' => if Ascii.eqb c "/" then EmptyString else String c (before_slash s')
  end.

(** *** A backtracking matcher for sequences of single-character items

    [Req c] is a character of the class [c], [Opt c] is [c?] (greedy: the
    character is taken first and given back when the rest fails). *)
Inductive item : Type :=
| Req (cls : ascii -> bool)
| Opt (cls : ascii -> bool).

(** The text matched by the pattern [p] at the start of [s]. *)
Fixpoint match_here (p : list item) (s : string) : option string :=
  match p with
  | [] => Some EmptyString
  | Req c :: p' =>
      match s with
      | String a s' => if c a then String a <$> match_here p' s' else None
      | EmptyString => None
      end
  | Opt c :: p' =>
      match s with
      | String a s' =>
          if c a then
            match match_here p' s' with
            | Some r => Some (String a r)
            | None => match_here p' s
            end
          else match_here p' s
      | EmptyString => match_here p' s
      end
  end.

(** [s.match(/p/g)[0]]: the leftmost match, [None] when [match] gives [null]. *)
Fixpoint match_first (p : list item) (s : string) : option string :=
  match match_here p s with
  | Some r => Some r
  | None =>
      match s with
      | EmptyString => None
      | String _ s' => match_first p s'
      end
  end.

Definition is_char (c : ascii) : ascii -> bool := Ascii.eqb c.
(** [\d] *)
Definition digit (a : ascii) : bool := (48 <=? code a) && (code a <=? 57).
(** [\s] below [U+0100]: tab to carriage return, space, no-break space. *)
Definition space (a : ascii) : bool :=
  ((9 <=? code a) && (code a <=? 13)) || (code a =? 32) || (code a =? 160).
(** [[-.\s]] *)
Definition sep (a : ascii) : bool := is_char "-" a || is_char "." a || space a.

End JSString.

(** ** The JavaScript runtime: [Array.prototype.sort]

    [sort] is stable (ECMAScript 2019).  [after a b] says that the comparator
    is positive at [(a, b)], that is, [a] goes after [b].  For a comparator
    that orders the elements by a key, the result of a stable sort is
    determined ([stable_sort_unique] below); insertion from the right
    computes it. *)

Section Sort.
Context {A : Type} (after : A -> A -> bool).

Fixpoint sort_insert (x : A) (l : list A) : list A :=
  match l with
  | [] => [x]
  | y :: l' => if after x y then y :: sort_insert x l' else x :: l
  end.

Definition js_sort (l : list A) : list A := foldr sort_insert [] l.

End Sort.

(** [arr.slice(0, k)] and [arr.slice(k)] for [k] within the array. *)
Definition slice_to {A} (k : nat) (l : list A) : list A := firstn k l.
Definition slice_from {A} (k : nat) (l : list A) : list A := skipn k l.

(** ** Errors: a call either returns or throws a [TypeError] *)

Inductive result (A : Type) : Type :=
| Ok (a : A)
| Throw (msg : string).
Arguments Ok {A} a.
Arguments Throw {A} msg.

Definition bind {A B} (r : result A) (k : A -> result B) : result B :=
  match r with
  | Ok a => k a
  | Throw m => Throw m
  end.

Notation "x <-! r ;; k" := (bind r (fun x => k))
  (at level 100, r at next level, right associativity).

(** Reading a property of [undefined] or [null] throws. *)
Definition TypeError : string := "TypeError: Cannot read properties of undefined".

(** [arr.method(...)] on a value that may be absent. *)
Definition deref {A} (arr : option (list A)) : result (list A) :=
  match arr with
  | Some l => Ok l
  | None => Throw TypeError
  end.

(** ** The data model *)

(** The [sentiment] object stored on a review by the scraper. *)
Module Sentiment.
Record t : Type := mk {
  score : float;
  comparative : option float;
  sentiment : string;
  positive : option (list string);
  negative : option (list string);
}.
End Sentiment.

Module Review.
Record t : Type := mk {
  rating : option float;
  text : option string;
  date : Z;                          (* [new Date(r.date).getTime()] *)
  sentiment : option Sentiment.t;
  ownerResponse : option string;
  response : option string;
}.
End Review.

Module ContactInfo.
Record t : Type := mk {
  phone : option string;
  email : option string;
  website : option string;
  hasContact : bool;
  emailType : option string;
}.
End ContactInfo.

Module ReviewTrend.
Record t : Type := mk {
  trend : string;
  change : float;
  recentAvg : option float;
  olderAvg : option float;
  trendScore : option string;
}.
End ReviewTrend.

Module BusinessSize.
Record t : Type := mk {
  size : string;
  category : string;
  totalReviews : float;
  sizeScore : float;
}.
End BusinessSize.

Module ResponseRate.
Record t : Type := mk {
  rate : float;
  responded : nat;
  total : nat;
  percentage : string;
  engagement : option string;
}.
End ResponseRate.

Module Keyword.
Record t : Type := mk {
  word : string;
  count : nat;
}.
End Keyword.

Module LastNegative.
Record t : Type := mk {
  date : Z;
  daysAgo : Z;
  recency : string;
}.
End LastNegative.

Module Enrichment.
Record t : Type := mk {
  contactInfo : ContactInfo.t;
  reviewTrend : ReviewTrend.t;
  businessSize : BusinessSize.t;
  responseRate : ResponseRate.t;
  negativeReviewKeywords : list Keyword.t;
  lastNegativeReview : option LastNegative.t;
}.
End Enrichment.

(** [scoringDetails]: one entry for each factor that contributed. *)
Module Details.
Record recentNegatives_t : Type := mkRecent { count : nat; recent_points : float }.
Record lowResponseRate_t : Type := mkLow { rate : float; low_points : float }.
Record businessSize_t : Type := mkSize { reviews : float; size_points : float }.
Record ratingDecline_t : Type := mkDecline {
  trend : option string;
  trendScore : option string;
  decline_points : float;
}.
Record t : Type := mk {
  recentNegatives : option recentNegatives_t;
  lowResponseRate : option lowResponseRate_t;
  businessSize : option businessSize_t;
  ratingDecline : option ratingDecline_t;
}.
Definition empty : t := mk None None None None.
End Details.

(** A business record.  The pipeline layers [enrichment], and then [score],
    [scoringDetails] and [priority], on the same object shape. *)
Module Lead.
Record t : Type := mk {
  id : string;
  source : string;
  name : string;
  rating : option float;
  totalReviews : option float;
  category : string;
  address : option string;
  phone : option string;
  website : option string;
  email : option string;
  url : string;
  scrapedAt : string;
  reviews : option (list Review.t);
  enrichment : option Enrichment.t;
  score : option float;
  scoringDetails : option Details.t;
  priority : option string;
}.

(** [{ ...lead, enrichment: e }] *)
Definition with_enrichment (lead : t) (e : Enrichment.t) : t :=
  mk (id lead) (source lead) (name lead) (rating lead) (totalReviews lead)
     (category lead) (address lead) (phone lead) (website lead) (email lead)
     (url lead) (scrapedAt lead) (reviews lead)
     (Some e) (score lead) (scoringDetails lead) (priority lead).

(** [{ ...lead, score: s, scoringDetails: d, priority: p }] *)
Definition with_scoring (lead : t) (s : float) (d : Details.t) (p : string) : t :=
  mk (id lead) (source lead) (name lead) (rating lead) (totalReviews lead)
     (category lead) (address lead) (phone lead) (website lead) (email lead)
     (url lead) (scrapedAt lead) (reviews lead)
     (enrichment lead) (Some s) (Some d) (Some p).
End Lead.

(** The result of [calculateLeadScore]. *)
Module Scoring.
Record t : Type := mk {
  score : float;
  details : Details.t;
  priority : string;
}.
End Scoring.

(** ** [review-scraper.js]: the sentiment label of a review text

    [sentiment.analyze] belongs to the [sentiment] package; the adapter is
    stated over any such function. *)

Module ReviewScraper.
Local Open Scope string_scope.
Section Adapter.
Variable analyze : string -> Sentiment.t.

(** [analyzeSentiment(text)] *)
Definition analyzeSentiment (text : option string) : Sentiment.t :=
  if negb (JSString.present text) then
    Sentiment.mk 0 None "neutral" None None
  else
    let result := analyze (default EmptyString text) in
    Sentiment.mk
      (Sentiment.score result)
      (Sentiment.comparative result)
      (if JS.gtb (Sentiment.score result) 0 then "positive"
       else if (Sentiment.score result <? 0)%float then "negative"
       else "neutral")
      (Sentiment.positive result)
      (Sentiment.negative result).

End Adapter.
End ReviewScraper.

(** ** [enricher.js]: class [LeadEnricher] *)

Module LeadEnricher.
Import JSString.
Local Open Scope string_scope.

(** [contactPatterns.phone]:
    [/(\+?1?[-.\s]?)?\(?\d{3}\)?[-.\s]?\d{3}[-.\s]?\d{4}/g].  Every item of the
    optional group is optional itself, so the group is its items in a row. *)
Definition phonePattern : list item :=
  [ Opt (is_char "+"); Opt (is_char "1"); Opt sep;
    Opt (is_char "("); Req digit; Req digit; Req digit; Opt (is_char ")");
    Opt sep; Req digit; Req digit; Req digit;
    Opt sep; Req digit; Req digit; Req digit; Req digit ].

(** [url.replace(/^https?:\/\//, '')] *)
Definition strip_scheme (u : string) : string :=
  match strip_prefix "https://" u with
  | Some r => r
  | None => default u (strip_prefix "http://" u)
  end.

(** [s.replace(/^www\./, '')] *)
Definition strip_www (u : string) : string := default u (strip_prefix "www." u).

(** [extractDomain(url)] *)
Definition extractDomain (url : option string) : option string :=
  match url with
  | Some u =>
      if negb (truthy u) then None
      else Some (before_slash (strip_www (strip_scheme u)))
  | None => None
  end.

(** [enrichContactInfo(lead)] *)
Definition enrichContactInfo (lead : Lead.t) : ContactInfo.t :=
  let phone := or_null (Lead.phone lead) in
  let email := or_null (Lead.email lead) in
  let website := or_null (Lead.website lead) in
  (* Try to extract phone from various fields *)
  let phone :=
    if negb (present phone) && present (Lead.address lead) then
      match match_first phonePattern (default EmptyString (Lead.address lead)) with
      | Some m => Some m
      | None => phone
      end
    else phone in
  (* Validate email or generate likely pattern *)
  let '(email, emailType) :=
    if negb (present email) && present website then
      let domain := extractDomain website in
      if present domain then
        (Some ("info@" ++ default EmptyString domain), Some "estimated")
      else (email, None)
    else (email, None) in
  ContactInfo.mk phone email website
    (present phone || present email || present website) emailType.

(** [averageRating(reviews)] *)
Definition averageRating (reviews : list Review.t) : float :=
  if (length reviews =? 0)%nat then 0%float
  else
    let sum := fold_left (fun acc r => (acc + JS.num_or (Review.rating r) 0)%float)
                         reviews 0%float in
    (sum / JS.of_nat (length reviews))%float.

(** The comparator [(a, b) => new Date(b.date) - new Date(a.date)] is
    positive when [a] is older than [b]. *)
Definition older (a b : Review.t) : bool := (0 <? Review.date b - Review.date a)%Z.

(** [calculateReviewTrend(reviews)] *)
Definition calculateReviewTrend (reviews : option (list Review.t)) : ReviewTrend.t :=
  match reviews with
  | None => ReviewTrend.mk "insufficient_data" 0 None None None
  | Some reviews =>
      if (length reviews <? 5)%nat then
        ReviewTrend.mk "insufficient_data" 0 None None None
      else
        (* Sort by date (newest first) *)
        let sorted := js_sort older reviews in
        (* Compare recent half vs older half *)
        let mid := (length sorted / 2)%nat in
        let recentAvg := averageRating (slice_to mid sorted) in
        let olderAvg := averageRating (slice_from mid sorted) in
        let change := (recentAvg - olderAvg)%float in
        ReviewTrend.mk
          (if (change <? -0.3)%float then "worsening"
           else if JS.gtb change 0.3 then "improving" else "stable")
          (JS.toFixed2 change)
          (Some (JS.toFixed2 recentAvg))
          (Some (JS.toFixed2 olderAvg))
          (Some (if (change <? -0.5)%float then "critical"
                 else if (change <? -0.3)%float then "high" else "moderate")%string)
  end.

(** [estimateBusinessSize(lead)] *)
Definition estimateBusinessSize (lead : Lead.t) : BusinessSize.t :=
  let total := JS.num_or (Lead.totalReviews lead) 0 in
  let '(size, category) :=
    if (total <? 10)%float then ("very_small", "Micro (<10 reviews)")
    else if (total <? 50)%float then ("small", "Small (10-50 reviews)")
    else if (total <? 200)%float then ("medium", "Medium (50-200 reviews)")
    else if (total <? 500)%float then ("large", "Large (200-500 reviews)")
    else ("very_large", "Very Large (500+ reviews)")%string in
  BusinessSize.mk size category total (JS.Math_min (total / 10) 100).

(** [r => r.ownerResponse || r.response] *)
Definition hasResponse (r : Review.t) : bool :=
  present (Review.ownerResponse r) || present (Review.response r).

(** [calculateResponseRate(reviews)] *)
Definition calculateResponseRate (reviews : option (list Review.t)) : ResponseRate.t :=
  match reviews with
  | None => ResponseRate.mk 0 0 0 "0%" None
  | Some reviews =>
      if (length reviews =? 0)%nat then ResponseRate.mk 0 0 0 "0%" None
      else
        let responded := length (List.filter hasResponse reviews) in
        let total := length reviews in
        let rate := (JS.of_nat responded / JS.of_nat total)%float in
        ResponseRate.mk
          (JS.toFixed2 rate)
          responded
          total
          (JS.String_of_integral (JS.Math_round (rate * 100)) ++ "%")%string
          (Some (if JS.gtb rate 0.7 then "high"
                 else if JS.gtb rate 0.3 then "moderate" else "low")%string)
  end.

(** [r.rating <= 2]; the comparison is false on an absent rating. *)
Definition lowRating (r : Review.t) : bool :=
  match Review.rating r with
  | Some x => (x <=? 2)%float
  | None => false
  end.

(** [r.sentiment?.sentiment === 'negative'] *)
Definition storedNegative (r : Review.t) : bool :=
  match Review.sentiment r with
  | Some s => (Sentiment.sentiment s =? "negative")%string
  | None => false
  end.

(** [r => r.rating <= 2 || r.sentiment?.sentiment === 'negative'] *)
Definition isNegativeReview (r : Review.t) : bool := lowRating r || storedNegative r.

(** Common complaint keywords *)
Definition keywords : list string :=
  [ "slow"; "rude"; "dirty"; "cold"; "wait"; "poor"; "terrible"; "worst";
    "disappointed"; "never"; "avoid"; "bad"; "horrible"; "disgusting";
    "unprofessional"; "delayed"; "broken"; "outdated"; "overpriced" ]%string.

(** A [Map] from words to counts: its entries in insertion order. *)
Definition wordMap : Type := list (string * nat).

(** [found.get(k)] *)
Fixpoint map_get (k : string) (m : wordMap) : option nat :=
  match m with
  | [] => None
  | (k', v) :: m' => if (k' =? k)%string then Some v else map_get k m'
  end.

(** [found.set(k, v)]: a known key keeps its place, a new one goes last. *)
Fixpoint map_set (k : string) (v : nat) (m : wordMap) : wordMap :=
  match m with
  | [] => [(k, v)]
  | (k', v') :: m' =>
      if (k' =? k)%string then (k', v) :: m' else (k', v') :: map_set k v m'
  end.

(** The body of [keywords.forEach] for one review text. *)
Definition countKeyword (text : string) (found : wordMap) (keyword : string) : wordMap :=
  if includes text keyword then
    map_set keyword (default 0%nat (map_get keyword found) + 1)%nat found
  else found.

(** The body of [negativeReviews.forEach]. *)
Definition countReview (found : wordMap) (review : Review.t) : wordMap :=
  let text := toLowerCase (default EmptyString (Review.text review)) in
  fold_left (countKeyword text) keywords found.

(** The comparator [(a, b) => b[1] - a[1]]. *)
Definition fewer (a b : string * nat) : bool := (snd a <? snd b)%nat.

(** [reviews.filter(r => r.rating <= 2 || r.sentiment?.sentiment === 'negative')] *)
Definition negativeReviews (reviews : list Review.t) : list Review.t :=
  List.filter isNegativeReview reviews.

(** [extractNegativeKeywords(reviews)] *)
Definition extractNegativeKeywords (reviews : option (list Review.t))
  : result (list Keyword.t) :=
  reviews <-! deref reviews ;;
  let negativeReviews := negativeReviews reviews in
  if (length negativeReviews =? 0)%nat then Ok []
  else
    let found := fold_left countReview negativeReviews [] in
    (* Return top 5 most common keywords *)
    Ok (map (fun '(word, count) => Keyword.mk word count)
            (slice_to 5 (js_sort fewer found))).

(** [getLastNegativeReviewDate(reviews)], with [now] for [Date.now()].  The
    time stamps are integers below [2^53], on which the division and
    [Math.floor] give the integer quotient. *)
Definition getLastNegativeReviewDate (now : Z) (reviews : option (list Review.t))
  : result (option LastNegative.t) :=
  reviews <-! deref reviews ;;
  let negative := js_sort older (List.filter lowRating reviews) in
  match negative with
  | [] => Ok None
  | first :: _ =>
      let date := Review.date first in
      let daysAgo := ((now - date) / (1000 * 60 * 60 * 24))%Z in
      Ok (Some (LastNegative.mk date daysAgo
                  (if (daysAgo <? 7)%Z then "very_recent"
                   else if (daysAgo <? 30)%Z then "recent" else "old")))
  end.

(** The object that [enrichLeads] builds for one lead. *)
Definition enrichLead (now : Z) (lead : Lead.t) : result Lead.t :=
  let contactInfo := enrichContactInfo lead in
  let reviewTrend := calculateReviewTrend (Lead.reviews lead) in
  let businessSize := estimateBusinessSize lead in
  let responseRate := calculateResponseRate (Lead.reviews lead) in
  negativeReviewKeywords <-! extractNegativeKeywords (Lead.reviews lead) ;;
  lastNegativeReview <-! getLastNegativeReviewDate now (Lead.reviews lead) ;;
  Ok (Lead.with_enrichment lead
        (Enrichment.mk contactInfo reviewTrend businessSize responseRate
                       negativeReviewKeywords lastNegativeReview)).

(** [leads.map((lead, idx) => ...)] with a callback that may throw: the first
    throw ends the call. *)
Fixpoint map_from {A B} (f : nat -> A -> result B) (idx : nat) (l : list A)
  : result (list B) :=
  match l with
  | [] => Ok []
  | x :: l' =>
      y <-! f idx x ;;
      ys <-! map_from f (S idx) l' ;;
      Ok (y :: ys)
  end.

(** [enrichLeads(leads)]; [clock idx] is what [Date.now()] returns while the
    lead at [idx] is enriched. *)
Definition enrichLeads (clock : nat -> Z) (leads : list Lead.t) : result (list Lead.t) :=
  map_from (fun idx lead => enrichLead (clock idx) lead) 0 leads.

End LeadEnricher.

(** ** The object store

    Arrays and objects are reached through references.  An array of leads is
    a list of object references; [map] and the spread [{ ...lead }] allocate,
    [sort] writes the array it is called on.  The values inside a lead (its
    review list, its enrichment block) are shared between a lead and its
    copies and are never written, so they are kept by value. *)

Module Store.

Record t : Type := mk {
  objects : list Lead.t;
  arrays : list (list nat);
}.

Definition alloc_object (o : Lead.t) (h : t) : nat * t :=
  (length (objects h), mk (objects h ++ [o]) (arrays h)).

Definition alloc_array (a : list nat) (h : t) : nat * t :=
  (length (arrays h), mk (objects h) (arrays h ++ [a])).

Definition write_array (r : nat) (a : list nat) (h : t) : t :=
  mk (objects h) (<[r := a]> (arrays h)).

(** The leads an array holds, by value. *)
Definition leads_of (h : t) (r : nat) : option (list Lead.t) :=
  a ← arrays h !! r; mapM (fun o => objects h !! o) a.

End Store.

(** ** [scorer.js]: class [LeadScorer] *)

Module LeadScorer.
Local Open Scope string_scope.

(** [this.weights] *)
Module weights.
Definition recentNegatives : float := 40.
Definition lowResponseRate : float := 30.
Definition businessSize : float := 20.
Definition ratingDecline : float := 10.
End weights.

(** [review.rating <= 2] *)
Definition isNegative (review : Review.t) : bool :=
  match Review.rating review with
  | Some x => (x <=? 2)%float
  | None => false
  end.

(** [countRecentNegatives(lead)], with [now] for [Date.now()]. *)
Definition countRecentNegatives (now : Z) (lead : Lead.t) : nat :=
  match Lead.reviews lead with
  | None => 0
  | Some reviews =>
      if (length reviews =? 0)%nat then 0%nat
      else
        let thirtyDaysAgo := (now - 30 * 24 * 60 * 60 * 1000)%Z in
        length (List.filter
                  (fun review =>
                     let reviewDate := Review.date review in
                     let isRecent := (thirtyDaysAgo <=? reviewDate)%Z in
                     isRecent && isNegative review)
                  reviews)
  end.

(** [getPriorityLevel(score)] *)
Definition getPriorityLevel (score : float) : string :=
  if JS.geb score 80 then "critical"
  else if JS.geb score 60 then "high"
  else if JS.geb score 40 then "medium"
  else "low".

(** [a === 'lit'] for a string that may be absent. *)
Definition is_str (a : option string) (lit : string) : bool :=
  match a with
  | Some s => (s =? lit)%string
  | None => false
  end.

(** 1. Recent negative spike = urgent opportunity *)
Definition scoreRecentNegatives (recentNegatives : nat) (acc : float * Details.t)
  : float * Details.t :=
  let '(score, details) := acc in
  let put points :=
    ((score + points)%float,
     Details.mk (Some (Details.mkRecent recentNegatives points))
                (Details.lowResponseRate details)
                (Details.businessSize details)
                (Details.ratingDecline details)) in
  if (5 <=? recentNegatives)%nat then put weights.recentNegatives
  else if (3 <=? recentNegatives)%nat then
    put (JS.Math_round (weights.recentNegatives * 0.6))
  else if (1 <=? recentNegatives)%nat then
    put (JS.Math_round (weights.recentNegatives * 0.3))
  else acc.

(** 2. Low response rate = not managing reputation *)
Definition scoreLowResponseRate (responseRate : float) (acc : float * Details.t)
  : float * Details.t :=
  let '(score, details) := acc in
  let put points :=
    ((score + points)%float,
     Details.mk (Details.recentNegatives details)
                (Some (Details.mkLow responseRate points))
                (Details.businessSize details)
                (Details.ratingDecline details)) in
  if (responseRate <? 0.2)%float then put weights.lowResponseRate
  else if (responseRate <? 0.5)%float then
    put (JS.Math_round (weights.lowResponseRate * 0.5))
  else acc.

(** 3. Large business = bigger contract potential *)
Definition scoreBusinessSize (reviewCount : float) (acc : float * Details.t)
  : float * Details.t :=
  let '(score, details) := acc in
  let put points :=
    ((score + points)%float,
     Details.mk (Details.recentNegatives details)
                (Details.lowResponseRate details)
                (Some (Details.mkSize reviewCount points))
                (Details.ratingDecline details)) in
  if JS.gtb reviewCount 100 then put weights.businessSize
  else if JS.gtb reviewCount 50 then put (JS.Math_round (weights.businessSize * 0.7))
  else if JS.gtb reviewCount 20 then put (JS.Math_round (weights.businessSize * 0.4))
  else acc.

(** 4. Rating declining = getting worse *)
Definition scoreRatingDecline (trend trendScore : option string) (acc : float * Details.t)
  : float * Details.t :=
  let '(score, details) := acc in
  let put points :=
    ((score + points)%float,
     Details.mk (Details.recentNegatives details)
                (Details.lowResponseRate details)
                (Details.businessSize details)
                (Some (Details.mkDecline trend trendScore points))) in
  if is_str trend "worsening" || is_str trendScore "critical" then
    put weights.ratingDecline
  else if is_str trendScore "high" then
    put (JS.Math_round (weights.ratingDecline * 0.5))
  else acc.

(** [lead.enrichment?.responseRate?.rate || 0] *)
Definition responseRateOf (lead : Lead.t) : float :=
  JS.num_or (ResponseRate.rate <$> (Enrichment.responseRate <$> Lead.enrichment lead)) 0.

(** [lead.enrichment?.reviewTrend?.trend] *)
Definition trendOf (lead : Lead.t) : option string :=
  ReviewTrend.trend <$> (Enrichment.reviewTrend <$> Lead.enrichment lead).

(** [lead.enrichment?.reviewTrend?.trendScore] *)
Definition trendScoreOf (lead : Lead.t) : option string :=
  e ← Lead.enrichment lead; ReviewTrend.trendScore (Enrichment.reviewTrend e).

(** The sum of the four factors, before the cap. *)
Definition rawScore (now : Z) (lead : Lead.t) : float * Details.t :=
  let acc := (0%float, Details.empty) in
  let acc := scoreRecentNegatives (countRecentNegatives now lead) acc in
  let acc := scoreLowResponseRate (responseRateOf lead) acc in
  let acc := scoreBusinessSize (JS.num_or (Lead.totalReviews lead) 0) acc in
  scoreRatingDecline (trendOf lead) (trendScoreOf lead) acc.

(** [calculateLeadScore(lead)], with [now] for [Date.now()]. *)
Definition calculateLeadScore (now : Z) (lead : Lead.t) : Scoring.t :=
  let '(score, details) := rawScore now lead in
  Scoring.mk (JS.Math_min score 100) (* Cap at 100 *)
             details
             (getPriorityLevel score).

(** The callback of [leads.map] in [scoreAllLeads]. *)
Definition scoreLead (now : Z) (lead : Lead.t) : Lead.t :=
  let scoring := calculateLeadScore now lead in
  Lead.with_scoring lead (Scoring.score scoring) (Scoring.details scoring)
                    (Scoring.priority scoring).

(** [lead.score] read as a Number; an absent field makes [NaN]. *)
Definition scoreNum (lead : Lead.t) : float := default nan (Lead.score lead).

(** The comparator [(a, b) => b.score - a.score] is positive when [a] scores
    less than [b]. *)
Definition lowerScore (a b : Lead.t) : bool := JS.gtb (scoreNum b - scoreNum a) 0.

(** The comparator on references into the store. *)
Definition lowerScoreRef (h : Store.t) (ra rb : nat) : bool :=
  match Store.objects h !! ra, Store.objects h !! rb with
  | Some a, Some b => lowerScore a b
  | _, _ => false
  end.

(** [leads.map((lead, idx) => ({ ...lead, ... }))]: one new object for each
    element, from left to right; the new array is allocated by the caller. *)
Fixpoint map_alloc (f : nat -> Lead.t -> Lead.t) (idx : nat) (refs : list nat)
    (h : Store.t) : option (list nat * Store.t) :=
  match refs with
  | [] => Some ([], h)
  | r :: refs' =>
      lead ← Store.objects h !! r;
      let '(r', h') := Store.alloc_object (f idx lead) h in
      '(rs, h'') ← map_alloc f (S idx) refs' h';
      Some (r' :: rs, h'')
  end.

(** [scoreAllLeads(leads)] on the store: [leads] is the reference of the
    input array, the result is the reference of the sorted array.
    [clock idx] is what [Date.now()] returns while the lead at [idx] is
    scored.  [None] only when [leads] or one of its elements is no
    reference of the store. *)
Definition scoreAllLeads (clock : nat -> Z) (leads : nat) (h : Store.t)
  : option (nat * Store.t) :=
  refs ← Store.arrays h !! leads;
  '(scoredRefs, h) ← map_alloc (fun idx lead => scoreLead (clock idx) lead) 0 refs h;
  let '(scored, h) := Store.alloc_array scoredRefs h in
  (* Sort by score (highest first) *)
  let h := Store.write_array scored (js_sort (lowerScoreRef h) scoredRefs) h in
  Some (scored, h).

End LeadScorer.

(** ** [review-scraper.js]: normalisation, selection and deduplication

    The places are what the Apify actors return.  A place has a title, and
    the fields that the template literals print are strings. *)

Module Scraper.
Import JSString.
Local Open Scope string_scope.

(** A review of the Google Maps actor. *)
Module MapsReview.
Record t : Type := mk {
  stars : option float;
  text : option string;
  publishedAtDate : Z;               (* its time value *)
}.
End MapsReview.

(** A place of the Google Maps actor. *)
Module MapsPlace.
Record t : Type := mk {
  placeId : string;
  title : string;
  totalScore : option float;
  reviewsCount : option float;
  categoryName : option string;
  categories : option (list string);
  address : option string;
  phoneUnformatted : option string;
  phone : option string;
  website : option string;
  reviews : option (list MapsReview.t);
  url : string;
}.
End MapsPlace.

(** A review of the TripAdvisor actor. *)
Module TripReview.
Record t : Type := mk {
  rating : option float;
  text : option string;
  title : option string;
  publishedDate : Z;                 (* its time value *)
}.
End TripReview.

(** A place of the TripAdvisor actor. *)
Module TripPlace.
Record t : Type := mk {
  id : option string;
  locationId : string;
  name : option string;
  title : string;
  rating : option float;
  numberOfReviews : option float;
  category : option string;
  address : option string;
  phone : option string;
  website : option string;
  reviews : option (list TripReview.t);
  url : string;
}.
End TripPlace.

(** [a || b] on strings that may be absent. *)
Definition or_else (a b : option string) : option string :=
  if present a then a else b.

(** [this.badReviewThreshold] *)
Definition badReviewThreshold : float := 3.0.

(** [extractEmail(website)] *)
Definition extractEmail (website : option string) : option string :=
  if negb (present website) then None
  else
    let domain :=
      before_slash (LeadEnricher.strip_www
                      (LeadEnricher.strip_scheme (default EmptyString website))) in
    Some ("info@" ++ domain).

Section Normalize.
(** [sentiment.analyze] *)
Variable analyze : string -> Sentiment.t.

(** [normalizeGoogleMapsData(place)]; [stamp] is the string of
    [new Date().toISOString()] at the call. *)
Definition normalizeGoogleMapsData (stamp : string) (place : MapsPlace.t) : Lead.t :=
  let recentReviews := slice_to 10 (default [] (MapsPlace.reviews place)) in
  Lead.mk
    ("gm_" ++ MapsPlace.placeId place)
    "google_maps"
    (MapsPlace.title place)
    (MapsPlace.totalScore place)
    (Some (JS.num_or (MapsPlace.reviewsCount place) 0))
    (default "Business"
       (or_null (or_else (MapsPlace.categoryName place)
                         (MapsPlace.categories place ≫= head))))
    (MapsPlace.address place)
    (or_else (MapsPlace.phoneUnformatted place) (MapsPlace.phone place))
    (MapsPlace.website place)
    (extractEmail (MapsPlace.website place))
    (MapsPlace.url place)
    stamp
    (Some (map (fun r =>
                  Review.mk (MapsReview.stars r) (MapsReview.text r)
                            (MapsReview.publishedAtDate r)
                            (Some (ReviewScraper.analyzeSentiment analyze (MapsReview.text r)))
                            None None)
               recentReviews))
    None None None None.

(** [normalizeTripAdvisorData(place)] *)
Definition normalizeTripAdvisorData (stamp : string) (place : TripPlace.t) : Lead.t :=
  let recentReviews := slice_to 10 (default [] (TripPlace.reviews place)) in
  Lead.mk
    ("ta_" ++ default (TripPlace.locationId place) (or_null (TripPlace.id place)))
    "tripadvisor"
    (default (TripPlace.title place) (or_null (TripPlace.name place)))
    (TripPlace.rating place)
    (Some (JS.num_or (TripPlace.numberOfReviews place) 0))
    (default "Business" (or_null (TripPlace.category place)))
    (TripPlace.address place)
    (TripPlace.phone place)
    (TripPlace.website place)
    (extractEmail (TripPlace.website place))
    (TripPlace.url place)
    stamp
    (Some (map (fun r =>
                  let text := or_else (TripReview.text r) (TripReview.title r) in
                  Review.mk (TripReview.rating r) text
                            (TripReview.publishedDate r)
                            (Some (ReviewScraper.analyzeSentiment analyze text))
                            None None)
               recentReviews))
    None None None None.

(** [place.totalScore && place.totalScore <= this.badReviewThreshold] *)
Definition lowScore (score : option float) : bool :=
  match score with
  | Some x => JS.truthy x && (x <=? badReviewThreshold)%float
  | None => false
  end.

(** What [scrapeGoogleMaps] makes of the items of the data set:
    [items.filter(...).map(place => this.normalizeGoogleMapsData(place))];
    [stamps i] is the time string while the place at [i] is normalized. *)
Definition badReviewMaps (stamps : nat -> string) (items : list MapsPlace.t)
  : list Lead.t :=
  imap (fun i place => normalizeGoogleMapsData (stamps i) place)
       (List.filter (fun place => lowScore (MapsPlace.totalScore place)) items).

(** The same in [scrapeTripAdvisor]. *)
Definition badReviewTrips (stamps : nat -> string) (items : list TripPlace.t)
  : list Lead.t :=
  imap (fun i place => normalizeTripAdvisorData (stamps i) place)
       (List.filter (fun place => lowScore (TripPlace.rating place)) items).

End Normalize.

(** [s.slice(0, n)] on a string. *)
Fixpoint take_chars (n : nat) (s : string) : string :=
  match n, s with
  | S n', String c s' => String c (take_chars n' s')
  | _, _ => EmptyString
  end.

(** The key of [deduplicateLeads]:
    [`${lead.name.toLowerCase()}_${(lead.address || '').slice(0, 20).toLowerCase()}`] *)
Definition dedupKey (lead : Lead.t) : string :=
  toLowerCase (Lead.name lead) ++ "_"
  ++ toLowerCase (take_chars 20 (default EmptyString (Lead.address lead))).

(** The [Map] [seen], from keys to leads. *)
Definition seenMap : Type := list (string * Lead.t).

Fixpoint seen_get (k : string) (m : seenMap) : option Lead.t :=
  match m with
  | [] => None
  | (k', v) :: m' => if (k' =? k)%string then Some v else seen_get k m'
  end.

Fixpoint seen_set (k : string) (v : Lead.t) (m : seenMap) : seenMap :=
  match m with
  | [] => [(k, v)]
  | (k', v') :: m' =>
      if (k' =? k)%string then (k', v) :: m' else (k', v') :: seen_set k v m'
  end.

(** [lead.totalReviews > existing.totalReviews]; false when one is absent. *)
Definition moreReviews (lead existing : Lead.t) : bool :=
  match Lead.totalReviews lead, Lead.totalReviews existing with
  | Some a, Some b => JS.gtb a b
  | _, _ => false
  end.

(** The callback of [leads.filter] in [deduplicateLeads], run from the left
    with the map it updates. *)
Fixpoint dedup_from (seen : seenMap) (leads : list Lead.t) : list Lead.t :=
  match leads with
  | [] => []
  | lead :: rest =>
      let key := dedupKey lead in
      match seen_get key seen with
      | Some existing =>
          (* Keep the one with more reviews *)
          if moreReviews lead existing
          then lead :: dedup_from (seen_set key lead seen) rest
          else dedup_from seen rest
      | None => lead :: dedup_from (seen_set key lead seen) rest
      end
  end.

(** [deduplicateLeads(leads)] *)
Definition deduplicateLeads (leads : list Lead.t) : list Lead.t := dedup_from [] leads.

(** [scrapeAll]: the leads it returns, from the items of the two data sets
    (no items for a source whose call failed). *)
Definition scrapeAll (analyze : string -> Sentiment.t) (mapsStamps tripStamps : nat -> string)
    (mapsItems : list MapsPlace.t) (tripItems : list TripPlace.t) : list Lead.t :=
  let googleMaps := badReviewMaps analyze mapsStamps mapsItems in
  let tripAdvisor := badReviewTrips analyze tripStamps tripItems in
  let allLeads := (googleMaps ++ tripAdvisor)%list in
  deduplicateLeads allLeads.

End Scraper.

(** ** [scorer.js]: what [saveTopLeads] writes *)

Module TopLeads.

(** [const top = leads.slice(0, count)] *)
Definition top (leads : list Lead.t) (count : nat) : list Lead.t := slice_to count leads.

End TopLeads.

(** ** [exporter.js]: the digest

    The dash of the lead lines is kept as the bytes of its UTF-8 form. *)

Module LeadExporter.
Local Open Scope string_scope.

(** [leads.filter(l => l.priority === tier).length] *)
Definition countPriority (tier : string) (leads : list Lead.t) : nat :=
  length (List.filter (fun l => LeadScorer.is_str (Lead.priority l) tier) leads).

(** [String(n)] for a length or an index. *)
Definition String_of_nat (n : nat) : string := NilZero.string_of_uint (Nat.to_uint n).

(** [lines.join(sep)] *)
Fixpoint join (sep : string) (lines : list string) : string :=
  match lines with
  | [] => EmptyString
  | [l] => l
  | l :: rest => l ++ sep ++ join sep rest
  end.

Section Digest.
(** [String(x)] for a score, which may be absent. *)
Variable String_of_score : option float -> string.

(** The array [lines] of [generateDigest]; [topCount] is a count. *)
Definition digestLines (leads : list Lead.t) (topCount : nat) : list string :=
  let critical := countPriority "critical" leads in
  let high := countPriority "high" leads in
  let medium := countPriority "medium" leads in
  let low := countPriority "low" leads in
  let top := slice_to topCount leads in
  [ "LeadMiner Daily Digest";
    "Total leads: " ++ String_of_nat (length leads);
    "Critical: " ++ String_of_nat critical ++ " | High: " ++ String_of_nat high
      ++ " | Medium: " ++ String_of_nat medium ++ " | Low: " ++ String_of_nat low;
    EmptyString;
    "Top " ++ String_of_nat topCount ++ " Leads:" ]
  ++ imap (fun idx lead =>
             String_of_nat (idx + 1) ++ ". " ++ Lead.name lead ++ " — Score "
             ++ String_of_score (Lead.score lead)
             ++ " (" ++ default "undefined" (Lead.priority lead) ++ ")")
          top.

(** [generateDigest(leads, topCount = 5)] *)
Definition generateDigest (leads : list Lead.t) (topCount : nat) : string :=
  join (String "010" EmptyString) (digestLines leads topCount).

End Digest.
End LeadExporter.

(** ** [demo.js]: names and web sites of the demo leads *)

Module Demo.
Import JSString.
Local Open Scope string_scope.

(** [[a-z0-9]] *)
Definition alnum (c : ascii) : bool :=
  (((97 <=? code c) && (code c <=? 122)) || digit c)%nat.

(** [s.replace(/[^a-z0-9]+/g, '-')]: every run of other characters becomes
    one dash; [in_run] says that the run has begun. *)
Fixpoint dash_runs (in_run : bool) (s : string) : string :=
  match s with
  | EmptyString => EmptyString
  | String c s' =>
      if alnum c then String c (dash_runs false s')
      else if in_run then dash_runs true s'
      else String "-" (dash_runs true s')
  end.

(** Without one dash at the end. *)
Fixpoint drop_last_dash (s : string) : string :=
  match s with
  | EmptyString => EmptyString
  | String c EmptyString => if Ascii.eqb c "-" then EmptyString else s
  | String c s' => String c (drop_last_dash s')
  end.

(** [s.replace(/^-|-$/g, '')]: without one dash at the start and, of what
    is left, one dash at the end. *)
Definition trim_dashes (s : string) : string :=
  drop_last_dash (default s (strip_prefix "-" s)).

(** [slugify(text)] *)
Definition slugify (text : string) : string :=
  trim_dashes (dash_runs false (toLowerCase text)).

(** The web site and the email of a demo lead named [name]. *)
Definition website (name : string) : string := "https://" ++ slugify name ++ ".com".
Definition email (name : string) : string := "info@" ++ slugify name ++ ".com".

End Demo.

(** * The vocabulary of the properties *)

(** ** Orderings by an integer key *)

(** A list in descending order of the key. *)
Definition descending {A} (key : A -> Z) : list A -> Prop :=
  StronglySorted (fun a b => (key b <= key a)%Z).

(** The elements with one key, in the order of the list. *)
Definition with_key {A} (key : A -> Z) (k : Z) (l : list A) : list A :=
  List.filter (fun a => (key a =? k)%Z) l.

(** ** The rubric of the scoring stage, in integers

    The points of each factor as the specification words them: the full
    weight, or a percentage of it rounded to the nearest integer. *)

Module Rubric.

(** [p] percent of [w], rounded half up. *)
Definition pct (p w : Z) : Z := (w * p + 50) / 100.

Definition recentNegatives (count : nat) : Z :=
  if (5 <=? count)%nat then 40
  else if (3 <=? count)%nat then pct 60 40
  else if (1 <=? count)%nat then pct 30 40
  else 0.

Definition lowResponseRate (rate : float) : Z :=
  if (rate <? 0.2)%float then 30
  else if (rate <? 0.5)%float then pct 50 30
  else 0.

Definition businessSize (totalReviews : float) : Z :=
  if JS.gtb totalReviews 100 then 20
  else if JS.gtb totalReviews 50 then pct 70 20
  else if JS.gtb totalReviews 20 then pct 40 20
  else 0.

Definition ratingDecline (trend severity : option string) : Z :=
  if LeadScorer.is_str trend "worsening" || LeadScorer.is_str severity "critical" then 10
  else if LeadScorer.is_str severity "high" then pct 50 10
  else 0.

(** The four factors of a lead scored at time [now]. *)
Definition total (now : Z) (lead : Lead.t) : Z :=
  recentNegatives (LeadScorer.countRecentNegatives now lead)
  + lowResponseRate (LeadScorer.responseRateOf lead)
  + businessSize (JS.num_or (Lead.totalReviews lead) 0)
  + ratingDecline (LeadScorer.trendOf lead) (LeadScorer.trendScoreOf lead).

Definition priority (score : Z) : string :=
  if 80 <=? score then "critical"
  else if 60 <=? score then "high"
  else if 40 <=? score then "medium"
  else "low".

(** The points a factor awarded: none when it has no entry in the details. *)
Definition awarded {D} (points : D -> float) (entry : option D) : float :=
  match entry with
  | Some d => points d
  | None => 0
  end.

End Rubric.

(** ** Scores, trends, keywords and contacts *)

Section Vocabulary.
Import JSString LeadEnricher LeadScorer.

(** The integers from [0] to [100]. *)
Definition percent_range : list Z := map Z.of_nat (seq 0 101).

(** Two leads agree on every field but [enrichment]. *)
Definition same_but_enrichment (a b : Lead.t) : Prop :=
  Lead.id a = Lead.id b /\ Lead.source a = Lead.source b /\
  Lead.name a = Lead.name b /\ Lead.rating a = Lead.rating b /\
  Lead.totalReviews a = Lead.totalReviews b /\ Lead.category a = Lead.category b /\
  Lead.address a = Lead.address b /\ Lead.phone a = Lead.phone b /\
  Lead.website a = Lead.website b /\ Lead.email a = Lead.email b /\
  Lead.url a = Lead.url b /\ Lead.scrapedAt a = Lead.scrapedAt b /\
  Lead.reviews a = Lead.reviews b /\ Lead.score a = Lead.score b /\
  Lead.scoringDetails a = Lead.scoringDetails b /\ Lead.priority a = Lead.priority b.

(** The score of a scored lead as an integer. *)
Definition scoreKey (lead : Lead.t) : Z := JS.to_Z (scoreNum lead).

(** A lead that carries a score of the rubric. *)
Definition scored (lead : Lead.t) : Prop :=
  exists z, 0 <= z <= 100 /\ Lead.score lead = Some (JS.num z).

Local Open Scope string_scope.

(** The scoring of a record whose only points are the 30 of the
    low-response-rate factor. *)
Definition scores_30 (s : Scoring.t) : Prop :=
  Details.recentNegatives (Scoring.details s) = None /\
  Details.lowResponseRate (Scoring.details s) = Some (Details.mkLow 0 30) /\
  Details.businessSize (Scoring.details s) = None /\
  Details.ratingDecline (Scoring.details s) = None /\
  Scoring.score s = 30%float /\
  Scoring.priority s = "low".

(** The trend category and the severity tier of a difference of means. *)
Definition trend_of_change (d : float) : string :=
  if (d <? -0.3)%float then "worsening"
  else if (0.3 <? d)%float then "improving" else "stable".

Definition severity_of_change (d : float) : string :=
  if (d <? -0.5)%float then "critical"
  else if (d <? -0.3)%float then "high" else "moderate".

(** The mean of the ratings, an absent rating counting as 0. *)
Definition mean_rating (l : list Review.t) : float :=
  (fold_left (fun acc r => acc + JS.num_or (Review.rating r) 0) l 0 / JS.of_nat (length l))%float.

(** The lower-cased text of a review. *)
Definition lowered (r : Review.t) : string :=
  toLowerCase (default EmptyString (Review.text r)).

(** The lexicon terms that occur in a review, in lexicon order. *)
Definition hits (r : Review.t) : list string :=
  List.filter (includes (lowered r)) keywords.

(** The number of reviews whose text contains [w]. *)
Definition mentions (w : string) (negs : list Review.t) : nat :=
  length (List.filter (fun r => includes (lowered r) w) negs).

(** One more occurrence of [k] in the map. *)
Definition bump (found : wordMap) (k : string) : wordMap :=
  map_set k (default 0%nat (map_get k found) + 1)%nat found.

(** The distinct elements of a list in the order of their first occurrence. *)
Definition first_seen (es : list string) : list string :=
  fold_left (fun acc k => if existsb (String.eqb k) acc then acc else (acc ++ [k])%list)
            es [].

(** The number of occurrences of [k] in a list. *)
Definition occurrences (k : string) (es : list string) : nat :=
  length (List.filter (String.eqb k) es).

(** [([word, count]) => ({ word, count })] *)
Definition entry (p : string * nat) : Keyword.t := Keyword.mk (fst p) (snd p).

(** The count of an entry of the map, as an integer. *)
Definition count_key (p : string * nat) : Z := Z.of_nat (snd p).

(** A list of strings without repetition, as a test. *)
Fixpoint distinct (l : list string) : bool :=
  match l with
  | [] => true
  | x :: l' => negb (existsb (String.eqb x) l') && distinct l'
  end.

(** The ranking as the claim words it: the lexicon terms that occur in a
    negative review, by count descending, equal counts in lexicon order. *)
Definition lexicon_ranking (negs : list Review.t) : list Keyword.t :=
  map entry
      (firstn 5
         (js_sort fewer
            (List.filter (fun p => (0 <? snd p)%nat)
                         (map (fun w => (w, mentions w negs)) keywords)))).

(** The number of characters a pattern needs at least. *)
Fixpoint required (p : list item) : nat :=
  match p with
  | [] => 0
  | Req _ :: p' => S (required p')
  | Opt _ :: p' => required p'
  end.

(** The phone number that the address holds, if any. *)
Definition phone_in_address (lead : Lead.t) : option string :=
  if present (Lead.address lead)
  then match_first phonePattern (default EmptyString (Lead.address lead))
  else None.

(** The domain of a web site: the address without its scheme, without a
    leading [www.], up to the first [/]. *)
Definition domain_of (w : string) : string := before_slash (strip_www (strip_scheme w)).

End Vocabulary.

(** ** Sample records *)

Section Samples.
Import LeadEnricher.
Local Open Scope string_scope.

(** A record with no review and five reviews in total. *)
Definition quiet_lead : Lead.t :=
  Lead.mk "demo_0" "demo" "Quiet Cafe" (Some 4.5%float) (Some 5%float) "Cafe"
          (Some "1 Main St") None None None "https://quiet.example" "2026-02-14"
          (Some []) None None None None.

(** The same record with no [reviews] field. *)
Definition bare_lead : Lead.t :=
  Lead.mk "demo_0" "demo" "Quiet Cafe" (Some 4.5%float) (Some 5%float) "Cafe"
          (Some "1 Main St") None None None "https://quiet.example" "2026-02-14"
          None None None None None.

(** A five-star review with no text, stored with a negative label. *)
Definition stale_review : Review.t :=
  Review.mk (Some 5%float) (Some EmptyString) 1770000000000
            (Some (Sentiment.mk (-3) (Some (-0.6)%float) "negative" None None))
            None None.

(** A review with the given stars and date. *)
Definition review_at (stars : float) (date : Z) : Review.t :=
  Review.mk (Some stars) (Some "Okay overall but nothing special.") date None None None.

(** Five reviews, none rated 2 or less: the two newest have three stars, the
    three older ones five. *)
Definition slipping_lead : Lead.t :=
  Lead.mk "demo_7" "demo" "Harbor Grill" (Some 4.2%float) (Some 5%float) "Restaurant"
          (Some "7 Pine St") None None None "https://harbor.example" "2026-02-14"
          (Some [ review_at 3 1770500000000; review_at 3 1770400000000;
                  review_at 5 1770300000000; review_at 5 1770200000000;
                  review_at 5 1770100000000 ])
          None None None None.

(** Reviews with the given stars, newest first, one a day. *)
Definition dated (stars : list float) : list Review.t :=
  imap (fun i s => Review.mk (Some s) (Some "Average visit.")
                             (1770600000000 - 86400000 * Z.of_nat i) None None None)
       stars.

(** Fifteen reviews, newest first: the seven newer ones sum to 11 stars,
    the eight older ones to 15. *)
Definition fifteen_reviews : list Review.t :=
  dated [1; 1; 1; 2; 2; 2; 2;  1; 2; 2; 2; 2; 2; 2; 2]%float.

(** Eleven reviews, newest first: the five newer ones average 1.2 stars,
    the six older ones 1.5. *)
Definition eleven_reviews : list Review.t :=
  dated [1; 1; 1; 1; 2;  1; 1; 1; 2; 2; 2]%float.

(** A review with the given stars and text. *)
Definition complaint (stars : float) (text : string) : Review.t :=
  Review.mk (Some stars) (Some text) 1770000000000 None None None.

(** A record whose only contact detail is a phone number in its address. *)
Definition walk_in_lead : Lead.t :=
  Lead.mk "gm_17" "google_maps" "Corner Bakery" (Some 2.4%float) (Some 31%float) "Bakery"
          (Some "12 Main St, Austin, TX - call 512-555-1234")
          None None None "https://maps.example/17" "2026-02-14"
          (Some []) None None None None.

(** A record whose website has no domain. *)
Definition no_domain_lead : Lead.t :=
  Lead.mk "gm_18" "google_maps" "Pine Market" (Some 2.9%float) (Some 12%float) "Market"
          None None (Some "https://") None "https://maps.example/18" "2026-02-14"
          (Some []) None None None None.

(** A record with five recent one-star reviews and 250 reviews in total. *)
Definition busy_lead : Lead.t :=
  Lead.mk "demo_9" "demo" "Urban Salon" (Some 1.5%float) (Some 250%float) "Salon"
          (Some "393 Oak St") None None None "https://urban.example" "2026-02-14"
          (Some [ review_at 1 1770500000000; review_at 1 1770400000000;
                  review_at 1 1770300000000; review_at 1 1770200000000;
                  review_at 1 1770100000000; review_at 4 1770000000000 ])
          None None None None.

(** Three leads in a store, and the array that holds them. *)
Definition three_leads : Store.t :=
  Store.mk [quiet_lead; busy_lead; slipping_lead] [[0; 1; 2]%nat].

End Samples.

(** ** Scored copies *)

Section ScoringVocabulary.
Import LeadScorer.

(** Two leads agree on every field but [score], [scoringDetails] and
    [priority]. *)
Definition same_but_scoring (a b : Lead.t) : Prop :=
  Lead.id a = Lead.id b /\ Lead.source a = Lead.source b /\
  Lead.name a = Lead.name b /\ Lead.rating a = Lead.rating b /\
  Lead.totalReviews a = Lead.totalReviews b /\ Lead.category a = Lead.category b /\
  Lead.address a = Lead.address b /\ Lead.phone a = Lead.phone b /\
  Lead.website a = Lead.website b /\ Lead.email a = Lead.email b /\
  Lead.url a = Lead.url b /\ Lead.scrapedAt a = Lead.scrapedAt b /\
  Lead.reviews a = Lead.reviews b /\ Lead.enrichment a = Lead.enrichment b.

(** The details record, factor by factor, the points that the rubric
    awards the lead at [now]. *)
Definition rubric_points (now : Z) (lead : Lead.t) (d : Details.t) : Prop :=
  Rubric.awarded Details.recent_points (Details.recentNegatives d)
    = JS.num (Rubric.recentNegatives (countRecentNegatives now lead)) /\
  Rubric.awarded Details.low_points (Details.lowResponseRate d)
    = JS.num (Rubric.lowResponseRate (responseRateOf lead)) /\
  Rubric.awarded Details.size_points (Details.businessSize d)
    = JS.num (Rubric.businessSize (JS.num_or (Lead.totalReviews lead) 0)) /\
  Rubric.awarded Details.decline_points (Details.ratingDecline d)
    = JS.num (Rubric.ratingDecline (trendOf lead) (trendScoreOf lead)).

End ScoringVocabulary.

(** ** The order of Numbers

    A Number that is not [NaN] has a key: its class (from negative
    infinity to positive infinity), and for a finite non-zero Number its
    exponent and mantissa, negated when the Number is negative.  The
    comparisons of Numbers are the lexicographic comparisons of the keys. *)

Section NumberKeys.

Definition SFkey (f : spec_float) : option (Z * Z * Z) :=
  match f with
  | S754_nan => None
  | S754_infinity true => Some (0, 0, 0)
  | S754_finite true m e => Some (1, - e, - Z.pos m)
  | S754_zero _ => Some (2, 0, 0)
  | S754_finite false m e => Some (3, e, Z.pos m)
  | S754_infinity false => Some (4, 0, 0)
  end.

Definition key_lt (a b : Z * Z * Z) : Prop :=
  fst (fst a) < fst (fst b) \/
  (fst (fst a) = fst (fst b) /\
   (snd (fst a) < snd (fst b) \/ (snd (fst a) = snd (fst b) /\ snd a < snd b))).

Definition keys_lt (a b : option (Z * Z * Z)) : Prop :=
  match a, b with
  | Some ka, Some kb => key_lt ka kb
  | _, _ => False
  end.

Definition keys_le (a b : option (Z * Z * Z)) : Prop :=
  match a, b with
  | Some ka, Some kb => key_lt ka kb \/ ka = kb
  | _, _ => False
  end.

(** The key of a Number. *)
Definition num_key (x : float) : option (Z * Z * Z) := SFkey (Prim2SF x).

End NumberKeys.

(** ** Leads as the scraper leaves them *)

Section ScrapedVocabulary.
Import JSString Scraper.
Local Open Scope string_scope.

(** A review as [normalizeGoogleMapsData] and [normalizeTripAdvisorData]
    build it: the label is that of its own text, and there is no field for
    a response of the owner. *)
Definition as_normalized (analyze : string -> Sentiment.t) (r : Review.t) : Prop :=
  Review.sentiment r = Some (ReviewScraper.analyzeSentiment analyze (Review.text r)) /\
  Review.ownerResponse r = None /\ Review.response r = None.

(** A lead as the two normalisations build it. *)
Definition as_scraped (analyze : string -> Sentiment.t) (lead : Lead.t) : Prop :=
  (exists reviews,
     Lead.reviews lead = Some reviews /\ (length reviews <= 10)%nat /\
     Forall (as_normalized analyze) reviews) /\
  (exists t, Lead.totalReviews lead = Some t /\ is_nan t = false) /\
  Lead.email lead = extractEmail (Lead.website lead) /\
  Lead.enrichment lead = None /\ Lead.score lead = None /\
  Lead.scoringDetails lead = None /\ Lead.priority lead = None.

End ScrapedVocabulary.

Section ScrapedSamples.
Import Scraper.
Local Open Scope string_scope.

(** An analysis that finds every text slightly negative. *)
Definition sour (text : string) : Sentiment.t :=
  Sentiment.mk (-1) (Some (-0.25)%float) "negative" (Some []) (Some ["bad"]).

(** A place of the Google Maps data set, rated 2.5, with two reviews. *)
Definition diner_place : MapsPlace.t :=
  MapsPlace.mk "ChIJ01" "Corner Diner" (Some 2.5%float) (Some 120%float)
    (Some "Diner") None (Some "12 Main St, Austin, TX") None (Some "(512) 555-0100")
    (Some "https://www.cornerdiner.example/menu")
    (Some [ MapsReview.mk (Some 1%float) (Some "Bad and slow.") 1770500000000;
            MapsReview.mk (Some 4%float) None 1770400000000 ])
    "https://maps.example/ChIJ01".

(** A well rated place of the same data set. *)
Definition bistro_place : MapsPlace.t :=
  MapsPlace.mk "ChIJ02" "Maple Bistro" (Some 4.5%float) (Some 80%float)
    None (Some ["Bistro"]) None None None None None "https://maps.example/ChIJ02".

(** A place of the TripAdvisor data set, rated 3, without reviews. *)
Definition inn_place : TripPlace.t :=
  TripPlace.mk None "60763" (Some "Harbor Inn") "Harbor Inn Hotel" (Some 3%float) None
    (Some "Hotel") None None None None "https://trip.example/60763".

End ScrapedSamples.

(** ** Slugs *)

Section SlugVocabulary.
Import JSString Demo.
Local Open Scope string_scope.

(** Letters [a]-[z], digits and dashes, no dash after a dash, and no dash
    in front when [prev] is set. *)
Fixpoint dashed (prev : bool) (s : string) : bool :=
  match s with
  | EmptyString => true
  | String c s' =>
      if alnum c then dashed false s'
      else Ascii.eqb c "-" && negb prev && dashed true s'
  end.

(** The same, and no dash at the end; not the empty string when [prev] is
    set. *)
Fixpoint well_dashed (prev : bool) (s : string) : bool :=
  match s with
  | EmptyString => negb prev
  | String c s' =>
      if alnum c then well_dashed false s'
      else Ascii.eqb c "-" && negb prev && well_dashed true s'
  end.

(** A slug: empty, or words of letters [a]-[z] and digits with single
    dashes between them. *)
Definition is_slug (s : string) : bool := (s =? EmptyString) || well_dashed true s.

End SlugVocabulary.

(** * Properties *)

(** ** The stable sort *)

Section SortFacts.
Context {A : Type} (after : A -> A -> bool).

Lemma sort_insert_perm x (l : list A) : Permutation (sort_insert after x l) (x :: l).
Proof.
  induction l as [|y l IH]; simpl; [reflexivity|].
  destruct (after x y); [|reflexivity].
  rewrite IH. apply perm_swap.
Qed.

Lemma js_sort_perm (l : list A) : Permutation (js_sort after l) l.
Proof.
  induction l as [|x l IH]; simpl; [reflexivity|].
  rewrite sort_insert_perm. now constructor.
Qed.

Lemma js_sort_length (l : list A) : length (js_sort after l) = length l.
Proof. apply Permutation_length, js_sort_perm. Qed.

Lemma js_sort_In x (l : list A) : In x (js_sort after l) <-> In x l.
Proof.
  split; apply Permutation_in; [|symmetry]; apply js_sort_perm.
Qed.

Lemma js_sort_Forall (Q : A -> Prop) (l : list A) :
  Forall Q l -> Forall Q (js_sort after l).
Proof.
  rewrite !List.Forall_forall. intros H x Hx. apply H, js_sort_In, Hx.
Qed.

(** The comparator orders the elements that satisfy [P] by an integer key. *)
Variables (P : A -> Prop) (key : A -> Z).
Hypothesis after_key : forall a b, P a -> P b -> after a b = (key a <? key b)%Z.

Lemma sort_insert_sorted x (l : list A) :
  P x -> Forall P l -> descending key l -> descending key (sort_insert after x l).
Proof.
  intros Px Pl Hs. induction Hs as [|y l Hs IH Hy]; simpl.
  - repeat constructor.
  - inversion Pl as [|? ? Py Pl']; subst.
    rewrite (after_key x y Px Py).
    destruct (Z.ltb_spec (key x) (key y)) as [Hlt|Hge].
    + constructor; [now apply IH|].
      rewrite List.Forall_forall. intros z Hz.
      apply (Permutation_in _ (sort_insert_perm x l)) in Hz.
      destruct Hz as [<-|Hz]; [lia|].
      rewrite List.Forall_forall in Hy. now apply Hy.
    + constructor; [now constructor|].
      constructor; [exact Hge|].
      rewrite List.Forall_forall in Hy |- *. intros z Hz.
      specialize (Hy z Hz). lia.
Qed.

Lemma js_sort_sorted (l : list A) : Forall P l -> descending key (js_sort after l).
Proof.
  induction 1 as [|x l Px Pl IH]; simpl; [constructor|].
  apply sort_insert_sorted; auto using js_sort_Forall.
Qed.

Lemma sort_insert_stable k x (l : list A) :
  P x -> Forall P l ->
  with_key key k (sort_insert after x l) = with_key key k (x :: l).
Proof.
  intros Px Pl. induction Pl as [|y l Py Pl IH]; [reflexivity|].
  simpl. rewrite (after_key x y Px Py).
  destruct (Z.ltb_spec (key x) (key y)) as [Hlt|Hge]; [|reflexivity].
  unfold with_key in *. simpl in *. rewrite IH.
  destruct (Z.eqb_spec (key x) k), (Z.eqb_spec (key y) k); try reflexivity; lia.
Qed.

Lemma js_sort_stable k (l : list A) :
  Forall P l -> with_key key k (js_sort after l) = with_key key k l.
Proof.
  induction 1 as [|x l Px Pl IH]; [reflexivity|].
  simpl js_sort. rewrite sort_insert_stable; auto using js_sort_Forall.
  unfold with_key in *. simpl. now rewrite IH.
Qed.

End SortFacts.

(** A list in descending order is determined by its elements key by key:
    two stable sorts of one list give the same result. *)
Section StableUnique.
Context {A : Type} (key : A -> Z).

Lemma with_key_In k x (l : list A) : In x (with_key key k l) <-> In x l /\ key x = k.
Proof. unfold with_key. rewrite filter_In, Z.eqb_eq. reflexivity. Qed.

Lemma descending_head x (l : list A) y :
  descending key (x :: l) -> In y (x :: l) -> key y <= key x.
Proof.
  intros Hs Hy. inversion Hs as [|? ? _ Hall]; subst.
  destruct Hy as [<-|Hy]; [lia|].
  rewrite List.Forall_forall in Hall. now apply Hall.
Qed.

Lemma stable_sort_unique (l1 l2 : list A) :
  descending key l1 -> descending key l2 ->
  (forall k, with_key key k l1 = with_key key k l2) ->
  l1 = l2.
Proof.
  revert l2. induction l1 as [|x t1 IH]; intros l2 H1 H2 Hk.
  - destruct l2 as [|y t2]; [reflexivity|].
    specialize (Hk (key y)). unfold with_key in Hk. simpl in Hk.
    rewrite Z.eqb_refl in Hk. discriminate.
  - destruct l2 as [|y t2].
    { specialize (Hk (key x)). unfold with_key in Hk. simpl in Hk.
      rewrite Z.eqb_refl in Hk. discriminate. }
    assert (Hx : In x (y :: t2)).
    { apply (with_key_In (key x)). rewrite <- Hk. apply with_key_In. split; [now left|easy]. }
    assert (Hy : In y (x :: t1)).
    { apply (with_key_In (key y)). rewrite Hk. apply with_key_In. split; [now left|easy]. }
    pose proof (descending_head _ _ _ H2 Hx) as Hle1.
    pose proof (descending_head _ _ _ H1 Hy) as Hle2.
    assert (Heq : key y = key x) by lia.
    pose proof (Hk (key x)) as Hkx. unfold with_key in Hkx. simpl in Hkx.
    rewrite Heq, Z.eqb_refl in Hkx. injection Hkx as -> Htail.
    f_equal. apply IH.
    + now inversion H1.
    + now inversion H2.
    + intros k. specialize (Hk k). unfold with_key in *. simpl in Hk.
      destruct (key y =? k); [now injection Hk|exact Hk].
Qed.

End StableUnique.

(** ** Scores are small integers *)

Section Range.

Lemma in_percent_range z : 0 <= z <= 100 -> In z percent_range.
Proof.
  intros Hz. unfold percent_range. apply in_map_iff.
  exists (Z.to_nat z). split; [lia|]. apply in_seq. lia.
Qed.

Lemma forall_percent (ok : Z -> bool) :
  forallb ok percent_range = true -> forall z, 0 <= z <= 100 -> ok z = true.
Proof.
  intros H z Hz. rewrite forallb_forall in H. apply H, in_percent_range, Hz.
Qed.

Lemma to_Z_num z : 0 <= z <= 100 -> JS.to_Z (JS.num z) = z.
Proof.
  intros Hz. apply Z.eqb_eq.
  apply (forall_percent (fun z => JS.to_Z (JS.num z) =? z)); [|exact Hz].
  vm_compute. reflexivity.
Qed.

Lemma float_eq_percent (f g : Z -> float) :
  forallb (fun z => PrimFloat.Leibniz.eqb (f z) (g z)) percent_range = true ->
  forall z, 0 <= z <= 100 -> f z = g z.
Proof.
  intros H z Hz. apply FloatAxioms.Leibniz.eqb_spec.
  apply (forall_percent (fun z => PrimFloat.Leibniz.eqb (f z) (g z))); assumption.
Qed.

Lemma Math_min_num z : 0 <= z <= 100 -> JS.Math_min (JS.num z) 100 = JS.num z.
Proof.
  apply (float_eq_percent (fun z => JS.Math_min (JS.num z) 100) JS.num).
  vm_compute. reflexivity.
Qed.

Lemma getPriorityLevel_num z :
  0 <= z <= 100 -> LeadScorer.getPriorityLevel (JS.num z) = Rubric.priority z.
Proof.
  intros Hz. apply String.eqb_eq.
  apply (forall_percent
           (fun z => (LeadScorer.getPriorityLevel (JS.num z) =? Rubric.priority z)%string));
    [|exact Hz].
  vm_compute. reflexivity.
Qed.

(** On scores, the comparator of [scoreAllLeads] is the order of integers. *)
Lemma lowerScore_num za zb :
  0 <= za <= 100 -> 0 <= zb <= 100 ->
  JS.gtb (JS.num zb - JS.num za) 0 = (za <? zb).
Proof.
  intros Ha Hb. apply eqb_prop.
  apply (forall_percent
           (fun zb => forallb (fun za => eqb (JS.gtb (JS.num zb - JS.num za) 0) (za <? zb))
                              percent_range) ) in Hb.
  - rewrite forallb_forall in Hb. apply Hb, in_percent_range, Ha.
  - vm_compute. reflexivity.
Qed.

End Range.

(** ** Rounding *)

Section Rounding.

(** [round_half_up k m e] is the integer nearest to [k * m * 2^e], the
    larger one of two that are equally near. *)
Lemma round_half_up_nearest k m e :
  e < 0 ->
  let n := JS.round_half_up k m e in
  let d := 2 ^ (- e) in
  2 * d * n - d <= 2 * k * m < 2 * d * n + d.
Proof.
  intros He n d. subst n. unfold JS.round_half_up.
  destruct (Z.leb_spec 0 e) as [Hge|_]; [lia|].
  replace (2 ^ (1 - e)) with (2 * d) by (subst d; rewrite <- Z.pow_succ_r by lia; f_equal; lia).
  assert (Hd : 0 < d) by (subst d; apply Z.pow_pos_nonneg; lia).
  fold d.
  pose proof (Z.div_mod (2 * k * m + d) (2 * d) ltac:(lia)) as Hdm.
  pose proof (Z.mod_pos_bound (2 * k * m + d) (2 * d) ltac:(lia)) as Hmod.
  lia.
Qed.

(** The partial points of the rubric: each product is an integer already. *)
Lemma partial_points :
  JS.Math_round (LeadScorer.weights.recentNegatives * 0.6) = 24%float /\
  JS.Math_round (LeadScorer.weights.recentNegatives * 0.3) = 12%float /\
  JS.Math_round (LeadScorer.weights.lowResponseRate * 0.5) = 15%float /\
  JS.Math_round (LeadScorer.weights.businessSize * 0.7) = 14%float /\
  JS.Math_round (LeadScorer.weights.businessSize * 0.4) = 8%float /\
  JS.Math_round (LeadScorer.weights.ratingDecline * 0.5) = 5%float.
Proof. vm_compute. repeat split; reflexivity. Qed.

End Rounding.

(** ** [calculateLeadScore] against the rubric *)

(** Case analysis on the tests of the four factors, then evaluation. *)
Ltac rubric_cases :=
  unfold LeadScorer.rawScore, Rubric.total,
    LeadScorer.scoreRecentNegatives, LeadScorer.scoreLowResponseRate,
    LeadScorer.scoreBusinessSize, LeadScorer.scoreRatingDecline,
    Rubric.recentNegatives, Rubric.lowResponseRate, Rubric.businessSize,
    Rubric.ratingDecline;
  repeat match goal with
         | |- context [if ?c then _ else _] =>
             lazymatch c with
             | context [if _ then _ else _] => fail
             | _ => destruct c
             end
         end.

Section ScoreFacts.
Import LeadScorer.

Lemma rubric_recentNegatives_bounds n :
  Rubric.recentNegatives n = 0 \/ Rubric.recentNegatives n = 12 \/
  Rubric.recentNegatives n = 24 \/ Rubric.recentNegatives n = 40.
Proof.
  unfold Rubric.recentNegatives.
  destruct (5 <=? n)%nat; [auto|].
  destruct (3 <=? n)%nat; [auto|].
  destruct (1 <=? n)%nat; auto.
Qed.

Lemma rubric_lowResponseRate_bounds r :
  Rubric.lowResponseRate r = 0 \/ Rubric.lowResponseRate r = 15 \/
  Rubric.lowResponseRate r = 30.
Proof.
  unfold Rubric.lowResponseRate.
  destruct (r <? 0.2)%float; [auto|].
  destruct (r <? 0.5)%float; auto.
Qed.

Lemma rubric_businessSize_bounds c :
  Rubric.businessSize c = 0 \/ Rubric.businessSize c = 8 \/
  Rubric.businessSize c = 14 \/ Rubric.businessSize c = 20.
Proof.
  unfold Rubric.businessSize.
  destruct (JS.gtb c 100); [auto|].
  destruct (JS.gtb c 50); [auto|].
  destruct (JS.gtb c 20); auto.
Qed.

Lemma rubric_ratingDecline_bounds t s :
  Rubric.ratingDecline t s = 0 \/ Rubric.ratingDecline t s = 5 \/
  Rubric.ratingDecline t s = 10.
Proof.
  unfold Rubric.ratingDecline.
  destruct (is_str t "worsening" || is_str s "critical"); [auto|].
  destruct (is_str s "high"); auto.
Qed.

Lemma rubric_total_bounds now lead : 0 <= Rubric.total now lead <= 100.
Proof.
  unfold Rubric.total.
  pose proof (rubric_recentNegatives_bounds (countRecentNegatives now lead)).
  pose proof (rubric_lowResponseRate_bounds (responseRateOf lead)).
  pose proof (rubric_businessSize_bounds (JS.num_or (Lead.totalReviews lead) 0)).
  pose proof (rubric_ratingDecline_bounds (trendOf lead) (trendScoreOf lead)).
  lia.
Qed.

(** The sum of the points is the sum of the rubric. *)
Lemma rawScore_rubric now lead :
  fst (rawScore now lead) = JS.num (Rubric.total now lead).
Proof.
  cbv beta zeta delta [rawScore Rubric.total].
  generalize (countRecentNegatives now lead) (responseRateOf lead)
             (JS.num_or (Lead.totalReviews lead) 0) (trendOf lead) (trendScoreOf lead).
  intros n r c t s.
  rubric_cases; vm_compute; reflexivity.
Qed.

(** The points recorded for each factor are those of the rubric. *)
Lemma rawScore_details now lead :
  let d := snd (rawScore now lead) in
  Rubric.awarded Details.recent_points (Details.recentNegatives d)
    = JS.num (Rubric.recentNegatives (countRecentNegatives now lead)) /\
  Rubric.awarded Details.low_points (Details.lowResponseRate d)
    = JS.num (Rubric.lowResponseRate (responseRateOf lead)) /\
  Rubric.awarded Details.size_points (Details.businessSize d)
    = JS.num (Rubric.businessSize (JS.num_or (Lead.totalReviews lead) 0)) /\
  Rubric.awarded Details.decline_points (Details.ratingDecline d)
    = JS.num (Rubric.ratingDecline (trendOf lead) (trendScoreOf lead)).
Proof.
  cbv beta zeta delta [rawScore].
  generalize (countRecentNegatives now lead) (responseRateOf lead)
             (JS.num_or (Lead.totalReviews lead) 0) (trendOf lead) (trendScoreOf lead).
  intros n r c t s.
  rubric_cases; vm_compute; repeat split; reflexivity.
Qed.

Lemma calculateLeadScore_unfold now lead :
  calculateLeadScore now lead =
  Scoring.mk (JS.Math_min (fst (rawScore now lead)) 100)
             (snd (rawScore now lead))
             (getPriorityLevel (fst (rawScore now lead))).
Proof. unfold calculateLeadScore. now destruct (rawScore now lead). Qed.

(** The score is the rubric's total: the cap changes nothing. *)
Lemma calculateLeadScore_score now lead :
  Scoring.score (calculateLeadScore now lead) = JS.num (Rubric.total now lead).
Proof.
  rewrite calculateLeadScore_unfold. simpl.
  rewrite rawScore_rubric. apply Math_min_num, rubric_total_bounds.
Qed.

Lemma calculateLeadScore_priority now lead :
  Scoring.priority (calculateLeadScore now lead) = Rubric.priority (Rubric.total now lead).
Proof.
  rewrite calculateLeadScore_unfold. simpl.
  rewrite rawScore_rubric. apply getPriorityLevel_num, rubric_total_bounds.
Qed.


End ScoreFacts.

(** ** The score and the priority tier (C6) *)

Section Score.
Import LeadScorer.
Local Open Scope string_scope.

Lemma rubric_priority_tiers z :
  (Rubric.priority z = "critical" <-> 80 <= z)%Z /\
  (Rubric.priority z = "high" <-> 60 <= z < 80)%Z /\
  (Rubric.priority z = "medium" <-> 40 <= z < 60)%Z /\
  (Rubric.priority z = "low" <-> z < 40)%Z.
Proof.
  unfold Rubric.priority.
  destruct (Z.leb_spec 80 z); [|destruct (Z.leb_spec 60 z); [|destruct (Z.leb_spec 40 z)]];
    repeat split; intros; try lia; try discriminate; reflexivity.
Qed.

(** C6: for every lead and every scoring time, the score is the Number of an
    integer between 0 and 100, namely the sum of the four factors of the
    rubric, which are at most 40, 30, 20 and 10; the cap at 100 never changes
    the sum; and the priority is the tier of the returned score: critical
    from 80, high from 60 to 79, medium from 40 to 59, low below 40. *)
Theorem score_is_integer_in_range_with_tier (now : Z) (lead : Lead.t) :
  let s := calculateLeadScore now lead in
  let z := Rubric.total now lead in
  Scoring.score s = JS.num z /\
  (0 <= z <= 100)%Z /\
  (0 <= Rubric.recentNegatives (countRecentNegatives now lead) <= 40)%Z /\
  (0 <= Rubric.lowResponseRate (responseRateOf lead) <= 30)%Z /\
  (0 <= Rubric.businessSize (JS.num_or (Lead.totalReviews lead) 0) <= 20)%Z /\
  (0 <= Rubric.ratingDecline (trendOf lead) (trendScoreOf lead) <= 10)%Z /\
  Scoring.score s = fst (rawScore now lead) /\
  Scoring.priority s = getPriorityLevel (Scoring.score s) /\
  (Scoring.priority s = "critical" <-> 80 <= z)%Z /\
  (Scoring.priority s = "high" <-> 60 <= z < 80)%Z /\
  (Scoring.priority s = "medium" <-> 40 <= z < 60)%Z /\
  (Scoring.priority s = "low" <-> z < 40)%Z.
Proof.
  intros s z. subst s z.
  pose proof (rubric_recentNegatives_bounds (countRecentNegatives now lead)).
  pose proof (rubric_lowResponseRate_bounds (responseRateOf lead)).
  pose proof (rubric_businessSize_bounds (JS.num_or (Lead.totalReviews lead) 0)).
  pose proof (rubric_ratingDecline_bounds (trendOf lead) (trendScoreOf lead)).
  pose proof (rubric_total_bounds now lead) as Hz.
  rewrite calculateLeadScore_priority, calculateLeadScore_score.
  split; [reflexivity|].
  do 5 (split; [lia|]).
  split; [symmetry; apply rawScore_rubric|].
  split; [symmetry; now apply getPriorityLevel_num|].
  apply rubric_priority_tiers.
Qed.

End Score.

(** ** A record without reviews (C2, C3) *)

Section NoReviews.
Import LeadEnricher LeadScorer.
Local Open Scope string_scope.

(** The enrichment blocks of a record with an empty review list. *)
Lemma enrichLead_no_reviews now lead :
  Lead.reviews lead = Some [] ->
  enrichLead now lead =
  Ok (Lead.with_enrichment lead
        (Enrichment.mk (enrichContactInfo lead)
           (ReviewTrend.mk "insufficient_data" 0 None None None)
           (estimateBusinessSize lead)
           (ResponseRate.mk 0 0 0 "0%" None)
           [] None)).
Proof.
  intros H. unfold enrichLead, calculateReviewTrend, calculateResponseRate,
    extractNegativeKeywords, getLastNegativeReviewDate.
  rewrite H. reflexivity.
Qed.

(** C2, as the code has it: for every record with an empty review list and
    [totalReviews = 5], enriched at any time and scored at any time (or
    scored without enrichment), the recent-negatives, business-size and
    rating-decline factors award nothing, the low-response-rate factor
    awards its full 30 points (the rate of a record without reviews is 0,
    which is below 0.2), the score is 30 and the priority is low. *)
Theorem no_reviews_scores_30 (now now' : Z) (lead : Lead.t) :
  Lead.reviews lead = Some [] ->
  Lead.totalReviews lead = Some 5%float ->
  (exists enriched,
     enrichLead now lead = Ok enriched /\
     scores_30 (calculateLeadScore now' enriched)) /\
  (Lead.enrichment lead = None -> scores_30 (calculateLeadScore now' lead)).
Proof.
  intros Hr Ht. split.
  - eexists. split; [now apply enrichLead_no_reviews|].
    destruct lead; simpl in Hr, Ht; subst.
    vm_compute. repeat split; reflexivity.
  - intros He. destruct lead; simpl in Hr, Ht, He; subst.
    vm_compute. repeat split; reflexivity.
Qed.

Lemma no_reviews_scores_30_witness :
  exists enriched,
    enrichLead 0 quiet_lead = Ok enriched /\
    Scoring.score (calculateLeadScore 0 enriched) = 30%float.
Proof.
  destruct (no_reviews_scores_30 0 0 quiet_lead eq_refl eq_refl)
    as [(e & He & Hs) _].
  exists e. split; [exact He|]. apply Hs.
Defined.

(** C2 as stated fails: the record [quiet_lead] has no review and
    [totalReviews = 5], and the low-response-rate factor awards 30 points, so
    the score is 30 and not 0. *)
Lemma no_reviews_score_is_not_zero :
  exists enriched,
    enrichLead 0 quiet_lead = Ok enriched /\
    Rubric.awarded Details.low_points
      (Details.lowResponseRate (Scoring.details (calculateLeadScore 0 enriched)))
      = 30%float /\
    Scoring.score (calculateLeadScore 0 enriched) = 30%float /\
    (Scoring.score (calculateLeadScore 0 enriched) =? 0)%float = false.
Proof.
  eexists. split; [reflexivity|]. vm_compute. repeat split; reflexivity.
Qed.

(** C3: with an empty review list every extractor returns; with no review
    list, the review trend, the business size and the response rate return
    their no-data results, while negative-keyword extraction and
    last-negative-review recency throw, and so does [enrichLeads]. *)
Theorem extractors_on_empty_and_absent_reviews :
  (calculateReviewTrend (Some []) = ReviewTrend.mk "insufficient_data" 0 None None None /\
   calculateResponseRate (Some []) = ResponseRate.mk 0 0 0 "0%" None /\
   BusinessSize.size (estimateBusinessSize quiet_lead) = "very_small" /\
   extractNegativeKeywords (Some []) = Ok [] /\
   getLastNegativeReviewDate 0 (Some []) = Ok None) /\
  (calculateReviewTrend None = ReviewTrend.mk "insufficient_data" 0 None None None /\
   calculateResponseRate None = ResponseRate.mk 0 0 0 "0%" None /\
   BusinessSize.size (estimateBusinessSize bare_lead) = "very_small" /\
   extractNegativeKeywords None = Throw TypeError /\
   getLastNegativeReviewDate 0 None = Throw TypeError /\
   enrichLeads (fun _ => 0) [bare_lead] = Throw TypeError).
Proof. vm_compute. repeat split; reflexivity. Qed.

End NoReviews.

(** ** Which reviews count as negative (C1) *)

Section NegativeReviews.
Import LeadEnricher.
Local Open Scope string_scope.

(** C1 as stated fails: [stale_review] is rated above 2 and the label that the
    adapter computes from its text is neutral, whatever the lexicon, yet
    negative-keyword extraction takes it as negative, from the label stored
    on it. *)
Lemma stored_label_is_trusted :
  In stale_review (negativeReviews [stale_review]) /\
  lowRating stale_review = false /\
  forall analyze,
    Sentiment.sentiment
      (ReviewScraper.analyzeSentiment analyze (Review.text stale_review)) = "neutral".
Proof. split; [left; reflexivity|]. split; reflexivity. Qed.

(** The text of a review plays no part in the classification. *)
Lemma isNegativeReview_ignores_text r t :
  isNegativeReview
    (Review.mk (Review.rating r) t (Review.date r) (Review.sentiment r)
               (Review.ownerResponse r) (Review.response r))
  = isNegativeReview r.
Proof. reflexivity. Qed.

(** C1, as the code has it: for every review list, a review is taken as
    negative exactly when it is in the list and its rating is at most 2 or
    the label stored in its [sentiment] field is [negative]; a review with no
    stored sentiment is classified by its rating alone, and nothing is
    computed from the text. *)
Theorem negative_review_by_rating_or_stored_label (reviews : list Review.t) (r : Review.t) :
  (In r (negativeReviews reviews) <->
   In r reviews /\
   ((exists x, Review.rating r = Some x /\ (x <=? 2)%float = true) \/
    (exists s, Review.sentiment r = Some s /\ Sentiment.sentiment s = "negative"))) /\
  (forall t,
     isNegativeReview
       (Review.mk (Review.rating r) t (Review.date r) (Review.sentiment r)
                  (Review.ownerResponse r) (Review.response r))
     = isNegativeReview r).
Proof.
  split; [|intros t; apply isNegativeReview_ignores_text].
  unfold negativeReviews. rewrite filter_In.
  unfold isNegativeReview, lowRating, storedNegative.
  split; intros [Hin H]; (split; [exact Hin|]).
  - apply orb_prop in H as [H|H].
    + left. destruct (Review.rating r) as [x|]; [eauto|discriminate].
    + right. destruct (Review.sentiment r) as [s|]; [|discriminate].
      exists s. split; [reflexivity|]. now apply String.eqb_eq.
  - destruct H as [(x & -> & Hx)|(s & -> & Hs)].
    + now rewrite Hx.
    + apply orb_true_intro. right. now apply String.eqb_eq.
Qed.

End NegativeReviews.

(** ** Records without a low rating (C4) *)

Section NoLowRating.
Import LeadEnricher LeadScorer.
Local Open Scope string_scope.

Lemma filter_none {A} (f : A -> bool) (l : list A) :
  Forall (fun x => f x = false) l -> List.filter f l = [].
Proof.
  induction 1 as [|x l Hx Hl IH]; [reflexivity|].
  simpl. now rewrite Hx.
Qed.

Lemma countRecentNegatives_no_low_rating now lead reviews :
  Lead.reviews lead = Some reviews ->
  Forall (fun r => lowRating r = false) reviews ->
  countRecentNegatives now lead = 0%nat.
Proof.
  intros Hr Hlow. unfold countRecentNegatives. rewrite Hr.
  destruct (length reviews =? 0)%nat; [reflexivity|].
  rewrite filter_none; [reflexivity|].
  eapply List.Forall_impl; [|exact Hlow].
  intros r Hf. change (isNegative r) with (lowRating r).
  rewrite Hf. apply andb_false_r.
Qed.

(** Extraction returns on every review list that is present. *)
Lemma extractNegativeKeywords_returns reviews :
  exists ks, extractNegativeKeywords (Some reviews) = Ok ks.
Proof.
  unfold extractNegativeKeywords. simpl.
  destruct (length (negativeReviews reviews) =? 0)%nat; eauto.
Qed.




End NoLowRating.

(** ** The review trend (C8) *)

Section Trend.
Import LeadEnricher.
Local Open Scope string_scope.

Lemma older_by_date a b : older a b = (Review.date a <? Review.date b)%Z.
Proof.
  unfold older.
  destruct (Z.ltb_spec 0 (Review.date b - Review.date a)),
           (Z.ltb_spec (Review.date a) (Review.date b)); (reflexivity || lia).
Qed.

(** The reviews newest first: a reordering of the list, by date descending,
    reviews of one date in the order of the list. *)
Lemma newest_first reviews :
  let sorted := js_sort older reviews in
  Permutation sorted reviews /\
  descending Review.date sorted /\
  forall d, with_key Review.date d sorted = with_key Review.date d reviews.
Proof.
  assert (Hall : Forall (fun _ : Review.t => True) reviews)
    by (apply List.Forall_forall; auto).
  split; [apply js_sort_perm|]. split.
  - apply (js_sort_sorted older (fun _ => True));
      [intros; apply older_by_date|exact Hall].
  - intros d. apply (js_sort_stable older (fun _ => True));
      [intros; apply older_by_date|exact Hall].
Qed.

Lemma averageRating_mean l : l <> [] -> averageRating l = mean_rating l.
Proof. destruct l; [congruence|reflexivity]. Qed.

(** C8, as the code has it: with no review list or fewer than 5 reviews the
    trend is [insufficient_data] with change 0.  With at least 5 reviews the
    reviews are sorted by date descending (a stable reordering), split at
    the floor of half the count, and with [d] the mean rating of the newer
    half minus the mean rating of the older half: the trend is worsening if
    [d < -0.3], improving if [d > 0.3], else stable; the severity is
    critical if [d < -0.5], high if [d < -0.3], else moderate; and the
    [change] field is [d] rounded to 2 decimals.  The thresholds are applied
    to [d] before it is rounded. *)
Theorem review_trend_by_halves (reviews : list Review.t) :
  calculateReviewTrend None = ReviewTrend.mk "insufficient_data" 0 None None None /\
  ((length reviews < 5)%nat ->
   calculateReviewTrend (Some reviews)
   = ReviewTrend.mk "insufficient_data" 0 None None None) /\
  ((5 <= length reviews)%nat ->
   let sorted := js_sort older reviews in
   let mid := (length reviews / 2)%nat in
   let newer := firstn mid sorted in
   let old := skipn mid sorted in
   let d := (mean_rating newer - mean_rating old)%float in
   Permutation sorted reviews /\
   descending Review.date sorted /\
   (forall t, with_key Review.date t sorted = with_key Review.date t reviews) /\
   sorted = (newer ++ old)%list /\
   length newer = mid /\
   length old = (length reviews - mid)%nat /\
   calculateReviewTrend (Some reviews)
   = ReviewTrend.mk (trend_of_change d)
                    (JS.toFixed2 d)
                    (Some (JS.toFixed2 (mean_rating newer)))
                    (Some (JS.toFixed2 (mean_rating old)))
                    (Some (severity_of_change d))).
Proof.
  split; [reflexivity|]. split.
  - intros Hlt. unfold calculateReviewTrend.
    apply Nat.ltb_lt in Hlt. now rewrite Hlt.
  - intros Hge sorted mid newer old d.
    destruct (newest_first reviews) as (Hperm & Hdesc & Hstable).
    pose proof (js_sort_length older reviews) as Hlen. fold sorted in Hlen.
    assert (Hmid : (mid <= length sorted)%nat).
    { rewrite Hlen. subst mid. apply Nat.Div0.div_le_upper_bound. lia. }
    assert (0 < mid)%nat as Hpos.
    { subst mid. apply Nat.div_str_pos. lia. }
    assert (mid < length reviews)%nat as Hlt.
    { subst mid. apply Nat.div_lt; lia. }
    assert (Hn : length newer = mid).
    { subst newer. rewrite List.length_firstn. lia. }
    assert (Ho : length old = (length reviews - mid)%nat).
    { subst old. rewrite List.length_skipn. lia. }
    repeat (split; [first [assumption | symmetry; apply firstn_skipn]|]).
    unfold calculateReviewTrend.
    assert (Hnlt : (length reviews <? 5)%nat = false) by (apply Nat.ltb_ge; lia).
    rewrite Hnlt. fold sorted. rewrite Hlen. fold mid.
    unfold slice_to, slice_from. fold newer. fold old.
    rewrite !averageRating_mean.
    + reflexivity.
    + intros E. rewrite E in Ho. simpl in Ho. lia.
    + intros E. rewrite E in Hn. simpl in Hn. lia.
Qed.

Lemma review_trend_by_halves_witness :
  ReviewTrend.trend (calculateReviewTrend (Some (dated [3; 3; 5; 5; 5]%float)))
  = "worsening" /\
  ReviewTrend.trend (calculateReviewTrend (Some (dated [3; 3]%float)))
  = "insufficient_data".
Proof.
  destruct (review_trend_by_halves (dated [3; 3; 5; 5; 5]%float)) as (_ & _ & H5).
  destruct (review_trend_by_halves (dated [3; 3]%float)) as (_ & H2 & _).
  split.
  - destruct (H5 ltac:(simpl; lia)) as (_ & _ & _ & _ & _ & _ & ->). reflexivity.
  - rewrite (H2 ltac:(simpl; lia)). reflexivity.
Defined.

(** C8 as stated fails where rounding crosses a threshold: on
    [fifteen_reviews] the difference of the means is [11/7 - 15/8], about
    [-0.3036]; the [change] field is that rounded to 2 decimals, [-0.3],
    which is not below [-0.3], and yet the trend is worsening and the
    severity high. *)
Lemma trend_thresholds_before_rounding :
  let t := calculateReviewTrend (Some fifteen_reviews) in
  ReviewTrend.change t = (-0.3)%float /\
  (ReviewTrend.change t <? -0.3)%float = false /\
  (ReviewTrend.change t <? -0.5)%float = false /\
  ReviewTrend.trend t = "worsening" /\
  ReviewTrend.trendScore t = Some "high".
Proof. vm_compute. repeat split; reflexivity. Qed.

(** The difference is a binary64 difference: on [eleven_reviews] the means
    are 1.2 and 1.5, their difference is computed as -0.30000000000000004,
    which is below the Number -0.3, and the trend is worsening. *)
Lemma trend_threshold_in_binary64 :
  let t := calculateReviewTrend (Some eleven_reviews) in
  ReviewTrend.recentAvg t = Some 1.2%float /\
  ReviewTrend.olderAvg t = Some 1.5%float /\
  (1.2 - 1.5 <? -0.3)%float = true /\
  ReviewTrend.change t = (-0.3)%float /\
  ReviewTrend.trend t = "worsening".
Proof. vm_compute. repeat split; reflexivity. Qed.

End Trend.

(** ** Negative keywords (C5) *)

Section Keywords.
Import JSString LeadEnricher.
Local Open Scope string_scope.

(** *** The map as a list of entries *)

Lemma existsb_eqb_In x (ks : list string) :
  existsb (String.eqb x) ks = true <-> In x ks.
Proof.
  rewrite existsb_exists. split.
  - intros (k & Hk & E). apply String.eqb_eq in E. now subst.
  - intros H. exists x. split; [exact H|apply String.eqb_refl].
Qed.

Lemma existsb_eqb_not_In x (ks : list string) :
  existsb (String.eqb x) ks = false <-> ~ In x ks.
Proof.
  rewrite <- existsb_eqb_In. destruct (existsb (String.eqb x) ks); split; congruence.
Qed.

Lemma map_get_entries (f : string -> nat) ks x :
  map_get x (map (fun k => (k, f k)) ks)
  = if existsb (String.eqb x) ks then Some (f x) else None.
Proof.
  induction ks as [|k ks IH]; [reflexivity|].
  simpl. rewrite (String.eqb_sym x k).
  destruct (String.eqb_spec k x) as [->|_]; [reflexivity|exact IH].
Qed.

Lemma map_set_fresh (f : string -> nat) ks x v :
  ~ In x ks ->
  map_set x v (map (fun k => (k, f k)) ks) = (map (fun k => (k, f k)) ks ++ [(x, v)])%list.
Proof.
  induction ks as [|k ks IH]; intros Hx; [reflexivity|].
  simpl. destruct (String.eqb_spec k x) as [->|_].
  - exfalso. apply Hx. now left.
  - rewrite IH; [reflexivity|]. intros H. apply Hx. now right.
Qed.

Lemma map_set_known (f : string -> nat) ks x v :
  List.NoDup ks -> In x ks ->
  map_set x v (map (fun k => (k, f k)) ks)
  = map (fun k => (k, if String.eqb k x then v else f k)) ks.
Proof.
  induction 1 as [|k ks Hk Hnd IH]; intros Hx; [destruct Hx|].
  simpl. destruct (String.eqb_spec k x) as [->|Hne].
  - f_equal. apply map_ext_in. intros k Hin.
    destruct (String.eqb_spec k x) as [->|_]; [contradiction|reflexivity].
  - f_equal. apply IH. destruct Hx; [contradiction|assumption].
Qed.

(** *** The order of first occurrence *)

Lemma first_seen_snoc es x :
  first_seen (es ++ [x]) =
  if existsb (String.eqb x) (first_seen es) then first_seen es
  else (first_seen es ++ [x])%list.
Proof. unfold first_seen. now rewrite fold_left_app. Qed.

Lemma first_seen_In es k : In k (first_seen es) <-> In k es.
Proof.
  induction es as [|x es IH] using rev_ind; [reflexivity|].
  rewrite first_seen_snoc, in_app_iff.
  destruct (existsb (String.eqb x) (first_seen es)) eqn:E.
  - apply existsb_eqb_In in E. rewrite IH in *. simpl. intuition (subst; auto).
  - rewrite in_app_iff, IH. reflexivity.
Qed.

Lemma first_seen_NoDup es : List.NoDup (first_seen es).
Proof.
  induction es as [|x es IH] using rev_ind; [constructor|].
  rewrite first_seen_snoc.
  destruct (existsb (String.eqb x) (first_seen es)) eqn:E; [exact IH|].
  apply existsb_eqb_not_In in E.
  apply List.NoDup_app; [exact IH| |].
  - repeat constructor. intros [].
  - intros k Hk [<-|[]]. contradiction.
Qed.

Lemma occurrences_snoc k es x :
  occurrences k (es ++ [x]) = (occurrences k es + if String.eqb k x then 1 else 0)%nat.
Proof.
  unfold occurrences. rewrite List.filter_app, List.length_app. simpl.
  now destruct (String.eqb k x).
Qed.

Lemma occurrences_absent k es : ~ In k es -> occurrences k es = 0%nat.
Proof.
  intros H. unfold occurrences.
  rewrite filter_none; [reflexivity|].
  apply List.Forall_forall. intros x Hx.
  destruct (String.eqb_spec k x) as [->|_]; [contradiction|reflexivity].
Qed.

(** The map after a run of increments: the keys in the order of their first
    occurrence, each with the number of its occurrences. *)
Lemma tally es :
  fold_left bump es [] = map (fun k => (k, occurrences k es)) (first_seen es).
Proof.
  induction es as [|x es IH] using rev_ind; [reflexivity|].
  rewrite fold_left_app. simpl. rewrite IH. unfold bump.
  rewrite map_get_entries, first_seen_snoc.
  destruct (existsb (String.eqb x) (first_seen es)) eqn:E.
  - apply existsb_eqb_In in E.
    rewrite map_set_known; [|apply first_seen_NoDup|exact E].
    apply map_ext. intros k. rewrite occurrences_snoc.
    destruct (String.eqb_spec k x) as [->|_]; simpl; f_equal; lia.
  - apply existsb_eqb_not_In in E.
    rewrite map_set_fresh; [|exact E].
    rewrite List.map_app. simpl. f_equal.
    + apply map_ext_in. intros k Hk. rewrite occurrences_snoc.
      destruct (String.eqb_spec k x) as [->|_]; [contradiction|]. f_equal. lia.
    + rewrite occurrences_snoc, String.eqb_refl.
      rewrite occurrences_absent; [reflexivity|]. now rewrite <- first_seen_In.
Qed.

(** *** The two loops *)

Lemma countKeyword_run text ks found :
  fold_left (countKeyword text) ks found
  = fold_left bump (List.filter (includes text) ks) found.
Proof.
  revert found. induction ks as [|k ks IH]; intros found; [reflexivity|].
  simpl. unfold countKeyword at 2.
  destruct (includes text k); simpl; apply IH.
Qed.

Lemma countReview_bump found r : countReview found r = fold_left bump (hits r) found.
Proof. unfold countReview, hits, lowered. apply countKeyword_run. Qed.

Lemma fold_left_cons {A B} (f : A -> B -> A) x l a :
  fold_left f (x :: l) a = fold_left f l (f a x).
Proof. reflexivity. Qed.

Lemma flat_map_cons {A B} (f : A -> list B) x l :
  flat_map f (x :: l) = (f x ++ flat_map f l)%list.
Proof. reflexivity. Qed.

Lemma countReview_run negs found :
  fold_left countReview negs found = fold_left bump (flat_map hits negs) found.
Proof.
  revert found. induction negs as [|r negs IH]; intros found; [reflexivity|].
  rewrite fold_left_cons, flat_map_cons, fold_left_app, IH, countReview_bump.
  reflexivity.
Qed.

Lemma distinct_NoDup l : distinct l = true -> List.NoDup l.
Proof.
  induction l as [|x l IH]; [constructor|].
  simpl. intros H. apply andb_prop in H as [Hx Hl].
  constructor; [|now apply IH].
  apply existsb_eqb_not_In. now destruct (existsb (String.eqb x) l).
Qed.

Lemma keywords_NoDup : List.NoDup keywords.
Proof. apply distinct_NoDup. vm_compute. reflexivity. Qed.

Lemma occurrences_filter_NoDup (f : string -> bool) k ks :
  List.NoDup ks -> In k ks ->
  occurrences k (List.filter f ks) = if f k then 1%nat else 0%nat.
Proof.
  induction 1 as [|x ks Hx Hnd IH]; intros Hk; [destruct Hk|].
  simpl. destruct Hk as [<-|Hk].
  - destruct (f x) eqn:Ef.
    + unfold occurrences. simpl. rewrite String.eqb_refl. simpl.
      fold (occurrences x (List.filter f ks)).
      rewrite occurrences_absent; [reflexivity|].
      rewrite filter_In. tauto.
    + apply occurrences_absent. rewrite filter_In. tauto.
  - assert (k <> x) by (intros ->; contradiction).
    destruct (f x).
    + unfold occurrences. simpl.
      destruct (String.eqb_spec k x); [contradiction|]. now apply IH.
    + now apply IH.
Qed.

Lemma mentions_cons k r negs :
  mentions k (r :: negs)
  = ((if includes (lowered r) k then 1 else 0) + mentions k negs)%nat.
Proof. unfold mentions. cbn [List.filter]. now destruct (includes (lowered r) k). Qed.

Lemma occurrences_app k l1 l2 :
  occurrences k (l1 ++ l2) = (occurrences k l1 + occurrences k l2)%nat.
Proof. unfold occurrences. now rewrite List.filter_app, List.length_app. Qed.

Lemma occurrences_hits k negs :
  In k keywords -> occurrences k (flat_map hits negs) = mentions k negs.
Proof.
  intros Hk. induction negs as [|r negs IH]; [reflexivity|].
  rewrite flat_map_cons, occurrences_app, IH, mentions_cons. f_equal.
  unfold hits. apply occurrences_filter_NoDup; [apply keywords_NoDup|exact Hk].
Qed.

Lemma hits_In k negs :
  In k (flat_map hits negs) <-> In k keywords /\ (1 <= mentions k negs)%nat.
Proof.
  induction negs as [|r negs IH].
  - cbn [flat_map]. unfold mentions. cbn [List.filter length]. split; [intros []|lia].
  - rewrite flat_map_cons, in_app_iff, IH, mentions_cons. unfold hits. rewrite filter_In.
    destruct (includes (lowered r) k); intuition lia.
Qed.

(** The map that [extractNegativeKeywords] builds. *)
Lemma found_entries negs :
  fold_left countReview negs []
  = map (fun w => (w, mentions w negs)) (first_seen (flat_map hits negs)).
Proof.
  rewrite countReview_run, tally.
  apply map_ext_in. intros k Hk.
  apply first_seen_In, hits_In in Hk as [Hk _].
  now rewrite occurrences_hits.
Qed.

Lemma fewer_by_count a b : fewer a b = (count_key a <? count_key b)%Z.
Proof.
  unfold fewer, count_key.
  destruct (Nat.ltb_spec (snd a) (snd b)), (Z.ltb_spec (Z.of_nat (snd a)) (Z.of_nat (snd b)));
    (reflexivity || lia).
Qed.

(** C5, as the code has it: for every review list, with [negs] its negative
    reviews, negative-keyword extraction returns the first 5 entries of the
    ranking of the lexicon terms that occur (case-insensitively, as
    substrings) in the text of a negative review; the count of a term is the
    number of negative reviews whose text contains it; the ranking is by
    count descending, and terms with equal counts keep the order in which
    they were first found, reading the negative reviews in list order and the
    lexicon in its order within one review.  The result has at most 5
    entries and is empty when no review is negative. *)
Theorem negative_keywords_ranking (reviews : list Review.t) :
  let negs := negativeReviews reviews in
  let seen := first_seen (flat_map hits negs) in
  let found := map (fun w => (w, mentions w negs)) seen in
  let ranked := js_sort fewer found in
  extractNegativeKeywords (Some reviews) = Ok (map entry (firstn 5 ranked)) /\
  (length (map entry (firstn 5 ranked)) <= 5)%nat /\
  Permutation ranked found /\
  descending count_key ranked /\
  (forall c, with_key count_key c ranked = with_key count_key c found) /\
  List.NoDup seen /\
  (forall w, In w seen <-> In w keywords /\ (1 <= mentions w negs)%nat) /\
  (negs = [] -> extractNegativeKeywords (Some reviews) = Ok []).
Proof.
  intros negs seen found ranked.
  assert (Hall : Forall (fun _ : string * nat => True) found)
    by (apply List.Forall_forall; auto).
  assert (Hrun : extractNegativeKeywords (Some reviews) = Ok (map entry (firstn 5 ranked))).
  { unfold extractNegativeKeywords, deref, bind. fold negs.
    destruct negs as [|r negs'] eqn:E; [reflexivity|].
    change (length (r :: negs') =? 0)%nat with false. cbv iota.
    rewrite found_entries. f_equal. apply map_ext. now intros []. }
  split; [exact Hrun|].
  split; [rewrite length_map, List.length_firstn; lia|].
  split; [apply js_sort_perm|].
  split; [apply (js_sort_sorted fewer (fun _ => True));
          [intros; apply fewer_by_count|exact Hall]|].
  split; [intros c; apply (js_sort_stable fewer (fun _ => True));
          [intros; apply fewer_by_count|exact Hall]|].
  split; [apply first_seen_NoDup|].
  split; [intros w; subst seen; rewrite first_seen_In; apply hits_In|].
  intros E. rewrite Hrun. subst ranked found seen. now rewrite E.
Qed.

Lemma negative_keywords_ranking_witness :
  extractNegativeKeywords (Some [complaint 4 "Friendly staff and quick service."]) = Ok [].
Proof.
  destruct (negative_keywords_ranking [complaint 4 "Friendly staff and quick service."])
    as (_ & _ & _ & _ & _ & _ & _ & H).
  apply H. reflexivity.
Defined.

(** C5 as stated fails on ties and on repeated terms: [rude] is found before
    [slow], so it comes first although [slow] is first in the lexicon; and a
    term that occurs three times in one review counts once. *)
Lemma keyword_ties_in_order_found :
  let two := [complaint 1 "Rude staff."; complaint 2 "Slow service."] in
  extractNegativeKeywords (Some two)
    = Ok [Keyword.mk "rude" 1; Keyword.mk "slow" 1] /\
  lexicon_ranking (negativeReviews two)
    = [Keyword.mk "slow" 1; Keyword.mk "rude" 1] /\
  extractNegativeKeywords (Some [complaint 1 "Slow. Slow. SLOW."])
    = Ok [Keyword.mk "slow" 1].
Proof. vm_compute. repeat split; reflexivity. Qed.

End Keywords.

(** ** Contact information (C9) *)

Section Contact.
Import JSString LeadEnricher.
Local Open Scope string_scope.

Lemma match_here_length p s r :
  match_here p s = Some r -> (required p <= String.length r)%nat.
Proof.
  revert s r. induction p as [|[c|c] p IH]; intros s r H; simpl in H.
  - injection H as <-. simpl. lia.
  - destruct s as [|a s]; [discriminate|].
    destruct (c a); [|discriminate].
    destruct (match_here p s) as [r'|] eqn:E; [|discriminate].
    injection H as <-. simpl. apply IH in E. lia.
  - destruct s as [|a s]; [now apply IH in H|].
    destruct (c a); [|now apply IH in H].
    destruct (match_here p s) as [r'|] eqn:E; [|now apply IH in H].
    injection H as <-. simpl. apply IH in E. lia.
Qed.

Lemma match_first_length p s r :
  match_first p s = Some r -> (required p <= String.length r)%nat.
Proof.
  induction s as [|a s IH]; simpl.
  - destruct (match_here p EmptyString) eqn:E; [|discriminate].
    intros [= <-]. now apply match_here_length in E.
  - destruct (match_here p (String a s)) eqn:E; [|exact IH].
    intros [= <-]. now apply match_here_length in E.
Qed.

(** A phone number found in an address is never the empty string. *)
Lemma phone_match_present s r :
  match_first phonePattern s = Some r -> present (Some r) = true.
Proof.
  intros H. apply match_first_length in H.
  destruct r; [simpl in H; lia|reflexivity].
Qed.

Lemma present_or_null x : present (or_null x) = present x.
Proof. destruct x as [s|]; [|reflexivity]. simpl. now destruct (truthy s) eqn:E. Qed.

Lemma or_null_present x : present x = true -> or_null x = x.
Proof. destruct x as [s|]; [|discriminate]. simpl. now intros ->. Qed.

Lemma or_null_absent x : present x = false -> or_null x = None.
Proof. destruct x as [s|]; [|reflexivity]. simpl. now intros ->. Qed.

(** The three fields and the flag, one at a time. *)
Lemma contact_phone lead :
  ContactInfo.phone (enrichContactInfo lead)
  = if present (Lead.phone lead) then Lead.phone lead else phone_in_address lead.
Proof.
  unfold enrichContactInfo, phone_in_address. rewrite !present_or_null.
  destruct (if negb (present (Lead.email lead)) && _ then _ else _) as [e t].
  cbn [ContactInfo.phone].
  destruct (present (Lead.phone lead)) eqn:Hp; cbn [negb andb].
  - now apply or_null_present.
  - rewrite (or_null_absent _ Hp).
    destruct (present (Lead.address lead)); [|reflexivity].
    now destruct (match_first _ _).
Qed.

Lemma contact_website lead :
  ContactInfo.website (enrichContactInfo lead) = or_null (Lead.website lead).
Proof.
  unfold enrichContactInfo.
  now destruct (if negb (present (or_null (Lead.email lead))) && _ then _ else _) as [e t].
Qed.

Lemma contact_email lead :
  (ContactInfo.email (enrichContactInfo lead), ContactInfo.emailType (enrichContactInfo lead))
  = if present (Lead.email lead) then (Lead.email lead, None)
    else match or_null (Lead.website lead) with
         | Some w =>
             if truthy (domain_of w)
             then (Some ("info@" ++ domain_of w), Some "estimated")
             else (None, None)
         | None => (None, None)
         end.
Proof.
  unfold enrichContactInfo. rewrite !present_or_null.
  destruct (present (Lead.email lead)) eqn:He; cbn [negb andb].
  - now rewrite (or_null_present _ He).
  - rewrite (or_null_absent _ He).
    destruct (Lead.website lead) as [w|]; [|reflexivity].
    unfold extractDomain. cbn [or_null present].
    destruct (truthy w) eqn:Hw; cbn [present andb negb]; [|reflexivity].
    rewrite Hw. cbn [negb present default]. fold (domain_of w).
    now destruct (truthy (domain_of w)).
Qed.

Lemma contact_hasContact lead :
  let c := enrichContactInfo lead in
  ContactInfo.hasContact c
  = present (ContactInfo.phone c) || present (ContactInfo.email c)
    || present (ContactInfo.website c).
Proof.
  unfold enrichContactInfo.
  now destruct (if negb (present (or_null (Lead.email lead))) && _ then _ else _) as [e t].
Qed.

Lemma phone_in_address_present lead :
  present (phone_in_address lead) = true <-> phone_in_address lead <> None.
Proof.
  unfold phone_in_address. destruct (present (Lead.address lead)); [|easy].
  destruct (match_first _ _) as [m|] eqn:Hm; [|easy].
  rewrite (phone_match_present _ _ Hm). easy.
Qed.

(** C9, as the code has it: for every business record, phone, email and
    website are copied when present (a non-empty string), and are [null]
    otherwise, except that: a missing phone is replaced by the first phone
    number found in the address, if there is one; and a missing email, when
    the website is present and its domain is not empty, is replaced by
    [info@<domain>], marked [estimated].  [hasContact] is true if and only if
    phone, email or website of the contact block is present, that is, if and
    only if the record has a phone, an email or a website, or its address
    holds a phone number. *)
Theorem contact_info_fields (lead : Lead.t) :
  let c := enrichContactInfo lead in
  (present (Lead.phone lead) = true -> ContactInfo.phone c = Lead.phone lead) /\
  (present (Lead.phone lead) = false -> ContactInfo.phone c = phone_in_address lead) /\
  (present (Lead.website lead) = true -> ContactInfo.website c = Lead.website lead) /\
  (present (Lead.website lead) = false -> ContactInfo.website c = None) /\
  (present (Lead.email lead) = true ->
   ContactInfo.email c = Lead.email lead /\ ContactInfo.emailType c = None) /\
  (present (Lead.email lead) = false ->
   forall w, Lead.website lead = Some w -> truthy w = true -> truthy (domain_of w) = true ->
   ContactInfo.email c = Some ("info@" ++ domain_of w) /\
   ContactInfo.emailType c = Some "estimated") /\
  (present (Lead.email lead) = false ->
   (present (Lead.website lead) = false \/
    exists w, Lead.website lead = Some w /\ truthy (domain_of w) = false) ->
   ContactInfo.email c = None /\ ContactInfo.emailType c = None) /\
  ContactInfo.hasContact c
  = present (ContactInfo.phone c) || present (ContactInfo.email c)
    || present (ContactInfo.website c) /\
  (ContactInfo.hasContact c = true <->
   present (Lead.phone lead) = true \/ present (Lead.email lead) = true \/
   present (Lead.website lead) = true \/ phone_in_address lead <> None).
Proof.
  intros c. subst c.
  pose proof (contact_phone lead) as Hphone.
  pose proof (contact_website lead) as Hweb.
  pose proof (contact_email lead) as Hmail.
  pose proof (contact_hasContact lead) as Hhas. cbv zeta in Hhas.
  split; [intros Hp; now rewrite Hphone, Hp|].
  split; [intros Hp; now rewrite Hphone, Hp|].
  split; [intros Hw; rewrite Hweb; now apply or_null_present|].
  split; [intros Hw; rewrite Hweb; now apply or_null_absent|].
  split; [intros He; rewrite He in Hmail; now injection Hmail|].
  split.
  { intros He w Ew Hw Hd. rewrite He, Ew in Hmail. cbn [or_null] in Hmail.
    rewrite Hw, Hd in Hmail. now injection Hmail. }
  split.
  { intros He Hcase. rewrite He in Hmail.
    destruct Hcase as [Hw|(w & Ew & Hd)].
    - rewrite (or_null_absent _ Hw) in Hmail. now injection Hmail.
    - rewrite Ew in Hmail. cbn [or_null] in Hmail.
      destruct (truthy w); [rewrite Hd in Hmail|]; now injection Hmail. }
  split; [exact Hhas|].
  rewrite Hhas, Hphone, Hweb, present_or_null, <- phone_in_address_present.
  destruct (present (Lead.phone lead)) eqn:Hp.
  { rewrite Hp. cbn [orb]. tauto. }
  destruct (present (phone_in_address lead)); [cbn [orb]; tauto|].
  destruct (present (Lead.website lead)) eqn:Hw; [rewrite orb_true_r; tauto|].
  rewrite (or_null_absent _ Hw) in Hmail.
  destruct (present (Lead.email lead)) eqn:He.
  - injection Hmail as -> _. rewrite He. cbn [orb]. tauto.
  - injection Hmail as -> _. cbn [orb present]. intuition discriminate.
Qed.

Lemma contact_info_fields_witness :
  ContactInfo.email (enrichContactInfo no_domain_lead) = None /\
  ContactInfo.phone (enrichContactInfo walk_in_lead) = Some " 512-555-1234".
Proof.
  split.
  - destruct (contact_info_fields no_domain_lead) as (_ & _ & _ & _ & _ & _ & H & _).
    apply H; [reflexivity|]. right. exists "https://". split; reflexivity.
  - destruct (contact_info_fields walk_in_lead) as (_ & H & _).
    rewrite (H eq_refl). reflexivity.
Defined.

(** C9 as stated fails: [walk_in_lead] has no phone, no email and no website,
    and [hasContact] is true, from the phone number in its address; and
    [no_domain_lead] has a website and no email, and no address is made up
    for it. *)
Lemma hasContact_from_address :
  (present (Lead.phone walk_in_lead) || present (Lead.email walk_in_lead)
   || present (Lead.website walk_in_lead) = false /\
   ContactInfo.hasContact (enrichContactInfo walk_in_lead) = true /\
   ContactInfo.phone (enrichContactInfo walk_in_lead) = Some " 512-555-1234") /\
  (present (Lead.email no_domain_lead) = false /\
   present (Lead.website no_domain_lead) = true /\
   ContactInfo.email (enrichContactInfo no_domain_lead) = None /\
   ContactInfo.emailType (enrichContactInfo no_domain_lead) = None).
Proof. vm_compute. repeat split; reflexivity. Qed.

End Contact.

(** ** [enrichLeads] keeps the records (C10) *)

Section Frame.
Import LeadEnricher.

Lemma with_enrichment_frame lead e :
  same_but_enrichment (Lead.with_enrichment lead e) lead /\
  Lead.enrichment (Lead.with_enrichment lead e) = Some e.
Proof. unfold same_but_enrichment. simpl. tauto. Qed.

(** Enrichment of a record with a review list returns the record with one
    more field. *)
Lemma enrichLead_returns now lead :
  Lead.reviews lead <> None ->
  exists e, enrichLead now lead = Ok (Lead.with_enrichment lead e).
Proof.
  intros Hr. destruct (Lead.reviews lead) as [reviews|] eqn:E; [|congruence].
  destruct (extractNegativeKeywords_returns reviews) as [ks Hks].
  unfold enrichLead. rewrite E, Hks.
  unfold getLastNegativeReviewDate, deref, bind.
  destruct (js_sort older (List.filter lowRating reviews)); eauto.
Qed.

Lemma map_from_returns {A B} (f : nat -> A -> result B) (l : list A) :
  forall idx,
    (forall i x, l !! i = Some x -> exists y, f (idx + i)%nat x = Ok y) ->
    exists out,
      map_from f idx l = Ok out /\
      length out = length l /\
      forall i x, l !! i = Some x ->
                  exists y, out !! i = Some y /\ f (idx + i)%nat x = Ok y.
Proof.
  induction l as [|x l IH]; intros idx Hok.
  - exists []. repeat split. intros i x H. discriminate.
  - destruct (Hok 0%nat x eq_refl) as [y Hy].
    destruct (IH (S idx)) as (out & Hout & Hlen & Hnth).
    { intros i z Hz. destruct (Hok (S i) z Hz) as [w Hw].
      exists w. now replace (S idx + i)%nat with (idx + S i)%nat by lia. }
    exists (y :: out). cbn [map_from].
    rewrite Nat.add_0_r in Hy. rewrite Hy. cbn [bind]. rewrite Hout. cbn [bind].
    split; [reflexivity|]. split; [simpl; lia|].
    intros [|i] z Hz.
    + injection Hz as <-. exists y. split; [reflexivity|]. now rewrite Nat.add_0_r.
    + destruct (Hnth i z Hz) as (w & Hw1 & Hw2).
      exists w. split; [exact Hw1|].
      now replace (idx + S i)%nat with (S idx + i)%nat by lia.
Qed.

(** A record without a review list makes its enrichment throw. *)
Lemma enrichLead_absent_reviews now lead :
  Lead.reviews lead = None -> enrichLead now lead = Throw TypeError.
Proof. intros H. unfold enrichLead. now rewrite H. Qed.

Lemma map_from_absent_reviews clock leads :
  forall idx,
    Exists (fun lead => Lead.reviews lead = None) leads ->
    map_from (fun idx lead => enrichLead (clock idx) lead) idx leads = Throw TypeError.
Proof.
  induction leads as [|lead leads IH]; intros idx H; [inversion H|].
  cbn [map_from]. destruct (Lead.reviews lead) as [reviews|] eqn:E.
  - destruct (enrichLead_returns (clock idx) lead) as [e He]; [congruence|].
    rewrite He. cbn [bind].
    inversion H as [? ? Hhere|? ? Hrest]; subst; [congruence|].
    now rewrite (IH (S idx) Hrest).
  - now rewrite (enrichLead_absent_reviews _ _ E).
Qed.

(** What a returning enrichment has put into the record. *)
Lemma enrichLead_block now lead o :
  enrichLead now lead = Ok o ->
  exists e,
    o = Lead.with_enrichment lead e /\
    Enrichment.contactInfo e = enrichContactInfo lead /\
    Enrichment.reviewTrend e = calculateReviewTrend (Lead.reviews lead) /\
    Enrichment.businessSize e = estimateBusinessSize lead /\
    Enrichment.responseRate e = calculateResponseRate (Lead.reviews lead) /\
    extractNegativeKeywords (Lead.reviews lead) = Ok (Enrichment.negativeReviewKeywords e) /\
    getLastNegativeReviewDate now (Lead.reviews lead) = Ok (Enrichment.lastNegativeReview e).
Proof.
  unfold enrichLead. intros He.
  destruct (extractNegativeKeywords (Lead.reviews lead)) as [ks|]; [|discriminate].
  destruct (getLastNegativeReviewDate now (Lead.reviews lead)) as [ln|]; [|discriminate].
  cbn [bind] in He. injection He as <-. eexists. now repeat split.
Qed.

(** C10: [enrichLeads] keeps the records where it returns, and it does not
    return on every list.  On a list whose records all have a review list
    it returns a list of the same length, and the record at each position
    is the input record at that position with every other field unchanged
    and the field [enrichment] set to the block of the six extractors (one
    more field when the input record had none, a replaced one when it had
    one).  On a list with a record that has no review list it throws,
    whatever the other records are: so on [[quiet_lead; bare_lead]]. *)
Theorem enrichLeads_keeps_records (clock : nat -> Z) (leads : list Lead.t) :
  (Forall (fun lead => Lead.reviews lead <> None) leads ->
   exists out,
     enrichLeads clock leads = Ok out /\
     length out = length leads /\
     forall i lead,
       leads !! i = Some lead ->
       exists o e,
         out !! i = Some o /\
         enrichLead (clock i) lead = Ok o /\
         o = Lead.with_enrichment lead e /\
         same_but_enrichment o lead /\
         Lead.enrichment o = Some e /\
         Enrichment.contactInfo e = enrichContactInfo lead /\
         Enrichment.reviewTrend e = calculateReviewTrend (Lead.reviews lead) /\
         Enrichment.businessSize e = estimateBusinessSize lead /\
         Enrichment.responseRate e = calculateResponseRate (Lead.reviews lead) /\
         extractNegativeKeywords (Lead.reviews lead)
         = Ok (Enrichment.negativeReviewKeywords e) /\
         getLastNegativeReviewDate (clock i) (Lead.reviews lead)
         = Ok (Enrichment.lastNegativeReview e)) /\
  (Exists (fun lead => Lead.reviews lead = None) leads ->
   enrichLeads clock leads = Throw TypeError) /\
  enrichLeads clock [quiet_lead; bare_lead] = Throw TypeError.
Proof.
  split; [|split].
  - intros Hall. rewrite Forall_lookup in Hall.
    destruct (map_from_returns (fun idx lead => enrichLead (clock idx) lead) leads 0%nat)
      as (out & Hout & Hlen & Hnth).
    { intros i lead Hi.
      destruct (enrichLead_returns (clock i) lead (Hall i lead Hi)) as [e He]. eauto. }
    exists out. split; [exact Hout|]. split; [exact Hlen|].
    intros i lead Hi. destruct (Hnth i lead Hi) as (o & Ho & Hrun).
    cbn [Nat.add] in Hrun.
    destruct (enrichLead_block (clock i) lead o Hrun)
      as (e & -> & Hc & Ht & Hb & Hr & Hk & Hl).
    exists (Lead.with_enrichment lead e), e.
    destruct (with_enrichment_frame lead e) as [Hsame Hen].
    split; [exact Ho|]. split; [exact Hrun|]. split; [reflexivity|].
    split; [exact Hsame|]. split; [exact Hen|]. auto 10.
  - intros H. apply (map_from_absent_reviews clock leads 0%nat H).
  - apply (map_from_absent_reviews clock [quiet_lead; bare_lead] 0%nat).
    right. left. reflexivity.
Qed.

Lemma enrichLeads_keeps_records_witness :
  (exists out,
     enrichLeads (fun _ => 1770600000000) [quiet_lead; slipping_lead] = Ok out /\
     length out = 2%nat) /\
  enrichLeads (fun _ => 1770600000000) [quiet_lead; bare_lead] = Throw TypeError.
Proof.
  split.
  - destruct (enrichLeads_keeps_records (fun _ => 1770600000000) [quiet_lead; slipping_lead])
      as [H _].
    destruct H as (out & H1 & H2 & _); [repeat constructor; discriminate|].
    exists out. split; assumption.
  - destruct (enrichLeads_keeps_records (fun _ => 1770600000000) [quiet_lead; bare_lead])
      as (_ & H & _).
    apply H. right. left. reflexivity.
Defined.

End Frame.

(** ** [scoreAllLeads]: sorted, stable, and the input untouched (C7) *)

Section Ranking.
Import LeadScorer.

Lemma scoreLead_scored now lead : scored (scoreLead now lead).
Proof.
  exists (Rubric.total now lead). split; [apply rubric_total_bounds|].
  unfold scoreLead. cbn [Lead.with_scoring Lead.score].
  now rewrite calculateLeadScore_score.
Qed.

Lemma scored_key lead z :
  0 <= z <= 100 -> Lead.score lead = Some (JS.num z) -> scoreKey lead = z.
Proof.
  intros Hz Hs. unfold scoreKey, scoreNum. rewrite Hs. now apply to_Z_num.
Qed.

Lemma lowerScore_by_key a b :
  scored a -> scored b -> lowerScore a b = (scoreKey a <? scoreKey b).
Proof.
  intros (za & Hza & Ha) (zb & Hzb & Hb).
  rewrite (scored_key a za Hza Ha), (scored_key b zb Hzb Hb).
  unfold lowerScore, scoreNum. rewrite Ha, Hb. now apply lowerScore_num.
Qed.

(** *** Sorting references and sorting values *)

Section ByReference.
Context {R V : Type} (rel : R -> V -> Prop).
Context (afterR : R -> R -> bool) (afterV : V -> V -> bool).
Hypothesis after_rel :
  forall a b va vb, rel a va -> rel b vb -> afterR a b = afterV va vb.

Lemma sort_insert_Forall2 a va l vl :
  rel a va -> Forall2 rel l vl ->
  Forall2 rel (sort_insert afterR a l) (sort_insert afterV va vl).
Proof.
  intros Ha Hl. induction Hl as [|b vb l vl Hb Hl IH]; simpl.
  - now repeat constructor.
  - rewrite (after_rel a b va vb Ha Hb).
    destruct (afterV va vb); repeat constructor; assumption.
Qed.

Lemma js_sort_Forall2 l vl :
  Forall2 rel l vl -> Forall2 rel (js_sort afterR l) (js_sort afterV vl).
Proof.
  induction 1 as [|a va l vl Ha Hl IH]; simpl; [constructor|].
  now apply sort_insert_Forall2.
Qed.

End ByReference.

(** *** The allocation of the scored leads *)

Lemma map_alloc_spec (f : nat -> Lead.t -> Lead.t) refs :
  forall idx h leads,
    mapM (fun o => Store.objects h !! o) refs = Some leads ->
    map_alloc f idx refs h
    = Some (seq (length (Store.objects h)) (length refs),
            Store.mk (Store.objects h ++ imap (fun i => f (idx + i)%nat) leads)
                     (Store.arrays h)).
Proof.
  induction refs as [|r refs IH]; intros idx h leads Hm.
  - apply mapM_Some_1 in Hm. inversion Hm; subst.
    cbn [map_alloc length seq imap]. rewrite app_nil_r. now destruct h.
  - apply mapM_Some_1 in Hm. inversion Hm as [|? lead ? leads' Hr Hrest]; subst.
    cbn [map_alloc]. rewrite Hr. cbn [mbind option_bind Store.alloc_object].
    rewrite (IH (S idx) _ leads').
    + cbn [mbind option_bind Store.objects Store.arrays length seq].
      rewrite length_app, imap_cons, <- app_assoc. cbn [length app].
      rewrite Nat.add_1_r, Nat.add_0_r.
      rewrite (imap_ext ((fun i => f (idx + i)%nat) ∘ S) (fun i => f (S idx + i)%nat) leads');
        [reflexivity|].
      intros i x _. cbn. f_equal. lia.
    + apply mapM_Some_2. cbn [Store.objects].
      eapply Forall2_impl; [exact Hrest|].
      intros o x Ho. now apply lookup_app_l_Some.
Qed.

Lemma insert_last {A} (l : list A) (x y : A) : <[length l := x]> (l ++ [y]) = l ++ [x].
Proof.
  replace (length l) with (length l + 0)%nat by lia. now rewrite insert_app_r.
Qed.

Lemma leads_of_fresh objs news arrs a :
  Store.leads_of
    (Store.mk (objs ++ news) (arrs ++ [a])) (length arrs)
  = mapM (fun o => (objs ++ news) !! o) a.
Proof.
  unfold Store.leads_of. cbn [Store.arrays Store.objects].
  now rewrite list_lookup_middle.
Qed.

Lemma seq_lookup_fresh {A} (objs news : list A) :
  Forall2 (fun o x => (objs ++ news) !! o = Some x) (seq (length objs) (length news)) news.
Proof.
  apply Forall2_same_length_lookup_2; [now rewrite length_seq|].
  intros i o x Ho Hx. apply lookup_seq in Ho as [-> _].
  rewrite lookup_app_r by lia. now replace (length objs + i - length objs)%nat with i by lia.
Qed.

(** The scored copy of a lead is the lead with the three fields of the
    scoring, which are what the rubric gives. *)
Lemma scoreLead_copy now lead :
  let c := scoreLead now lead in
  let z := Rubric.total now lead in
  same_but_scoring c lead /\
  Lead.score c = Some (Scoring.score (calculateLeadScore now lead)) /\
  Lead.scoringDetails c = Some (Scoring.details (calculateLeadScore now lead)) /\
  Lead.priority c = Some (Scoring.priority (calculateLeadScore now lead)) /\
  Lead.score c = Some (JS.num z) /\
  Lead.priority c = Some (Rubric.priority z) /\
  (exists d, Lead.scoringDetails c = Some d /\ rubric_points now lead d) /\
  scoreKey c = z.
Proof.
  intros c z. subst c z. unfold scoreLead.
  cbn [Lead.with_scoring Lead.score Lead.scoringDetails Lead.priority].
  split; [unfold same_but_scoring; cbn; tauto|].
  split; [reflexivity|]. split; [reflexivity|]. split; [reflexivity|].
  split; [now rewrite calculateLeadScore_score|].
  split; [now rewrite calculateLeadScore_priority|].
  split.
  - eexists. split; [reflexivity|].
    rewrite calculateLeadScore_unfold. cbn [Scoring.details].
    apply (rawScore_details now lead).
  - apply scored_key; [apply rubric_total_bounds|].
    cbn [Lead.score]. now rewrite calculateLeadScore_score.
Qed.

(** C7: for every store and every array of leads in it, [scoreAllLeads]
    returns a new array with one lead for each input lead.  Its leads are
    the scored copies of the input leads: the copy of a lead has every
    field of the lead unchanged, and its [score], [scoringDetails] and
    [priority] are those of [calculateLeadScore] at the time its turn
    comes, that is the total of the rubric, the points of the four factors
    and the tier of the total.  The copies are reordered by score
    descending, leads with equal scores in their input order; the input
    array holds the same leads as before, and no array and no object that
    existed before the call is changed. *)
Theorem scoreAllLeads_sorted_stable_fresh (clock : nat -> Z) (leads : nat)
    (h : Store.t) (input : list Lead.t) :
  Store.leads_of h leads = Some input ->
  let copies := imap (fun idx lead => scoreLead (clock idx) lead) input in
  exists h' output,
    scoreAllLeads clock leads h = Some (length (Store.arrays h), h') /\
    Store.arrays h !! length (Store.arrays h) = None /\
    Store.leads_of h' (length (Store.arrays h)) = Some output /\
    output = js_sort lowerScore copies /\
    (forall i lead, input !! i = Some lead ->
       copies !! i = Some (scoreLead (clock i) lead) /\
       Lead.score (scoreLead (clock i) lead)
       = Some (Scoring.score (calculateLeadScore (clock i) lead))) /\
    Permutation output copies /\
    descending scoreKey output /\
    (forall k, with_key scoreKey k output = with_key scoreKey k copies) /\
    Store.leads_of h' leads = Some input /\
    (forall r a, Store.arrays h !! r = Some a -> Store.arrays h' !! r = Some a) /\
    (forall r o, Store.objects h !! r = Some o -> Store.objects h' !! r = Some o) /\
    length output = length input /\
    length copies = length input /\
    (forall i lead, input !! i = Some lead ->
       exists c d,
         copies !! i = Some c /\
         In c output /\
         same_but_scoring c lead /\
         Lead.score c = Some (Scoring.score (calculateLeadScore (clock i) lead)) /\
         Lead.scoringDetails c = Some (Scoring.details (calculateLeadScore (clock i) lead)) /\
         Lead.priority c = Some (Scoring.priority (calculateLeadScore (clock i) lead)) /\
         Lead.score c = Some (JS.num (Rubric.total (clock i) lead)) /\
         Lead.priority c = Some (Rubric.priority (Rubric.total (clock i) lead)) /\
         Lead.scoringDetails c = Some d /\
         rubric_points (clock i) lead d /\
         scoreKey c = Rubric.total (clock i) lead) /\
    (forall c, In c output ->
       exists i lead, input !! i = Some lead /\ copies !! i = Some c /\
                      same_but_scoring c lead).
Proof.
  intros Hin copies.
  unfold Store.leads_of in Hin.
  destruct (Store.arrays h !! leads) as [refs|] eqn:Harr; [|discriminate].
  cbn [mbind option_bind] in Hin.
  pose (objs' := (Store.objects h ++ copies)%list).
  pose (fresh := seq (length (Store.objects h)) (length refs)).
  pose (h1 := Store.mk objs' (Store.arrays h ++ [fresh])).
  pose (sorted := js_sort (lowerScoreRef h1) fresh).
  assert (Hlen : length refs = length copies).
  { subst copies. rewrite length_imap. now apply length_mapM in Hin. }
  assert (Hfresh : Forall2 (fun o x => objs' !! o = Some x) fresh copies).
  { subst fresh objs'. rewrite Hlen. apply seq_lookup_fresh. }
  assert (Hsorted : Forall2 (fun o x => objs' !! o = Some x) sorted (js_sort lowerScore copies)).
  { apply (js_sort_Forall2 _ (lowerScoreRef h1) lowerScore); [|exact Hfresh].
    intros a b va vb Ha Hb. unfold lowerScoreRef. cbn [Store.objects h1].
    now rewrite Ha, Hb. }
  assert (Hcopies : Forall scored copies).
  { apply List.Forall_forall. intros o Ho. apply list_elem_of_In in Ho.
    apply elem_of_lookup_imap_1 in Ho as (i & lead & -> & _). apply scoreLead_scored. }
  assert (Hsame_length : length copies = length input).
  { subst copies. now rewrite length_imap. }
  assert (Hnth : forall i lead, input !! i = Some lead ->
                                copies !! i = Some (scoreLead (clock i) lead)).
  { intros i lead Hi. subst copies. now rewrite list_lookup_imap, Hi. }
  exists (Store.mk objs' (Store.arrays h ++ [sorted])), (js_sort lowerScore copies).
  split.
  { unfold scoreAllLeads. rewrite Harr. cbn [mbind option_bind].
    rewrite (map_alloc_spec _ refs 0%nat h input Hin).
    cbn [mbind option_bind Store.alloc_array Store.arrays Store.objects Store.write_array].
    unfold Store.write_array. cbn [Store.arrays Store.objects].
    now rewrite insert_last. }
  split; [apply lookup_ge_None; lia|].
  split; [unfold objs'; rewrite leads_of_fresh; now apply mapM_Some_2|].
  split; [reflexivity|].
  split.
  { intros i lead Hi. split; [now apply Hnth|reflexivity]. }
  split; [apply js_sort_perm|].
  split; [apply (js_sort_sorted lowerScore scored scoreKey lowerScore_by_key), Hcopies|].
  split; [intros k; apply (js_sort_stable lowerScore scored scoreKey lowerScore_by_key), Hcopies|].
  split.
  { unfold Store.leads_of. cbn [Store.arrays Store.objects].
    rewrite (lookup_app_l_Some _ _ _ _ Harr). cbn [mbind option_bind].
    apply mapM_Some_2. apply mapM_Some_1 in Hin.
    eapply Forall2_impl; [exact Hin|].
    intros o x Ho. now apply lookup_app_l_Some. }
  split; [intros r x Hx; now apply lookup_app_l_Some|].
  split; [intros r x Hx; now apply lookup_app_l_Some|].
  split; [now rewrite js_sort_length|].
  split; [exact Hsame_length|].
  split.
  - intros i lead Hi.
    destruct (scoreLead_copy (clock i) lead)
      as (Hsame & Hs & Hd & Hp & Hz & Ht & (d & Hd' & Hpts) & Hk).
    exists (scoreLead (clock i) lead), d.
    split; [now apply Hnth|].
    split.
    { apply (js_sort_In lowerScore). apply list_elem_of_In.
      eapply list_elem_of_lookup_2, Hnth, Hi. }
    auto 12.
  - intros c Hc. apply (proj1 (js_sort_In lowerScore c copies)) in Hc.
    apply list_elem_of_In in Hc.
    apply list_elem_of_lookup_1 in Hc as [i Hc].
    assert (Hi : exists lead, input !! i = Some lead).
    { apply lookup_lt_is_Some_2. apply lookup_lt_Some in Hc.
      now rewrite <- Hsame_length. }
    destruct Hi as [lead Hi]. exists i, lead.
    split; [exact Hi|]. split; [exact Hc|].
    rewrite (Hnth i lead Hi) in Hc. injection Hc as <-.
    apply (scoreLead_copy (clock i) lead).
Qed.

Lemma scoreAllLeads_sorted_stable_fresh_witness :
  exists h' output,
    scoreAllLeads (fun _ => 1770600000000) 0 three_leads = Some (1%nat, h') /\
    Store.leads_of h' 1 = Some output /\
    Store.leads_of h' 0 = Some [quiet_lead; busy_lead; slipping_lead] /\
    length output = 3%nat.
Proof.
  destruct (scoreAllLeads_sorted_stable_fresh (fun _ => 1770600000000) 0 three_leads
              [quiet_lead; busy_lead; slipping_lead] eq_refl)
    as (h' & output & H1 & _ & H2 & _ & _ & _ & _ & _ & H3 & _ & _ & H4 & _).
  exists h', output. auto.
Defined.

End Ranking.

(** ** The order of Numbers, on their keys *)

Section NumberOrder.

Ltac compare_cases :=
  repeat match goal with
         | |- context [Z.compare ?a ?b] => destruct (Z.compare_spec a b)
         | |- context [Pos.compare_cont Eq ?a ?b] =>
             change (Pos.compare_cont Eq a b) with (Pos.compare a b);
             destruct (Pos.compare_spec a b)
         end.

Lemma SFltb_keys a b : SFltb a b = true <-> keys_lt (SFkey a) (SFkey b).
Proof.
  unfold SFltb, SFcompare, keys_lt, key_lt.
  destruct a as [[]|[]| |[] ma ea], b as [[]|[]| |[] mb eb]; cbn;
    compare_cases; subst; cbn;
    (split; [intros Hg; try discriminate Hg; try lia
            |intros Hg; try reflexivity; try (exfalso; lia)]).
Qed.

Lemma SFleb_keys a b : SFleb a b = true <-> keys_le (SFkey a) (SFkey b).
Proof.
  unfold SFleb, SFcompare, keys_le, key_lt.
  destruct a as [[]|[]| |[] ma ea], b as [[]|[]| |[] mb eb]; cbn;
    compare_cases; subst; cbn;
    (split; [intros Hg; try discriminate Hg; try (left; lia); try (right; reflexivity)
            |intros Hg; try reflexivity; exfalso;
             try (destruct Hg as [Hg|Hg]); try exact Hg; try lia; try discriminate Hg;
             try (injection Hg; intros; lia)]).
Qed.

Lemma ltb_keys x y : (x <? y)%float = true <-> keys_lt (num_key x) (num_key y).
Proof. rewrite ltb_spec. apply SFltb_keys. Qed.

Lemma leb_keys x y : (x <=? y)%float = true <-> keys_le (num_key x) (num_key y).
Proof. rewrite leb_spec. apply SFleb_keys. Qed.

Lemma ltb_keys_false x y : (x <? y)%float = false <-> ~ keys_lt (num_key x) (num_key y).
Proof. rewrite <- ltb_keys. now destruct (x <? y)%float. Qed.

Lemma leb_keys_false x y : (x <=? y)%float = false <-> ~ keys_le (num_key x) (num_key y).
Proof. rewrite <- leb_keys. now destruct (x <=? y)%float. Qed.

Lemma SFcompare_refl a : SFkey a <> None -> SFcompare a a = Some Eq.
Proof.
  destruct a as [[]|[]| |[] m e]; cbn; try congruence; intros _;
    rewrite Z.compare_refl;
    change (Pos.compare_cont Eq m m) with (Pos.compare m m);
    now rewrite Pos.compare_refl.
Qed.

Lemma is_nan_key x : is_nan x = false <-> num_key x <> None.
Proof.
  unfold is_nan, num_key. rewrite FloatAxioms.eqb_spec. unfold SFeqb. split.
  - intros H E. destruct (Prim2SF x) as [s|[]| |[] m e]; try discriminate E.
    cbn in H. discriminate H.
  - intros H. now rewrite (SFcompare_refl _ H).
Qed.

End NumberOrder.

(** Comparisons of Numbers, read on their keys and decided by [lia]. *)
Ltac number_order :=
  repeat match goal with
         | H : context [JS.gtb ?a ?b] |- _ => unfold JS.gtb in H
         | H : context [JS.geb ?a ?b] |- _ => unfold JS.geb in H
         | |- context [JS.gtb ?a ?b] => unfold JS.gtb
         | |- context [JS.geb ?a ?b] => unfold JS.geb
         end;
  repeat match goal with
         | H : (_ <? _)%float = true |- _ => apply ltb_keys in H
         | H : (_ <? _)%float = false |- _ => apply ltb_keys_false in H
         | H : (_ <=? _)%float = true |- _ => apply leb_keys in H
         | H : (_ <=? _)%float = false |- _ => apply leb_keys_false in H
         | H : is_nan _ = false |- _ => apply is_nan_key in H
         end;
  try match goal with
      | |- (_ <? _)%float = true => apply ltb_keys
      | |- (_ <? _)%float = false => apply ltb_keys_false
      | |- (_ <=? _)%float = true => apply leb_keys
      | |- (_ <=? _)%float = false => apply leb_keys_false
      end;
  repeat match goal with
         | H : context [num_key ?c] |- _ =>
             tryif is_var c then fail
             else (let k := eval vm_compute in (num_key c) in
                   change (num_key c) with k in *)
         | |- context [num_key ?c] =>
             tryif is_var c then fail
             else (let k := eval vm_compute in (num_key c) in
                   change (num_key c) with k in *)
         end;
  repeat match goal with
         | x : float |- _ =>
             match goal with
             | H : context [num_key x] |- _ => idtac
             | |- context [num_key x] => idtac
             end;
             let ka := fresh "k" in
             destruct (num_key x) as [[[? ?] ?]|]
         end;
  unfold keys_lt, keys_le, key_lt in *; cbn [fst snd] in *;
  try tauto;
  repeat match goal with
         | H : _ = _ :> (Z * Z * Z) |- _ => injection H as ? ? ?
         end;
  try (intuition (try congruence; try lia)).

Section NumberOrderUse.

Lemma ltb_below_half d : (d <? -0.5)%float = true -> (d <? -0.3)%float = true.
Proof. intros H. number_order. Qed.

Lemma ltb_trans x y z :
  (x <? y)%float = true -> (y <? z)%float = true -> (x <? z)%float = true.
Proof. intros H1 H2. number_order. Qed.

Lemma ltb_asym x y : (x <? y)%float = true -> (y <? x)%float = false.
Proof. intros H. number_order. Qed.

End NumberOrderUse.

(** ** The last negative review *)

Section LastNegativeReview.
Import LeadEnricher LeadScorer.
Local Open Scope string_scope.

Lemma filter_nil_Forall {A} (f : A -> bool) (l : list A) :
  List.filter f l = [] <-> Forall (fun x => f x = false) l.
Proof.
  split; [|apply filter_none].
  induction l as [|x l IH]; [constructor|].
  simpl. destruct (f x) eqn:E; [discriminate|]. intros H. constructor; auto.
Qed.

Lemma js_sort_nil {A} (after : A -> A -> bool) (l : list A) :
  js_sort after l = [] <-> l = [].
Proof.
  split; [|now intros ->].
  intros H. apply length_zero_iff_nil. rewrite <- (js_sort_length after), H. reflexivity.
Qed.

(** The newest of the reviews with a low rating. *)
Lemma newest_low_rating reviews first rest :
  js_sort older (List.filter lowRating reviews) = first :: rest ->
  (In first reviews /\ lowRating first = true) /\
  forall r, In r reviews -> lowRating r = true -> (Review.date r <= Review.date first)%Z.
Proof.
  intros Hs.
  destruct (newest_first (List.filter lowRating reviews)) as (Hperm & Hdesc & _).
  cbv zeta in Hperm, Hdesc. rewrite Hs in Hperm, Hdesc.
  split.
  - apply filter_In. apply (Permutation_in _ Hperm). now left.
  - intros r Hr Hlow.
    assert (Hin : In r (first :: rest)).
    { apply (Permutation_in _ (Permutation_sym Hperm)). now apply filter_In. }
    exact (descending_head Review.date first rest r Hdesc Hin).
Qed.

(** What [getLastNegativeReviewDate] returns on a review list. *)
Lemma last_negative_is_newest_aux (now : Z) (reviews : list Review.t) :
  (getLastNegativeReviewDate now (Some reviews) = Ok None <->
   Forall (fun r => lowRating r = false) reviews) /\
  forall ln,
    getLastNegativeReviewDate now (Some reviews) = Ok (Some ln) ->
    (exists r, In r reviews /\ lowRating r = true /\
               Review.date r = LastNegative.date ln) /\
    (forall r, In r reviews -> lowRating r = true ->
               (Review.date r <= LastNegative.date ln)%Z) /\
    (86400000 * LastNegative.daysAgo ln <= now - LastNegative.date ln
     < 86400000 * (LastNegative.daysAgo ln + 1))%Z /\
    (LastNegative.recency ln = "very_recent" <-> (LastNegative.daysAgo ln < 7)%Z) /\
    (LastNegative.recency ln = "recent" <-> (7 <= LastNegative.daysAgo ln < 30)%Z) /\
    (LastNegative.recency ln = "old" <-> (30 <= LastNegative.daysAgo ln)%Z).
Proof.
  unfold getLastNegativeReviewDate, deref, bind.
  destruct (js_sort older (List.filter lowRating reviews)) as [|first rest] eqn:Hs.
  - split; [|discriminate].
    apply js_sort_nil in Hs. rewrite <- filter_nil_Forall. tauto.
  - split.
    { split; [discriminate|]. intros H. apply filter_nil_Forall in H.
      rewrite H in Hs. discriminate. }
    destruct (newest_low_rating _ _ _ Hs) as [[Hin Hlow] Hmax].
    intros ln [= <-]. cbn [LastNegative.date LastNegative.daysAgo LastNegative.recency].
    change (1000 * 60 * 60 * 24)%Z with 86400000%Z.
    set (d := ((now - Review.date first) / 86400000)%Z).
    split; [exists first; auto|]. split; [exact Hmax|].
    split.
    { pose proof (Z.div_mod (now - Review.date first) 86400000 ltac:(lia)).
      pose proof (Z.mod_pos_bound (now - Review.date first) 86400000 ltac:(lia)).
      subst d. lia. }
    destruct (Z.ltb_spec d 7); [|destruct (Z.ltb_spec d 30)];
      repeat split; intros; try lia; try discriminate; reflexivity.
Qed.

(** X1: on a review list that is present, [getLastNegativeReviewDate]
    returns; the result is [null] exactly when no review is rated 2 or less;
    otherwise its date is the date of a review rated 2 or less and no such
    review is newer, [daysAgo] is the number of whole days from that date to
    [now], and the recency is [very_recent] below 7 days, [recent] below 30
    and [old] from 30 days on. *)
Theorem last_negative_is_newest (now : Z) (reviews : list Review.t) :
  (exists res, getLastNegativeReviewDate now (Some reviews) = Ok res) /\
  (getLastNegativeReviewDate now (Some reviews) = Ok None <->
   Forall (fun r => lowRating r = false) reviews) /\
  forall ln,
    getLastNegativeReviewDate now (Some reviews) = Ok (Some ln) ->
    (exists r, In r reviews /\ lowRating r = true /\
               Review.date r = LastNegative.date ln) /\
    (forall r, In r reviews -> lowRating r = true ->
               (Review.date r <= LastNegative.date ln)%Z) /\
    (86400000 * LastNegative.daysAgo ln <= now - LastNegative.date ln
     < 86400000 * (LastNegative.daysAgo ln + 1))%Z /\
    (LastNegative.recency ln = "very_recent" <-> (LastNegative.daysAgo ln < 7)%Z) /\
    (LastNegative.recency ln = "recent" <-> (7 <= LastNegative.daysAgo ln < 30)%Z) /\
    (LastNegative.recency ln = "old" <-> (30 <= LastNegative.daysAgo ln)%Z).
Proof.
  split.
  - unfold getLastNegativeReviewDate, deref, bind.
    destruct (js_sort older (List.filter lowRating reviews)); eauto.
  - apply last_negative_is_newest_aux.
Qed.

Lemma count_filter_pos {A} (f : A -> bool) (l : list A) x :
  In x l -> f x = true -> (1 <= length (List.filter f l))%nat.
Proof.
  intros Hin Hf. assert (H : In x (List.filter f l)) by now apply filter_In.
  destruct (List.filter f l); [destruct H|simpl; lia].
Qed.

Lemma count_filter_pos_inv {A} (f : A -> bool) (l : list A) :
  (1 <= length (List.filter f l))%nat -> exists x, In x l /\ f x = true.
Proof.
  destruct (List.filter f l) as [|x t] eqn:E; [simpl; lia|].
  intros _. exists x. apply filter_In. rewrite E. now left.
Qed.

(** X2: for every lead with a review list, enriched and scored at the same
    time [now]: when the last negative review is tiered [very_recent] or
    [recent], the lead has a negative review of the last 30 days, so the
    recent-negatives factor awards at least 12 points; when the lead has a
    negative review of the last 30 days, its last negative review is at
    most 30 days old; and with no last negative review there is no recent
    negative one. *)
Theorem recency_tier_and_recent_negatives (now : Z) (lead : Lead.t)
    (reviews : list Review.t) :
  Lead.reviews lead = Some reviews ->
  (getLastNegativeReviewDate now (Some reviews) = Ok None ->
   countRecentNegatives now lead = 0%nat) /\
  forall ln,
    getLastNegativeReviewDate now (Some reviews) = Ok (Some ln) ->
    (LastNegative.recency ln <> "old" ->
     (1 <= countRecentNegatives now lead)%nat /\
     (12 <= Rubric.recentNegatives (countRecentNegatives now lead))%Z) /\
    ((1 <= countRecentNegatives now lead)%nat -> (LastNegative.daysAgo ln <= 30)%Z).
Proof.
  intros Hr.
  destruct (last_negative_is_newest_aux now reviews) as (Hnone & Hsome).
  split.
  - intros H. apply Hnone in H.
    now apply (countRecentNegatives_no_low_rating now lead reviews).
  - intros ln Hln. destruct (Hsome ln Hln) as ((r & Hin & Hlow & Hd) & Hmax & Hdays & _ & _ & Hold).
    assert (Hcount : forall x, In x reviews ->
              ((now - 30 * 24 * 60 * 60 * 1000 <=? Review.date x)%Z && isNegative x) = true ->
              (1 <= countRecentNegatives now lead)%nat).
    { intros x Hx Hf. unfold countRecentNegatives. rewrite Hr.
      destruct reviews as [|y t]; [destruct Hx|].
      change (length (y :: t) =? 0)%nat with false. cbv iota.
      eapply count_filter_pos; [exact Hx|exact Hf]. }
    split.
    + intros Hnot.
      assert (Hlt : (LastNegative.daysAgo ln < 30)%Z).
      { destruct (Z.lt_ge_cases (LastNegative.daysAgo ln) 30) as [|Hge]; [assumption|].
        exfalso. apply Hnot. now apply Hold. }
      assert (H1 : (1 <= countRecentNegatives now lead)%nat).
      { apply (Hcount r Hin). change (isNegative r) with (lowRating r). rewrite Hlow.
        rewrite andb_true_r. apply Z.leb_le. lia. }
      split; [exact H1|].
      unfold Rubric.recentNegatives.
      destruct (5 <=? countRecentNegatives now lead)%nat; [vm_compute; discriminate|].
      destruct (3 <=? countRecentNegatives now lead)%nat; [vm_compute; discriminate|].
      apply Nat.leb_le in H1. rewrite H1. vm_compute. discriminate.
    + intros H1. unfold countRecentNegatives in H1. rewrite Hr in H1.
      destruct (length reviews =? 0)%nat; [lia|].
      apply count_filter_pos_inv in H1 as (x & Hx & Hf).
      apply andb_prop in Hf as [Hrecent Hneg]. apply Z.leb_le in Hrecent.
      specialize (Hmax x Hx Hneg). lia.
Qed.

Lemma recency_tier_and_recent_negatives_witness :
  (1 <= countRecentNegatives 1770600000000 busy_lead)%nat.
Proof.
  destruct (recency_tier_and_recent_negatives 1770600000000 busy_lead
              (default [] (Lead.reviews busy_lead)) eq_refl) as [_ H].
  edestruct H as [H1 _]; [reflexivity|].
  apply H1. discriminate.
Defined.

End LastNegativeReview.

(** ** What the factors can add up to *)

Section Factors.
Import LeadEnricher LeadScorer.
Local Open Scope string_scope.

Lemma is_str_true a lit : is_str a lit = true <-> a = Some lit.
Proof.
  destruct a as [x|]; cbn [is_str]; [|easy].
  rewrite String.eqb_eq. split; congruence.
Qed.

Lemma is_str_false a lit : is_str a lit = false <-> a <> Some lit.
Proof. rewrite <- is_str_true. now destruct (is_str a lit). Qed.

(** A severity of [high] or [critical] comes with a worsening trend. *)
Lemma severe_is_worsening reviews :
  let t := calculateReviewTrend reviews in
  (ReviewTrend.trendScore t = Some "high" \/ ReviewTrend.trendScore t = Some "critical") ->
  ReviewTrend.trend t = "worsening".
Proof.
  unfold calculateReviewTrend.
  destruct reviews as [reviews|]; [|intros [|]; discriminate].
  destruct (length reviews <? 5)%nat; [intros [|]; discriminate|].
  cbv zeta. cbn [ReviewTrend.trendScore ReviewTrend.trend].
  match goal with |- context [(?d <? -0.5)%float] => generalize d end.
  intros d. destruct (d <? -0.5)%float eqn:E5.
  - now rewrite (ltb_below_half d E5).
  - destruct (d <? -0.3)%float; [reflexivity|intros [|]; discriminate].
Qed.

Lemma half_of_decline : Rubric.pct 50 10 = 5.
Proof. reflexivity. Qed.

Ltac decline_cases Hsev :=
  rewrite ?half_of_decline;
  repeat match goal with
  | H : is_str _ _ = true |- _ => apply is_str_true in H
  | H : is_str _ _ = false |- _ => apply is_str_false in H
  end;
  split; intros Hg; try reflexivity; try assumption; try discriminate Hg;
  try contradiction;
  try (exfalso;
       match goal with
       | H : Some _ <> Some _ |- _ => apply H; f_equal; apply Hsev; auto
       end).

(** X3: for every lead that [enrichLead] has enriched, the rating-decline
    factor awards 10 points or none: a severity of [high] never comes
    without a worsening trend, so the 5 points of the rubric are out of
    reach. *)
Theorem rating_decline_is_all_or_nothing (now now' : Z) (lead enriched : Lead.t) :
  enrichLead now lead = Ok enriched ->
  let s := calculateLeadScore now' enriched in
  (trendScoreOf enriched = Some "high" -> trendOf enriched = Some "worsening") /\
  (Rubric.ratingDecline (trendOf enriched) (trendScoreOf enriched) = 10%Z <->
   trendOf enriched = Some "worsening") /\
  (Rubric.ratingDecline (trendOf enriched) (trendScoreOf enriched) = 0%Z <->
   trendOf enriched <> Some "worsening") /\
  Rubric.awarded Details.decline_points (Details.ratingDecline (Scoring.details s))
  = JS.num (Rubric.ratingDecline (trendOf enriched) (trendScoreOf enriched)).
Proof.
  intros He s.
  assert (Hshape : exists e, enriched = Lead.with_enrichment lead e /\
                             Enrichment.reviewTrend e = calculateReviewTrend (Lead.reviews lead)).
  { unfold enrichLead in He.
    destruct (extractNegativeKeywords (Lead.reviews lead)); [|discriminate].
    destruct (getLastNegativeReviewDate now (Lead.reviews lead)); [|discriminate].
    cbn [bind] in He. injection He as <-. eexists. split; reflexivity. }
  destruct Hshape as (e & -> & Ht).
  pose proof (severe_is_worsening (Lead.reviews lead)) as Hsev. cbv zeta in Hsev.
  assert (Hpoints :
    Rubric.awarded Details.decline_points (Details.ratingDecline (Scoring.details s))
    = JS.num (Rubric.ratingDecline (trendOf (Lead.with_enrichment lead e))
                                   (trendScoreOf (Lead.with_enrichment lead e)))).
  { subst s. rewrite calculateLeadScore_unfold. cbn [Scoring.details].
    apply (rawScore_details now' (Lead.with_enrichment lead e)). }
  split; [|split; [|split; [|exact Hpoints]]]; clear Hpoints;
    unfold trendOf, trendScoreOf;
    cbn [Lead.with_enrichment Lead.enrichment fmap option_fmap option_map mbind option_bind];
    rewrite Ht; set (t := calculateReviewTrend (Lead.reviews lead)) in *.
  - intros H. f_equal. auto.
  - unfold Rubric.ratingDecline.
    destruct (is_str (Some (ReviewTrend.trend t)) "worsening") eqn:E1;
    destruct (is_str (ReviewTrend.trendScore t) "critical") eqn:E2;
    destruct (is_str (ReviewTrend.trendScore t) "high") eqn:E3; cbn [orb];
    decline_cases Hsev.
  - unfold Rubric.ratingDecline.
    destruct (is_str (Some (ReviewTrend.trend t)) "worsening") eqn:E1;
    destruct (is_str (ReviewTrend.trendScore t) "critical") eqn:E2;
    destruct (is_str (ReviewTrend.trendScore t) "high") eqn:E3; cbn [orb];
    decline_cases Hsev.
Qed.

Lemma rating_decline_is_all_or_nothing_witness :
  exists enriched,
    enrichLead 1770600000000 slipping_lead = Ok enriched /\
    Rubric.ratingDecline (trendOf enriched) (trendScoreOf enriched) = 10%Z.
Proof.
  eexists. split; [reflexivity|].
  destruct (rating_decline_is_all_or_nothing 1770600000000 1770600000000 slipping_lead _
              eq_refl) as (_ & H & _).
  apply H. reflexivity.
Defined.

End Factors.

(** ** The priority tier against the single factors *)

Section Tiers.
Import LeadEnricher LeadScorer.
Local Open Scope string_scope.

Lemma rubric_recentNegatives_points n :
  (n = 0%nat -> Rubric.recentNegatives n = 0) /\
  ((n < 3)%nat -> Rubric.recentNegatives n <= 12) /\
  (Rubric.recentNegatives n = 40 <-> (5 <= n)%nat) /\
  0 <= Rubric.recentNegatives n <= 40.
Proof.
  unfold Rubric.recentNegatives.
  destruct (Nat.leb_spec 5 n), (Nat.leb_spec 3 n), (Nat.leb_spec 1 n);
    change (Rubric.pct 60 40) with 24; change (Rubric.pct 30 40) with 12; lia.
Qed.

Lemma rubric_lowResponseRate_points r :
  (Rubric.lowResponseRate r = 30 <-> (r <? 0.2)%float = true) /\
  0 <= Rubric.lowResponseRate r <= 30.
Proof.
  unfold Rubric.lowResponseRate.
  destruct (r <? 0.2)%float, (r <? 0.5)%float;
    change (Rubric.pct 50 30) with 15; intuition (try discriminate; lia).
Qed.

Lemma rubric_businessSize_points c :
  (Rubric.businessSize c = 20 <-> JS.gtb c 100 = true) /\
  0 <= Rubric.businessSize c <= 20.
Proof.
  unfold Rubric.businessSize.
  destruct (JS.gtb c 100), (JS.gtb c 50), (JS.gtb c 20);
    change (Rubric.pct 70 20) with 14; change (Rubric.pct 40 20) with 8;
    intuition (try discriminate; lia).
Qed.

Lemma rubric_ratingDecline_points t s :
  (Rubric.ratingDecline t s = 10 <-> t = Some "worsening" \/ s = Some "critical") /\
  0 <= Rubric.ratingDecline t s <= 10.
Proof.
  unfold Rubric.ratingDecline.
  destruct (is_str t "worsening") eqn:E1, (is_str s "critical") eqn:E2,
           (is_str s "high") eqn:E3; cbn [orb];
    change (Rubric.pct 50 10) with 5;
    rewrite ?is_str_true, ?is_str_false in *;
    intuition (try discriminate; try lia).
Qed.

Lemma num_100 z : 0 <= z <= 100 -> JS.num z = 100%float <-> z = 100.
Proof.
  intros Hz. split; [|now intros ->].
  intros H. rewrite <- (to_Z_num z Hz), H. reflexivity.
Qed.

(** X4: the tier [critical] takes at least three low ratings of the last 30
    days; a lead without one scores at most 60 and is never critical; and
    the score is 100 exactly when all four factors award their full
    weight. *)
Theorem critical_needs_recent_negatives (now : Z) (lead : Lead.t) :
  let s := calculateLeadScore now lead in
  let n := countRecentNegatives now lead in
  (Scoring.priority s = "critical" -> (3 <= n)%nat) /\
  (n = 0%nat ->
   (exists z, Scoring.score s = JS.num z /\ 0 <= z <= 60) /\
   Scoring.priority s <> "critical") /\
  (Scoring.score s = 100%float <->
   (5 <= n)%nat /\
   (responseRateOf lead <? 0.2)%float = true /\
   JS.gtb (JS.num_or (Lead.totalReviews lead) 0) 100 = true /\
   (trendOf lead = Some "worsening" \/ trendScoreOf lead = Some "critical")).
Proof.
  intros s n. subst s.
  rewrite calculateLeadScore_priority, calculateLeadScore_score.
  pose proof (rubric_total_bounds now lead) as Hb.
  destruct (rubric_priority_tiers (Rubric.total now lead)) as (Hc & _).
  rewrite Hc, (num_100 _ Hb). clear Hc.
  unfold Rubric.total in *. fold n in Hb |- *.
  destruct (rubric_recentNegatives_points n) as (R0 & R3 & R5 & Rb).
  destruct (rubric_lowResponseRate_points (responseRateOf lead)) as (L & Lb).
  destruct (rubric_businessSize_points (JS.num_or (Lead.totalReviews lead) 0)) as (B & Bb).
  destruct (rubric_ratingDecline_points (trendOf lead) (trendScoreOf lead)) as (D & Db).
  rewrite <- R5, <- L, <- B, <- D.
  split; [|split].
  - intros H. destruct (Nat.lt_ge_cases n 3) as [Hn|Hn]; [|exact Hn].
    specialize (R3 Hn). lia.
  - intros Hn. specialize (R0 Hn). split.
    + eexists. split; [reflexivity|]. lia.
    + lia.
  - lia.
Qed.

Lemma num_or_not_nan x d : is_nan d = false -> is_nan (JS.num_or x d) = false.
Proof.
  intros Hd. unfold JS.num_or. destruct x as [v|]; [|exact Hd].
  unfold JS.truthy. destruct (is_nan v) eqn:E.
  - now rewrite orb_true_r.
  - now destruct (is_zero v).
Qed.

Lemma below_10_not_above_20 t : (t <? 10)%float = true -> JS.gtb t 20 = false.
Proof. intros H. number_order. Qed.

Lemma below_50_not_above_50 t : (t <? 50)%float = true -> JS.gtb t 50 = false.
Proof. intros H. number_order. Qed.

Lemma from_50_above_20 t :
  is_nan t = false -> (t <? 50)%float = false -> JS.gtb t 20 = true.
Proof. intros H1 H2. number_order. Qed.

Lemma from_200_above_100 t :
  is_nan t = false -> (t <? 200)%float = false -> JS.gtb t 100 = true.
Proof. intros H1 H2. number_order. Qed.

Lemma above_50_above_20 t : JS.gtb t 50 = false -> JS.gtb t 100 = false.
Proof. intros H. number_order. Qed.

(** X5: the size tier of the enricher against the points of the scorer,
    which draw their lines elsewhere: a [very_small] business earns no
    size points, a [small] one none or 8, a [medium] one 8, 14 or 20, and
    a [large] or [very_large] one the full 20. *)
Theorem business_size_tier_and_points (now : Z) (lead : Lead.t) :
  let b := estimateBusinessSize lead in
  let pts := Rubric.businessSize (JS.num_or (Lead.totalReviews lead) 0) in
  Rubric.awarded Details.size_points
    (Details.businessSize (Scoring.details (calculateLeadScore now lead))) = JS.num pts /\
  BusinessSize.totalReviews b = JS.num_or (Lead.totalReviews lead) 0 /\
  (BusinessSize.size b = "very_small" -> pts = 0) /\
  (BusinessSize.size b = "small" -> pts = 0 \/ pts = 8) /\
  (BusinessSize.size b = "medium" -> pts = 8 \/ pts = 14 \/ pts = 20) /\
  (BusinessSize.size b = "large" \/ BusinessSize.size b = "very_large" -> pts = 20) /\
  (pts = 0 -> BusinessSize.size b = "very_small" \/ BusinessSize.size b = "small").
Proof.
  intros b pts. split.
  { rewrite calculateLeadScore_unfold. cbn [Scoring.details].
    apply (rawScore_details now lead). }
  subst b pts. unfold estimateBusinessSize, Rubric.businessSize.
  pose proof (num_or_not_nan (Lead.totalReviews lead) 0 eq_refl) as Hnan.
  generalize dependent (JS.num_or (Lead.totalReviews lead) 0). intros total Hnan.
  change (Rubric.pct 70 20) with 14; change (Rubric.pct 40 20) with 8.
  split.
  { now destruct (total <? 10)%float, (total <? 50)%float, (total <? 200)%float,
                 (total <? 500)%float. }
  destruct (total <? 10)%float eqn:E10.
  { cbn [BusinessSize.size]. rewrite (below_10_not_above_20 _ E10).
    rewrite (above_50_above_20 total), (below_50_not_above_50 total).
    - repeat split; intros; try discriminate; try (intuition discriminate); auto.
    - revert E10. clear. intros H. number_order.
    - apply below_50_not_above_50. revert E10. clear. intros H. number_order. }
  destruct (total <? 50)%float eqn:E50.
  { cbn [BusinessSize.size]. pose proof (below_50_not_above_50 _ E50) as G50.
    rewrite (above_50_above_20 _ G50), G50.
    destruct (JS.gtb total 20);
      repeat split; intros; try discriminate; try (intuition discriminate); auto. }
  pose proof (from_50_above_20 _ Hnan E50) as G20. rewrite G20.
  destruct (total <? 200)%float eqn:E200.
  { cbn [BusinessSize.size].
    destruct (JS.gtb total 100), (JS.gtb total 50);
      repeat split; intros; try discriminate; try (intuition discriminate); auto. }
  rewrite (from_200_above_100 _ Hnan E200).
  destruct (total <? 500)%float; cbn [BusinessSize.size];
    repeat split; intros; try discriminate; try (intuition discriminate); auto.
Qed.

End Tiers.

(** ** [enrichLeads] on a list with a record that has no review list *)

Section AllOrNothing.
Import LeadEnricher.

Lemma enrichLead_throws now lead :
  Lead.reviews lead = None -> enrichLead now lead = Throw TypeError.
Proof. intros H. unfold enrichLead. now rewrite H. Qed.

Lemma enrich_from clock leads :
  forall idx,
    (Forall (fun lead => Lead.reviews lead <> None) leads ->
     exists out, map_from (fun idx lead => enrichLead (clock idx) lead) idx leads = Ok out) /\
    (Exists (fun lead => Lead.reviews lead = None) leads ->
     map_from (fun idx lead => enrichLead (clock idx) lead) idx leads = Throw TypeError).
Proof.
  induction leads as [|lead leads IH]; intros idx.
  - split; [now exists []|]. intros H. inversion H.
  - destruct (IH (S idx)) as [IHok IHthrow]. cbn [map_from].
    destruct (Lead.reviews lead) as [reviews|] eqn:E.
    + destruct (enrichLead_returns (clock idx) lead) as [e He]; [congruence|].
      rewrite He. cbn [bind]. split.
      * intros H. inversion H as [|? ? _ Hrest]; subst.
        destruct (IHok Hrest) as [out Hout]. rewrite Hout. now exists (Lead.with_enrichment lead e :: out).
      * intros H. inversion H as [? ? Hhere|? ? Hrest]; subst; [congruence|].
        now rewrite (IHthrow Hrest).
    + rewrite (enrichLead_throws _ _ E). cbn [bind]. split; [|reflexivity].
      intros H. inversion H; subst. congruence.
Qed.

(** X6: [enrichLeads] gives all or nothing: it returns exactly when every
    record has a review list, and one record without a review list makes
    the whole call throw the [TypeError], whatever the other records are
    and wherever it stands. *)
Theorem enrichLeads_all_or_nothing (clock : nat -> Z) (leads : list Lead.t) :
  ((exists out, enrichLeads clock leads = Ok out) <->
   Forall (fun lead => Lead.reviews lead <> None) leads) /\
  ((exists msg, enrichLeads clock leads = Throw msg) <->
   Exists (fun lead => Lead.reviews lead = None) leads) /\
  (forall msg, enrichLeads clock leads = Throw msg -> msg = TypeError).
Proof.
  unfold enrichLeads. destruct (enrich_from clock leads 0%nat) as [Hok Hthrow].
  assert (Hdec : Forall (fun lead => Lead.reviews lead <> None) leads \/
                 Exists (fun lead => Lead.reviews lead = None) leads).
  { clear. induction leads as [|lead leads [IH|IH]]; [left; constructor| |].
    - destruct (Lead.reviews lead) eqn:E.
      + left. constructor; [congruence|exact IH].
      + right. now constructor.
    - right. now constructor 2. }
  split; [|split].
  - split; [|exact Hok]. intros [out Hout].
    destruct Hdec as [H|H]; [exact H|]. rewrite (Hthrow H) in Hout. discriminate.
  - split; [|intros H; rewrite (Hthrow H); eauto]. intros [msg Hmsg].
    destruct Hdec as [H|H]; [|exact H].
    destruct (Hok H) as [out Hout]. rewrite Hout in Hmsg. discriminate.
  - intros msg Hmsg. destruct Hdec as [H|H].
    + destruct (Hok H) as [out Hout]. rewrite Hout in Hmsg. discriminate.
    + rewrite (Hthrow H) in Hmsg. congruence.
Qed.

End AllOrNothing.

(** ** [deduplicateLeads] *)

Section Dedup.
Import Scraper.
Local Open Scope string_scope.

Lemma seen_get_set_same k v m : seen_get k (seen_set k v m) = Some v.
Proof.
  induction m as [|[k' v'] m IH]; cbn.
  - now rewrite String.eqb_refl.
  - destruct (k' =? k) eqn:E; cbn; now rewrite E.
Qed.

Lemma seen_get_set_other k k' v m :
  k <> k' -> seen_get k' (seen_set k v m) = seen_get k' m.
Proof.
  intros Hk. induction m as [|[k0 v0] m IH]; cbn.
  - apply String.eqb_neq in Hk. now rewrite Hk.
  - destruct (k0 =? k) eqn:E; cbn.
    + apply String.eqb_eq in E as ->. apply String.eqb_neq in Hk. now rewrite Hk.
    + now rewrite IH.
Qed.

Lemma moreReviews_trans c b a :
  moreReviews c b = true -> moreReviews b a = true -> moreReviews c a = true.
Proof.
  unfold moreReviews, JS.gtb.
  destruct (Lead.totalReviews c), (Lead.totalReviews b), (Lead.totalReviews a);
    try discriminate.
  intros H1 H2. exact (ltb_trans _ _ _ H2 H1).
Qed.

Lemma dedup_from_sublist leads : forall seen, sublist (dedup_from seen leads) leads.
Proof.
  induction leads as [|lead rest IH]; intros seen; cbn [dedup_from]; [constructor|].
  destruct (seen_get (dedupKey lead) seen) as [existing|].
  - destruct (moreReviews lead existing); [apply sublist_skip|apply sublist_cons]; apply IH.
  - apply sublist_skip, IH.
Qed.

Lemma dedup_from_keys leads :
  forall seen x,
    In x leads ->
    (exists y, In y (dedup_from seen leads) /\ dedupKey y = dedupKey x) \/
    seen_get (dedupKey x) seen <> None.
Proof.
  induction leads as [|lead rest IH]; intros seen x Hx; [destruct Hx|].
  cbn [dedup_from].
  assert (Hkept : forall seen',
            seen' = seen_set (dedupKey lead) lead seen ->
            (exists y, In y (lead :: dedup_from seen' rest) /\ dedupKey y = dedupKey x) \/
            seen_get (dedupKey x) seen <> None).
  { intros seen' ->. destruct Hx as [<-|Hx].
    - left. exists lead. split; [now left|reflexivity].
    - destruct (IH (seen_set (dedupKey lead) lead seen) x Hx) as [(y & Hy & Hk)|Hs].
      + left. exists y. split; [now right|exact Hk].
      + destruct (String.eqb_spec (dedupKey lead) (dedupKey x)) as [E|E].
        * left. exists lead. split; [now left|exact E].
        * right. now rewrite seen_get_set_other in Hs. }
  destruct (seen_get (dedupKey lead) seen) as [existing|] eqn:Hseen.
  - destruct (moreReviews lead existing); [now apply Hkept|].
    destruct Hx as [<-|Hx]; [right; congruence|]. apply IH, Hx.
  - now apply Hkept.
Qed.

Lemma dedup_from_distinct leads :
  forall seen,
    (forall x, In x leads -> seen_get (dedupKey x) seen = None) ->
    List.NoDup (map dedupKey leads) ->
    dedup_from seen leads = leads.
Proof.
  induction leads as [|lead rest IH]; intros seen Hseen Hnd; [reflexivity|].
  cbn [dedup_from]. rewrite (Hseen lead (or_introl eq_refl)).
  inversion Hnd as [|? ? Hnot Hrest]; subst. f_equal. apply IH; [|exact Hrest].
  intros x Hx. rewrite seen_get_set_other; [apply Hseen; now right|].
  intros E. apply Hnot. rewrite E. now apply in_map.
Qed.

Lemma dedup_from_chain k leads :
  forall seen,
    let out := List.filter (fun l => dedupKey l =? k) (dedup_from seen leads) in
    StronglySorted (fun a b => moreReviews b a = true) out /\
    (forall e, seen_get k seen = Some e -> Forall (fun a => moreReviews a e = true) out).
Proof.
  induction leads as [|lead rest IH]; intros seen; cbn [dedup_from].
  { cbn. split; [constructor|]. intros. constructor. }
  assert (Hkept : forall prev,
            (forall e, seen_get (dedupKey lead) seen = Some e ->
                       prev = Some e /\ moreReviews lead e = true) ->
            let out := List.filter (fun l => dedupKey l =? k)
                         (lead :: dedup_from (seen_set (dedupKey lead) lead seen) rest) in
            StronglySorted (fun a b => moreReviews b a = true) out /\
            (forall e, seen_get k seen = Some e -> Forall (fun a => moreReviews a e = true) out)).
  { intros prev Hprev. cbv zeta. cbn [List.filter].
    destruct (IH (seen_set (dedupKey lead) lead seen)) as [IHs IHf].
    destruct (String.eqb_spec (dedupKey lead) k) as [E|E].
    - subst k. rewrite seen_get_set_same in IHf. specialize (IHf lead eq_refl).
      split; [now constructor|].
      intros e He. destruct (Hprev e He) as [_ Hmore]. constructor; [exact Hmore|].
      eapply List.Forall_impl; [|exact IHf].
      intros a Ha. cbv beta in Ha. exact (moreReviews_trans a lead e Ha Hmore).
    - rewrite (seen_get_set_other _ _ _ _ E) in IHf. split; assumption. }
  destruct (seen_get (dedupKey lead) seen) as [existing|] eqn:Hseen.
  - destruct (moreReviews lead existing) eqn:Hmore; [|apply IH].
    apply (Hkept (Some existing)). intros e He. injection He as <-. now split.
  - apply (Hkept None). intros e He. discriminate.
Qed.

(** X7: what [deduplicateLeads] keeps.  The result is the input with some
    leads left out, in the input order; every key of the input is still
    there; with pairwise distinct keys nothing is left out.  Leads of one
    key are not reduced to one: a lead is left out only when an earlier
    lead of its key that was kept has at least as many reviews, so that
    the kept leads of one key come with strictly growing review counts. *)
Theorem deduplicateLeads_keeps (leads : list Lead.t) :
  let out := deduplicateLeads leads in
  sublist out leads /\
  (forall x, In x leads -> exists y, In y out /\ dedupKey y = dedupKey x) /\
  (List.NoDup (map dedupKey leads) -> out = leads) /\
  (forall k, StronglySorted (fun a b => moreReviews b a = true)
               (List.filter (fun l => dedupKey l =? k) out)) /\
  (forall a b, dedupKey a = dedupKey b ->
               deduplicateLeads [a; b] = if moreReviews b a then [a; b] else [a]).
Proof.
  unfold deduplicateLeads. cbv zeta. split; [apply dedup_from_sublist|].
  split.
  { intros x Hx. destruct (dedup_from_keys leads [] x Hx) as [H|H]; [exact H|].
    now contradiction H. }
  split; [apply dedup_from_distinct; reflexivity|].
  split; [intros k; apply (dedup_from_chain k leads [])|].
  intros a b E. cbn. rewrite <- E, String.eqb_refl. now destruct (moreReviews b a).
Qed.

End Dedup.

(** ** The leads that [scrapeAll] returns *)

Section Scraped.
Import JSString LeadEnricher LeadScorer Scraper.
Local Open Scope string_scope.

Lemma sublist_In {A} (l1 l2 : list A) x : sublist l1 l2 -> In x l1 -> In x l2.
Proof.
  induction 1 as [|y l1 l2 _ IH|y l1 l2 _ IH]; intros Hx; [exact Hx| |right; auto].
  destruct Hx as [<-|Hx]; [now left|right; auto].
Qed.

Lemma In_imap {A B} (f : nat -> A -> B) (l : list A) y :
  In y (imap f l) -> exists i x, y = f i x /\ In x l.
Proof.
  intros Hy. apply list_elem_of_In in Hy.
  apply elem_of_lookup_imap_1 in Hy as (i & x & -> & Hx).
  exists i, x. split; [reflexivity|].
  apply list_elem_of_In. eapply list_elem_of_lookup_2, Hx.
Qed.

Lemma slice_to_length_le {A} n (l : list A) : (length (firstn n l) <= n)%nat.
Proof. rewrite List.length_firstn. lia. Qed.

Lemma normalizeGoogleMapsData_as_scraped analyze stamp place :
  as_scraped analyze (normalizeGoogleMapsData analyze stamp place).
Proof.
  unfold as_scraped, normalizeGoogleMapsData.
  cbn [Lead.reviews Lead.totalReviews Lead.email Lead.website Lead.enrichment
       Lead.score Lead.scoringDetails Lead.priority].
  split; [|split; [|repeat split]].
  - eexists. split; [reflexivity|]. split.
    + rewrite length_map. apply slice_to_length_le.
    + apply List.Forall_forall. intros r Hr. apply in_map_iff in Hr as (x & <- & _).
      now repeat split.
  - eexists. split; [reflexivity|]. now apply num_or_not_nan.
Qed.

Lemma normalizeTripAdvisorData_as_scraped analyze stamp place :
  as_scraped analyze (normalizeTripAdvisorData analyze stamp place).
Proof.
  unfold as_scraped, normalizeTripAdvisorData.
  cbn [Lead.reviews Lead.totalReviews Lead.email Lead.website Lead.enrichment
       Lead.score Lead.scoringDetails Lead.priority].
  split; [|split; [|repeat split]].
  - eexists. split; [reflexivity|]. split.
    + rewrite length_map. apply slice_to_length_le.
    + apply List.Forall_forall. intros r Hr. apply in_map_iff in Hr as (x & <- & _).
      now repeat split.
  - eexists. split; [reflexivity|]. now apply num_or_not_nan.
Qed.

(** Where a lead of [scrapeAll] comes from. *)
Lemma scrapeAll_origin analyze ms ts mapsItems tripItems lead :
  In lead (scrapeAll analyze ms ts mapsItems tripItems) ->
  (exists stamp place,
     In place mapsItems /\ lowScore (MapsPlace.totalScore place) = true /\
     lead = normalizeGoogleMapsData analyze stamp place) \/
  (exists stamp place,
     In place tripItems /\ lowScore (TripPlace.rating place) = true /\
     lead = normalizeTripAdvisorData analyze stamp place).
Proof.
  unfold scrapeAll, deduplicateLeads. intros H.
  apply (sublist_In _ _ _ (dedup_from_sublist _ _)) in H.
  apply in_app_or in H as [H|H]; [left|right];
    apply In_imap in H as (i & place & -> & Hp);
    apply filter_In in Hp as [Hp Hlow]; eauto.
Qed.

Lemma scrapeAll_as_scraped analyze ms ts mapsItems tripItems lead :
  In lead (scrapeAll analyze ms ts mapsItems tripItems) -> as_scraped analyze lead.
Proof.
  intros H. apply scrapeAll_origin in H as [(s & p & _ & _ & ->)|(s & p & _ & _ & ->)].
  - apply normalizeGoogleMapsData_as_scraped.
  - apply normalizeTripAdvisorData_as_scraped.
Qed.

(** X8: every lead that [scrapeAll] returns comes from a place whose rating
    is a Number other than 0 and at most 3; it carries at most ten reviews,
    each labelled by the analysis of its own text and none with a response
    of the owner; its review count is a Number, its email is the one made
    from its web site, and it has no enrichment and no score yet. *)
Theorem scraped_leads_are_low_rated (analyze : string -> Sentiment.t)
    (ms ts : nat -> string) (mapsItems : list MapsPlace.t) (tripItems : list TripPlace.t)
    (lead : Lead.t) :
  In lead (scrapeAll analyze ms ts mapsItems tripItems) ->
  (exists x, Lead.rating lead = Some x /\ (x <=? 3)%float = true /\
             is_zero x = false /\ is_nan x = false) /\
  (Lead.source lead = "google_maps" \/ Lead.source lead = "tripadvisor") /\
  as_scraped analyze lead.
Proof.
  intros H. split; [|split; [|exact (scrapeAll_as_scraped _ _ _ _ _ _ H)]].
  - assert (Hlow : forall s, lowScore s = true ->
                     exists x, s = Some x /\ (x <=? 3)%float = true /\
                               is_zero x = false /\ is_nan x = false).
    { intros [x|] Hs; [|discriminate]. exists x. unfold lowScore, JS.truthy in Hs.
      apply andb_prop in Hs as [Ht Hle]. apply negb_true_iff, orb_false_elim in Ht.
      now repeat split. }
    apply scrapeAll_origin in H as [(s & p & _ & Hp & ->)|(s & p & _ & Hp & ->)];
      exact (Hlow _ Hp).
  - apply scrapeAll_origin in H as [(s & p & _ & _ & ->)|(s & p & _ & _ & ->)];
      [now left|now right].
Qed.

Lemma scraped_leads_are_low_rated_witness :
  exists lead,
    In lead (scrapeAll sour (fun _ => "2026-02-14") (fun _ => "2026-02-14")
               [bistro_place; diner_place] [inn_place]) /\
    Lead.source lead = "google_maps" /\ as_scraped sour lead.
Proof.
  exists (normalizeGoogleMapsData sour "2026-02-14" diner_place).
  assert (H : In (normalizeGoogleMapsData sour "2026-02-14" diner_place)
                 (scrapeAll sour (fun _ => "2026-02-14") (fun _ => "2026-02-14")
                    [bistro_place; diner_place] [inn_place])).
  { vm_compute. left. reflexivity. }
  split; [exact H|].
  destruct (scraped_leads_are_low_rated _ _ _ _ _ _ H) as (_ & _ & Hs).
  split; [reflexivity|exact Hs].
Defined.

(** X9: the leads of [scrapeAll] can always be enriched: on them
    [enrichLeads] returns, with one enriched lead for each. *)
Theorem scraped_leads_are_enrichable (analyze : string -> Sentiment.t)
    (ms ts : nat -> string) (mapsItems : list MapsPlace.t) (tripItems : list TripPlace.t)
    (clock : nat -> Z) :
  let scraped := scrapeAll analyze ms ts mapsItems tripItems in
  exists enriched,
    enrichLeads clock scraped = Ok enriched /\
    length enriched = length scraped /\
    forall i lead,
      scraped !! i = Some lead ->
      exists o e, enriched !! i = Some o /\ o = Lead.with_enrichment lead e /\
                  enrichLead (clock i) lead = Ok o.
Proof.
  intros scraped.
  assert (Hall : forall i lead, scraped !! i = Some lead -> Lead.reviews lead <> None).
  { intros i lead Hi. apply list_elem_of_lookup_2, list_elem_of_In in Hi.
    destruct (scrapeAll_as_scraped _ _ _ _ _ _ Hi) as ((rs & -> & _) & _). discriminate. }
  destruct (map_from_returns (fun idx lead => enrichLead (clock idx) lead) scraped 0%nat)
    as (out & Hout & Hlen & Hnth).
  { intros i lead Hi. destruct (enrichLead_returns (clock i) lead (Hall i lead Hi)) as [e He].
    eauto. }
  exists out. split; [exact Hout|]. split; [exact Hlen|].
  intros i lead Hi. destruct (Hnth i lead Hi) as (o & Ho & Hrun). cbn [Nat.add] in Hrun.
  destruct (enrichLead_returns (clock i) lead (Hall i lead Hi)) as [e He].
  exists o, e. split; [exact Ho|]. split; [congruence|exact Hrun].
Qed.

(** What [enrichLead] puts into the enrichment. *)
Lemma enrichLead_fields now lead enriched :
  enrichLead now lead = Ok enriched ->
  exists e,
    enriched = Lead.with_enrichment lead e /\
    Enrichment.contactInfo e = enrichContactInfo lead /\
    Enrichment.reviewTrend e = calculateReviewTrend (Lead.reviews lead) /\
    Enrichment.businessSize e = estimateBusinessSize lead /\
    Enrichment.responseRate e = calculateResponseRate (Lead.reviews lead).
Proof.
  unfold enrichLead. intros He.
  destruct (extractNegativeKeywords (Lead.reviews lead)); [|discriminate].
  destruct (getLastNegativeReviewDate now (Lead.reviews lead)); [|discriminate].
  cbn [bind] in He. injection He as <-. eexists. now repeat split.
Qed.

Lemma no_response_rate reviews :
  (length reviews <= 10)%nat ->
  Forall (fun r => hasResponse r = false) reviews ->
  calculateResponseRate (Some reviews)
  = if (length reviews =? 0)%nat then ResponseRate.mk 0 0 0 "0%" None
    else ResponseRate.mk 0 0 (length reviews) "0%" (Some "low").
Proof.
  intros Hlen Hno. unfold calculateResponseRate.
  rewrite (filter_none _ _ Hno). cbn [length].
  revert Hlen. generalize (length reviews). intros n Hn.
  do 11 (destruct n as [|n]; [vm_compute; reflexivity|]). lia.
Qed.

(** X10: a lead of [scrapeAll] has a response rate of 0, whatever the
    owner did: no review has a field for a response.  So the
    low-response-rate factor awards its 30 points to every such lead, and
    no such lead scores less than 30. *)
Theorem scraped_leads_score_30_for_response (analyze : string -> Sentiment.t)
    (ms ts : nat -> string) (mapsItems : list MapsPlace.t) (tripItems : list TripPlace.t)
    (now now' : Z) (lead : Lead.t) :
  In lead (scrapeAll analyze ms ts mapsItems tripItems) ->
  exists enriched e,
    enrichLead now lead = Ok enriched /\
    Lead.enrichment enriched = Some e /\
    ResponseRate.rate (Enrichment.responseRate e) = 0%float /\
    ResponseRate.responded (Enrichment.responseRate e) = 0%nat /\
    ResponseRate.percentage (Enrichment.responseRate e) = "0%" /\
    let s := calculateLeadScore now' enriched in
    Rubric.awarded Details.low_points (Details.lowResponseRate (Scoring.details s))
    = 30%float /\
    exists z, Scoring.score s = JS.num z /\ 30 <= z <= 100.
Proof.
  intros H. destruct (scrapeAll_as_scraped _ _ _ _ _ _ H) as ((rs & Hrs & Hlen & Hall) & _).
  destruct (enrichLead_returns now lead) as [e0 He0]; [congruence|].
  destruct (enrichLead_fields now lead _ He0) as (e & Hsame & _ & _ & _ & Hrate).
  exists (Lead.with_enrichment lead e), e.
  split; [congruence|]. split; [reflexivity|].
  assert (Hr : calculateResponseRate (Lead.reviews lead)
               = if (length rs =? 0)%nat then ResponseRate.mk 0 0 0 "0%" None
                 else ResponseRate.mk 0 0 (length rs) "0%" (Some "low")).
  { rewrite Hrs. apply no_response_rate; [exact Hlen|].
    eapply List.Forall_impl; [|exact Hall].
    intros r (_ & Ho & Hr). unfold hasResponse. now rewrite Ho, Hr. }
  rewrite Hrate, Hr.
  assert (Hzero : responseRateOf (Lead.with_enrichment lead e) = 0%float).
  { unfold responseRateOf. cbn [Lead.with_enrichment Lead.enrichment fmap option_fmap option_map].
    rewrite Hrate, Hr. now destruct (length rs =? 0)%nat. }
  split; [now destruct (length rs =? 0)%nat|].
  split; [now destruct (length rs =? 0)%nat|].
  split; [now destruct (length rs =? 0)%nat|].
  cbv zeta. split.
  - rewrite calculateLeadScore_unfold. cbn [Scoring.details].
    destruct (rawScore_details now' (Lead.with_enrichment lead e)) as (_ & -> & _).
    now rewrite Hzero.
  - exists (Rubric.total now' (Lead.with_enrichment lead e)).
    split; [apply calculateLeadScore_score|].
    pose proof (rubric_total_bounds now' (Lead.with_enrichment lead e)) as Hb.
    split; [|lia]. unfold Rubric.total. rewrite Hzero.
    change (Rubric.lowResponseRate 0) with 30.
    pose proof (rubric_recentNegatives_points
                  (countRecentNegatives now' (Lead.with_enrichment lead e))) as (_ & _ & _ & ?).
    pose proof (rubric_businessSize_points
                  (JS.num_or (Lead.totalReviews (Lead.with_enrichment lead e)) 0)) as (_ & ?).
    pose proof (rubric_ratingDecline_points (trendOf (Lead.with_enrichment lead e))
                  (trendScoreOf (Lead.with_enrichment lead e))) as (_ & ?).
    lia.
Qed.

Lemma scraped_leads_score_30_for_response_witness :
  exists enriched,
    enrichLead 1770600000000
      (normalizeGoogleMapsData sour "2026-02-14" diner_place) = Ok enriched /\
    exists z, Scoring.score (calculateLeadScore 1770600000000 enriched) = JS.num z /\
              30 <= z <= 100.
Proof.
  destruct (scraped_leads_score_30_for_response sour (fun _ => "2026-02-14")
              (fun _ => "2026-02-14") [bistro_place; diner_place] [inn_place]
              1770600000000 1770600000000
              (normalizeGoogleMapsData sour "2026-02-14" diner_place))
    as (enriched & e & He & _ & _ & _ & _ & _ & Hz).
  - vm_compute. left. reflexivity.
  - exists enriched. split; assumption.
Defined.

Lemma extractEmail_domain website :
  extractEmail website
  = match extractDomain website with
    | Some domain => Some ("info@" ++ domain)
    | None => None
    end.
Proof.
  unfold extractEmail, extractDomain, present.
  destruct website as [u|]; [|reflexivity]. now destruct (truthy u).
Qed.

(** X11: the scraper makes the email of a place from its web site the way
    the enricher would ([info@] and the domain), and also when the domain
    is empty, where the enricher makes none.  So for a lead of [scrapeAll]
    the enricher never estimates an email: the contact block has the email
    of the scraper, or none when there is no web site, and no
    [emailType]. *)
Theorem scraped_leads_email_is_never_estimated (analyze : string -> Sentiment.t)
    (ms ts : nat -> string) (mapsItems : list MapsPlace.t) (tripItems : list TripPlace.t)
    (lead : Lead.t) :
  In lead (scrapeAll analyze ms ts mapsItems tripItems) ->
  let contact := enrichContactInfo lead in
  Lead.email lead
  = match extractDomain (Lead.website lead) with
    | Some domain => Some ("info@" ++ domain)
    | None => None
    end /\
  ContactInfo.email contact = Lead.email lead /\
  ContactInfo.emailType contact = None /\
  (present (Lead.website lead) = true ->
   present (ContactInfo.email contact) = true /\ ContactInfo.hasContact contact = true).
Proof.
  intros H contact. destruct (scrapeAll_as_scraped _ _ _ _ _ _ H) as (_ & _ & Hemail & _).
  split; [rewrite Hemail; apply extractEmail_domain|].
  subst contact. unfold enrichContactInfo. rewrite Hemail.
  unfold extractEmail.
  destruct (present (Lead.website lead)) eqn:Hw; cbn [negb].
  - assert (Hor : or_null (Lead.website lead) = Lead.website lead).
    { destruct (Lead.website lead) as [u|]; [|discriminate]. cbn in Hw |- *. now rewrite Hw. }
    rewrite Hor.
    set (email := Some ("info@" ++ _)).
    assert (He : or_null email = email) by reflexivity.
    assert (Hp : present email = true) by reflexivity.
    rewrite He, Hp. cbn [negb andb].
    cbn [ContactInfo.email ContactInfo.emailType ContactInfo.hasContact].
    rewrite Hp, orb_true_r. now repeat split.
  - assert (Hor : present (or_null (Lead.website lead)) = false).
    { destruct (Lead.website lead) as [u|]; [|reflexivity]. cbn in Hw |- *. now rewrite Hw. }
    cbn [or_null present negb andb]. rewrite Hor. cbn [andb].
    cbn [ContactInfo.email ContactInfo.emailType ContactInfo.hasContact].
    repeat split; discriminate.
Qed.

Lemma scraped_leads_email_is_never_estimated_witness :
  ContactInfo.email
    (enrichContactInfo (normalizeGoogleMapsData sour "2026-02-14" diner_place))
  = Some "info@cornerdiner.example".
Proof.
  destruct (scraped_leads_email_is_never_estimated sour (fun _ => "2026-02-14")
              (fun _ => "2026-02-14") [bistro_place; diner_place] [inn_place]
              (normalizeGoogleMapsData sour "2026-02-14" diner_place))
    as (H1 & H2 & _).
  - vm_compute. left. reflexivity.
  - rewrite H2, H1. reflexivity.
Defined.

Lemma analyzeSentiment_negative analyze text :
  (Sentiment.sentiment (ReviewScraper.analyzeSentiment analyze text) =? "negative") = true <->
  present text = true /\
  (Sentiment.score (analyze (default EmptyString text)) <? 0)%float = true.
Proof.
  unfold ReviewScraper.analyzeSentiment.
  destruct (present text); cbn [negb Sentiment.sentiment]; [|now split; [|intros []]].
  set (score := Sentiment.score (analyze (default EmptyString text))).
  unfold JS.gtb. destruct (score <? 0)%float eqn:E.
  - rewrite (ltb_asym _ _ E). now split.
  - destruct (0 <? score)%float; now split; [|intros []].
Qed.

(** X12: a review of a lead of [scrapeAll] counts as negative for the
    keywords exactly when it is rated 2 or less, or it has a text whose
    analysis score is below 0. *)
Theorem scraped_review_negative_by_rating_or_analysis (analyze : string -> Sentiment.t)
    (ms ts : nat -> string) (mapsItems : list MapsPlace.t) (tripItems : list TripPlace.t)
    (lead : Lead.t) (reviews : list Review.t) (r : Review.t) :
  In lead (scrapeAll analyze ms ts mapsItems tripItems) ->
  Lead.reviews lead = Some reviews ->
  In r reviews ->
  (isNegativeReview r = true <->
   lowRating r = true \/
   (present (Review.text r) = true /\
    (Sentiment.score (analyze (default EmptyString (Review.text r))) <? 0)%float = true)) /\
  (In r (negativeReviews reviews) <-> isNegativeReview r = true).
Proof.
  intros H Hrs Hr. destruct (scrapeAll_as_scraped _ _ _ _ _ _ H) as ((rs & Hrs' & _ & Hall) & _).
  rewrite Hrs in Hrs'. injection Hrs' as <-.
  rewrite List.Forall_forall in Hall. destruct (Hall r Hr) as (Hs & _).
  split.
  - unfold isNegativeReview, storedNegative. rewrite Hs, orb_true_iff.
    now rewrite analyzeSentiment_negative.
  - unfold negativeReviews. rewrite filter_In. tauto.
Qed.

Lemma scraped_review_negative_by_rating_or_analysis_witness :
  isNegativeReview
    (Review.mk (Some 1%float) (Some "Bad and slow.") 1770500000000
       (Some (ReviewScraper.analyzeSentiment sour (Some "Bad and slow."))) None None) = true.
Proof.
  destruct (scraped_review_negative_by_rating_or_analysis sour (fun _ => "2026-02-14")
              (fun _ => "2026-02-14") [bistro_place; diner_place] [inn_place]
              (normalizeGoogleMapsData sour "2026-02-14" diner_place) _
              (Review.mk (Some 1%float) (Some "Bad and slow.") 1770500000000
                 (Some (ReviewScraper.analyzeSentiment sour (Some "Bad and slow."))) None None)
              (or_introl eq_refl) eq_refl (or_introl eq_refl)) as [H _].
  apply H. right. split; reflexivity.
Defined.

End Scraped.

(** ** The top leads and the digest of a scored list *)

Section Reports.
Import LeadScorer LeadExporter.
Local Open Scope string_scope.

(** [scoreAllLeads] returns the stable sort of the scored copies. *)
Lemma scoreAllLeads_output clock leads h input :
  Store.leads_of h leads = Some input ->
  exists h',
    scoreAllLeads clock leads h = Some (length (Store.arrays h), h') /\
    Store.leads_of h' (length (Store.arrays h))
    = Some (js_sort lowerScore (imap (fun idx lead => scoreLead (clock idx) lead) input)).
Proof.
  intros Hin. set (copies := imap (fun idx lead => scoreLead (clock idx) lead) input).
  unfold Store.leads_of in Hin.
  destruct (Store.arrays h !! leads) as [refs|] eqn:Harr; [|discriminate].
  cbn [mbind option_bind] in Hin.
  pose (objs' := (Store.objects h ++ copies)%list).
  pose (fresh := seq (length (Store.objects h)) (length refs)).
  pose (h1 := Store.mk objs' (Store.arrays h ++ [fresh])).
  pose (sorted := js_sort (lowerScoreRef h1) fresh).
  assert (Hlen : length refs = length copies).
  { subst copies. rewrite length_imap. now apply length_mapM in Hin. }
  assert (Hfresh : Forall2 (fun o x => objs' !! o = Some x) fresh copies).
  { subst fresh objs'. rewrite Hlen. apply seq_lookup_fresh. }
  assert (Hsorted : Forall2 (fun o x => objs' !! o = Some x) sorted (js_sort lowerScore copies)).
  { apply (js_sort_Forall2 _ (lowerScoreRef h1) lowerScore); [|exact Hfresh].
    intros a b va vb Ha Hb. unfold lowerScoreRef. cbn [Store.objects h1].
    now rewrite Ha, Hb. }
  exists (Store.mk objs' (Store.arrays h ++ [sorted])). split.
  - unfold scoreAllLeads. rewrite Harr. cbn [mbind option_bind].
    rewrite (map_alloc_spec _ refs 0%nat h input Hin).
    cbn [mbind option_bind Store.alloc_array Store.arrays Store.objects Store.write_array].
    unfold Store.write_array. cbn [Store.arrays Store.objects].
    now rewrite insert_last.
  - unfold objs'. rewrite leads_of_fresh. now apply mapM_Some_2.
Qed.

Lemma In_copies clock input a :
  In a (imap (fun idx lead => scoreLead (clock idx) lead) input) ->
  exists i lead, input !! i = Some lead /\ a = scoreLead (clock i) lead.
Proof.
  intros Ha. apply list_elem_of_In, elem_of_lookup_imap_1 in Ha as (i & lead & -> & Hi).
  eauto.
Qed.

Lemma In_slice_to {A} n (l : list A) x : In x (slice_to n l) -> In x l.
Proof.
  unfold slice_to. revert l. induction n as [|n IH]; intros [|y l] Hx; try destruct Hx as [].
  - now left.
  - right. now apply IH.
Qed.

Lemma descending_app {A} (key : A -> Z) l1 l2 :
  descending key (l1 ++ l2) ->
  descending key l1 /\ descending key l2 /\
  forall a b, In a l1 -> In b l2 -> key b <= key a.
Proof.
  unfold descending. induction l1 as [|x l1 IH]; cbn [app]; intros Hs.
  - split; [constructor|]. split; [exact Hs|]. intros a b [].
  - inversion Hs as [|? ? Hrest Hall]; subst. destruct (IH Hrest) as (H1 & H2 & H3).
    rewrite List.Forall_app in Hall. destruct Hall as [Hall1 Hall2].
    split; [now constructor|]. split; [exact H2|].
    intros a b [<-|Ha] Hb; [|now apply H3].
    rewrite List.Forall_forall in Hall2. now apply Hall2.
Qed.

(** X13: the leads that [saveTopLeads] writes from the result of
    [scoreAllLeads] are the best ones: there are [count] of them (all, when
    there are fewer), in descending order of score, each the scored copy of
    an input lead, and no lead that is left out scores more than one that
    is written. *)
Theorem top_leads_are_the_best (clock : nat -> Z) (leads : nat) (h : Store.t)
    (input : list Lead.t) (count : nat) :
  Store.leads_of h leads = Some input ->
  exists h' scored,
    scoreAllLeads clock leads h = Some (length (Store.arrays h), h') /\
    Store.leads_of h' (length (Store.arrays h)) = Some scored /\
    let top := TopLeads.top scored count in
    length top = Nat.min count (length input) /\
    descending scoreKey top /\
    (forall a, In a top ->
       exists i lead, input !! i = Some lead /\ a = scoreLead (clock i) lead) /\
    (forall a b, In a top -> In b (slice_from count scored) -> scoreKey b <= scoreKey a).
Proof.
  intros Hin. destruct (scoreAllLeads_output clock leads h input Hin) as (h' & Hrun & Hout).
  set (copies := imap (fun idx lead => scoreLead (clock idx) lead) input) in *.
  exists h', (js_sort lowerScore copies). split; [exact Hrun|]. split; [exact Hout|].
  assert (Hcopies : Forall scored copies).
  { apply List.Forall_forall. intros o Ho.
    apply In_copies in Ho as (i & lead & _ & ->). apply scoreLead_scored. }
  pose proof (js_sort_sorted lowerScore scored scoreKey lowerScore_by_key copies Hcopies)
    as Hdesc.
  unfold TopLeads.top, slice_to, slice_from. cbv zeta.
  rewrite <- (firstn_skipn count (js_sort lowerScore copies)) in Hdesc.
  destruct (descending_app _ _ _ Hdesc) as (H1 & _ & H3).
  split.
  { rewrite List.length_firstn, js_sort_length. unfold copies. now rewrite length_imap. }
  split; [exact H1|]. split; [|exact H3].
  intros a Ha. apply In_copies with (clock := clock).
  apply (js_sort_In lowerScore). exact (In_slice_to count _ a Ha).
Qed.

Lemma top_leads_are_the_best_witness :
  exists h' scored,
    scoreAllLeads (fun _ => 1770600000000) 0 three_leads = Some (1%nat, h') /\
    Store.leads_of h' 1 = Some scored /\
    length (TopLeads.top scored 2) = 2%nat.
Proof.
  destruct (top_leads_are_the_best (fun _ => 1770600000000) 0 three_leads
              [quiet_lead; busy_lead; slipping_lead] 2 eq_refl)
    as (h' & scored & H1 & H2 & H3 & _).
  exists h', scored. auto.
Defined.

Lemma getPriorityLevel_tiers score :
  getPriorityLevel score = "critical" \/ getPriorityLevel score = "high" \/
  getPriorityLevel score = "medium" \/ getPriorityLevel score = "low".
Proof.
  unfold getPriorityLevel.
  destruct (JS.geb score 80), (JS.geb score 60), (JS.geb score 40); auto.
Qed.

Lemma count_tiers leads :
  Forall (fun l => Lead.priority l = Some "critical" \/ Lead.priority l = Some "high" \/
                   Lead.priority l = Some "medium" \/ Lead.priority l = Some "low") leads ->
  (countPriority "critical" leads + countPriority "high" leads
   + countPriority "medium" leads + countPriority "low" leads = length leads)%nat.
Proof.
  unfold countPriority. induction 1 as [|l leads Hl _ IH]; [reflexivity|].
  cbn [List.filter length].
  destruct Hl as [-> | [-> | [-> | ->]]]; cbn [is_str]; cbn; lia.
Qed.

(** X14: in the digest of what [scoreAllLeads] returns, the four tier
    counts add up to the number of leads, and there are five header lines
    and one line for each of the first [topCount] leads, fewer when the
    list is shorter. *)
Theorem digest_counts_every_lead (String_of_score : option float -> string)
    (clock : nat -> Z) (leads : nat) (h : Store.t) (input : list Lead.t) (topCount : nat) :
  Store.leads_of h leads = Some input ->
  exists h' scored,
    scoreAllLeads clock leads h = Some (length (Store.arrays h), h') /\
    Store.leads_of h' (length (Store.arrays h)) = Some scored /\
    (countPriority "critical" scored + countPriority "high" scored
     + countPriority "medium" scored + countPriority "low" scored = length input)%nat /\
    length (digestLines String_of_score scored topCount)
    = (5 + Nat.min topCount (length input))%nat /\
    (forall tier, (countPriority tier scored <= length input)%nat).
Proof.
  intros Hin. destruct (scoreAllLeads_output clock leads h input Hin) as (h' & Hrun & Hout).
  set (copies := imap (fun idx lead => scoreLead (clock idx) lead) input) in *.
  exists h', (js_sort lowerScore copies). split; [exact Hrun|]. split; [exact Hout|].
  assert (Hlen : length (js_sort lowerScore copies) = length input).
  { rewrite js_sort_length. unfold copies. now rewrite length_imap. }
  split; [|split].
  - rewrite <- Hlen. apply count_tiers, js_sort_Forall.
    apply List.Forall_forall. intros o Ho. apply In_copies in Ho as (i & lead & _ & ->).
    unfold scoreLead. cbn [Lead.with_scoring Lead.priority].
    rewrite calculateLeadScore_unfold. cbn [Scoring.priority].
    destruct (getPriorityLevel_tiers (fst (rawScore (clock i) lead))) as [-> | [-> | [-> | ->]]];
      auto.
  - unfold digestLines. rewrite List.length_app, length_imap. unfold slice_to.
    rewrite List.length_firstn, Hlen. reflexivity.
  - intros tier. rewrite <- Hlen. unfold countPriority. apply List.filter_length_le.
Qed.

Lemma digest_counts_every_lead_witness :
  exists h' scored,
    scoreAllLeads (fun _ => 1770600000000) 0 three_leads = Some (1%nat, h') /\
    Store.leads_of h' 1 = Some scored /\
    length (digestLines (fun _ => "0") scored 5) = 8%nat.
Proof.
  destruct (digest_counts_every_lead (fun _ => "0") (fun _ => 1770600000000) 0 three_leads
              [quiet_lead; busy_lead; slipping_lead] 5 eq_refl)
    as (h' & scored & H1 & H2 & _ & H3 & _).
  exists h', scored. auto.
Defined.

End Reports.

(** ** [slugify], and the web site and email of a demo lead *)

Section Slugs.
Import JSString LeadEnricher Demo.
Local Open Scope string_scope.

Lemma alnum_plain c :
  alnum c = true ->
  lower_char c = c /\ Ascii.eqb c "-" = false /\ Ascii.eqb c "/" = false /\
  Ascii.eqb c "." = false.
Proof.
  destruct c as [[] [] [] [] [] [] [] []]; vm_compute; intros H;
    try discriminate H; repeat split.
Qed.

Lemma dashed_dash_runs s : forall in_run, dashed in_run (dash_runs in_run s) = true.
Proof.
  induction s as [|c s IH]; intros in_run; [reflexivity|].
  cbn [dash_runs]. destruct (alnum c) eqn:E.
  - cbn [dashed]. now rewrite E.
  - destruct in_run; [apply IH|].
    cbn [dashed]. change (alnum "-") with false.
    change (Ascii.eqb "-" "-") with true. cbn [andb negb]. apply IH.
Qed.

Lemma drop_last_dash_empty s :
  drop_last_dash s = EmptyString -> s = EmptyString \/ s = "-".
Proof.
  destruct s as [|c [|c' s]]; [now left| |discriminate].
  cbn. destruct (Ascii.eqb_spec c "-") as [->|]; [now right|discriminate].
Qed.

Lemma drop_last_dash_cons c c' s :
  drop_last_dash (String c (String c' s)) = String c (drop_last_dash (String c' s)).
Proof. reflexivity. Qed.

Lemma well_dashed_drop_last s :
  forall prev, dashed prev s = true ->
               drop_last_dash s = EmptyString \/ well_dashed prev (drop_last_dash s) = true.
Proof.
  induction s as [|c s IH]; intros prev Hd; [now left|].
  destruct s as [|c' s].
  - cbn [drop_last_dash]. destruct (Ascii.eqb_spec c "-") as [->|Hc]; [now left|].
    right. cbn [dashed] in Hd. cbn [well_dashed].
    destruct (alnum c); [reflexivity|].
    apply andb_prop in Hd as [Hd _]. apply andb_prop in Hd as [Hd _].
    apply Ascii.eqb_eq in Hd. contradiction.
  - rewrite drop_last_dash_cons. right. cbn [dashed] in Hd. cbn [well_dashed].
    destruct (alnum c).
    + destruct (IH false Hd) as [He|Hw]; [|exact Hw].
      rewrite He. reflexivity.
    + apply andb_prop in Hd as [Hd Hrest]. rewrite Hd. cbn [andb].
      destruct (IH true Hrest) as [He|Hw]; [|exact Hw].
      apply drop_last_dash_empty in He as [He|He]; [discriminate|].
      injection He as -> ->. vm_compute in Hrest. discriminate Hrest.
Qed.

Lemma dashed_without_first s :
  dashed false s = true -> dashed true (default s (strip_prefix "-" s)) = true.
Proof.
  destruct s as [|c s]; [reflexivity|].
  cbn [strip_prefix]. destruct (Ascii.eqb_spec "-" c) as [<-|Hc].
  - cbn. trivial.
  - cbn [default option_rect from_option]. cbn [dashed].
    destruct (alnum c); [trivial|].
    intros H. apply andb_prop in H as [H _]. apply andb_prop in H as [H _].
    apply Ascii.eqb_eq in H. congruence.
Qed.

Lemma is_slug_slugify text : is_slug (slugify text) = true.
Proof.
  unfold slugify, trim_dashes, is_slug.
  pose proof (dashed_without_first _ (dashed_dash_runs (toLowerCase text) false)) as H.
  destruct (well_dashed_drop_last _ _ H) as [->| ->]; [reflexivity|apply orb_true_r].
Qed.

Lemma well_dashed_weaken s : well_dashed true s = true -> well_dashed false s = true.
Proof.
  destruct s as [|c s]; [discriminate|]. cbn [well_dashed].
  destruct (alnum c); [trivial|]. rewrite andb_false_r. discriminate.
Qed.

Lemma well_dashed_lower s : forall prev, well_dashed prev s = true -> toLowerCase s = s.
Proof.
  induction s as [|c s IH]; intros prev H; [reflexivity|].
  cbn [well_dashed] in H. cbn [toLowerCase]. destruct (alnum c) eqn:E.
  - destruct (alnum_plain c E) as [-> _]. f_equal. eapply IH, H.
  - apply andb_prop in H as [H Hrest]. apply andb_prop in H as [H _].
    apply Ascii.eqb_eq in H as ->. f_equal. eapply IH, Hrest.
Qed.

Lemma well_dashed_dash_runs s : forall prev, well_dashed prev s = true -> dash_runs prev s = s.
Proof.
  induction s as [|c s IH]; intros prev H; [reflexivity|].
  cbn [well_dashed] in H. cbn [dash_runs]. destruct (alnum c) eqn:E.
  - f_equal. apply IH, H.
  - apply andb_prop in H as [H Hrest]. apply andb_prop in H as [Hc Hp].
    apply Ascii.eqb_eq in Hc as ->. destruct prev; [discriminate|].
    f_equal. apply IH, Hrest.
Qed.

Lemma well_dashed_drop_last_same s :
  forall prev, well_dashed prev s = true -> drop_last_dash s = s.
Proof.
  induction s as [|c s IH]; intros prev H; [reflexivity|].
  destruct s as [|c' s].
  - cbn [well_dashed] in H. cbn [drop_last_dash].
    destruct (alnum c) eqn:E.
    + destruct (alnum_plain c E) as (_ & -> & _). reflexivity.
    + rewrite andb_false_r in H. discriminate.
  - rewrite drop_last_dash_cons. f_equal. cbn [well_dashed] in H.
    destruct (alnum c); [exact (IH _ H)|].
    apply andb_prop in H as [_ H]. exact (IH _ H).
Qed.

Lemma well_dashed_no_first_dash s :
  well_dashed true s = true -> strip_prefix "-" s = None.
Proof.
  destruct s as [|c s]; [reflexivity|]. cbn [well_dashed strip_prefix].
  destruct (alnum c) eqn:E.
  - destruct (alnum_plain c E) as (_ & Hc & _). rewrite Ascii.eqb_sym, Hc. reflexivity.
  - rewrite andb_false_r. discriminate.
Qed.

Lemma slugify_slug s : is_slug s = true -> slugify s = s.
Proof.
  unfold is_slug. intros H. apply orb_prop in H as [H|H].
  - apply String.eqb_eq in H as ->. reflexivity.
  - unfold slugify, trim_dashes.
    rewrite (well_dashed_lower s true H).
    rewrite (well_dashed_dash_runs s false (well_dashed_weaken s H)).
    rewrite (well_dashed_no_first_dash s H). cbn [default option_rect from_option].
    apply (well_dashed_drop_last_same s true H).
Qed.

(** X15: [slugify] returns a slug for every text (the empty string, or
    words of letters [a]-[z] and digits with single dashes between them,
    none in front and none at the end), it leaves every slug as it is, and
    so applying it twice is applying it once. *)
Theorem slugify_makes_slugs (text : string) :
  is_slug (slugify text) = true /\
  (is_slug text = true -> slugify text = text) /\
  slugify (slugify text) = slugify text /\
  toLowerCase (slugify text) = slugify text.
Proof.
  pose proof (is_slug_slugify text) as H.
  split; [exact H|]. split; [apply slugify_slug|]. split; [apply slugify_slug, H|].
  unfold is_slug in H. apply orb_prop in H as [H|H].
  - apply String.eqb_eq in H. now rewrite H.
  - apply (well_dashed_lower _ true H).
Qed.

Lemma strip_prefix_app p s : strip_prefix p (p ++ s) = Some s.
Proof.
  induction p as [|c p IH]; cbn; [now destruct s|]. now rewrite Ascii.eqb_refl.
Qed.

Lemma strip_prefix_Some p s r : strip_prefix p s = Some r -> s = p ++ r.
Proof.
  revert s. induction p as [|c p IH]; intros s H.
  - destruct s; cbn in *; congruence.
  - destruct s as [|c' s]; [discriminate|]. cbn in H.
    destruct (Ascii.eqb_spec c c') as [->|]; [|discriminate].
    cbn. f_equal. apply IH, H.
Qed.

Lemma well_dashed_before_slash s t :
  forall prev, well_dashed prev s = true -> before_slash (s ++ t) = s ++ before_slash t.
Proof.
  induction s as [|c s IH]; intros prev H; [reflexivity|].
  cbn [well_dashed] in H. cbn [append before_slash]. destruct (alnum c) eqn:E.
  - destruct (alnum_plain c E) as (_ & _ & -> & _). f_equal. eapply IH, H.
  - apply andb_prop in H as [H Hrest]. apply andb_prop in H as [H _].
    apply Ascii.eqb_eq in H as ->. cbn. f_equal. eapply IH, Hrest.
Qed.

Lemma slug_before_slash s t :
  is_slug s = true -> before_slash (s ++ t) = s ++ before_slash t.
Proof.
  unfold is_slug. intros H. apply orb_prop in H as [H|H].
  - apply String.eqb_eq in H as ->. reflexivity.
  - apply (well_dashed_before_slash s t true H).
Qed.

Lemma slug_strip_www s :
  is_slug s = true -> s <> "www" -> strip_www (s ++ ".com") = s ++ ".com".
Proof.
  intros Hs Hw. unfold strip_www.
  destruct (strip_prefix "www." (s ++ ".com")) as [r|] eqn:E; [|reflexivity].
  exfalso. apply strip_prefix_Some in E.
  destruct s as [|c1 [|c2 [|c3 [|c4 s]]]]; cbn in E; try discriminate E.
  - injection E as -> -> -> _. now apply Hw.
  - injection E as -> -> -> -> _. cbn in Hs. discriminate Hs.
Qed.

(** X16: the email that the demo gives a lead is the one made from its web
    site: the domain that the enricher reads off the web site is the slug
    of the name with [.com], and [info@] with that domain is the email,
    which is also what the scraper would make of the web site.  The one
    name apart is that with the slug [www], whose domain reads [com]. *)
Theorem demo_email_matches_website (name : string) :
  let slug := slugify name in
  (slug <> "www" ->
   extractDomain (Some (website name)) = Some (slug ++ ".com") /\
   Scraper.extractEmail (Some (website name)) = Some (email name)) /\
  (slug = "www" ->
   extractDomain (Some (website name)) = Some "com" /\
   Scraper.extractEmail (Some (website name)) = Some "info@com" /\
   email name = "info@www.com").
Proof.
  intros slug. pose proof (is_slug_slugify name) as Hs. fold slug in Hs.
  assert (Hscheme : strip_scheme (website name) = slug ++ ".com").
  { unfold strip_scheme, website. fold slug.
    now rewrite (strip_prefix_app "https://" (slug ++ ".com")). }
  assert (Hdomain : extractDomain (Some (website name))
                    = Some (before_slash (strip_www (slug ++ ".com")))).
  { unfold extractDomain. now rewrite Hscheme. }
  rewrite extractEmail_domain, Hdomain. split.
  - intros Hw. rewrite (slug_strip_www slug Hs Hw), (slug_before_slash slug ".com" Hs).
    split; reflexivity.
  - intros Hw. unfold email. fold slug. rewrite Hw. repeat split.
Qed.

End Slugs.
